(** * CRL management core of the PKI secrets engine

    A shallow embedding of [crlBuilder], [revokeCert], [buildCRLs],
    [getRevokedCertEntries], [augmentWithRevokedIssuers] and [buildCRL]
    (package [pki], stored in [postgresqlhelper.go] after the docker test
    helper), followed by the properties of the revocation service and of
    the CRL assembly engine.

    Conventions of the embedding:
    - Go [string], [[]byte], [issuerID], [crlID] and [keyID] are [string]
      (a byte sequence); the code itself converts [RawSubject] with
      [string(...)] to use it as a map key.
    - Go maps are [gmap]; a [range] over a map visits the keys in the order
      given by the oracle [rangeOrder], about which only "it is a
      permutation" is ever assumed.
    - [time.Time] is the number of nanoseconds since the zero time, so that
      [IsZero] is a comparison with 0; [time.Duration] is a number of
      nanoseconds.
    - [uint32] and [int64] are [Z] with the wrap-around written out.
    - A Go function returning [(T, error)] and mutating the storage or the
      builder is a function [World -> (error + T) * World]: the world that
      comes back with an error is the one the caller observes, partial
      writes included.
    - The storage is a finite map; an operation of the driver fails when the
      mount says so ([getFault], [putFault], ...), and then changes nothing.
    - One caller runs at a time and the clock stands still during a call;
      the mutexes are not modelled.  The exception is the force-rebuild
      flag, which is written without a lock: [rebuildIfForced] is also cut
      at its accesses to the flag, with requests arriving in between. *)

From stdpp Require Import gmap strings list fin_maps pretty.
From Stdlib Require Import ZArith Lia Ascii.

(** ** Strings *)

Module strings.

Definition lowerByte (c : Ascii.ascii) : Ascii.ascii :=
  let n := Ascii.nat_of_ascii c in
  if (65 <=? n)%nat && (n <=? 90)%nat then Ascii.ascii_of_nat (n + 32) else c.

(** [strings.ToLower], on ASCII input (serial numbers are hexadecimal). *)
Fixpoint ToLower (s : string) : string :=
  match s with
  | EmptyString => EmptyString
  | String c r => String (lowerByte c) (ToLower r)
  end.

(** [strings.ReplaceAll s old new] for one-byte [old] and [new]. *)
Fixpoint ReplaceAll (s : string) (old new : Ascii.ascii) : string :=
  match s with
  | EmptyString => EmptyString
  | String c r =>
      String (if decide (c = old) then new else c) (ReplaceAll r old new)
  end.

End strings.

(** ** Time *)

Module time.

Definition Time := Z.
Definition Duration := Z.

Definition zero : Time := 0%Z.
Definition Second : Duration := 1000000000%Z.

(** Nanoseconds between the zero time (year 1) and the Unix epoch. *)
Definition unixEpoch : Time := (62135596800 * 1000000000)%Z.

Definition IsZero (t : Time) : bool := bool_decide (t = zero).
Definition Before (t u : Time) : bool := bool_decide (t < u)%Z.
Definition After (t u : Time) : bool := bool_decide (u < t)%Z.
Definition Add (t : Time) (d : Duration) : Time := (t + d)%Z.
(** [time.Unix(sec, 0)] *)
Definition FromUnix (sec : Z) : Time := (unixEpoch + sec * 1000000000)%Z.
(** [t.Unix()] *)
Definition Unix (t : Time) : Z := ((t - unixEpoch) `div` 1000000000)%Z.
(** [t.UTC()] keeps the instant and only changes the location. *)
Definition UTC (t : Time) : Time := t.

End time.

(** ** Machine integers *)

Definition wrap_int64 (z : Z) : Z :=
  ((z + 2 ^ 63) `mod` 2 ^ 64 - 2 ^ 63)%Z.

(** ** Errors *)

Module errutil.

Inductive kind := UserError | InternalError | Plain | Panic.

End errutil.

Record error := Err { errKind : errutil.kind; errMsg : string }.

Definition Errorf (msg : string) : error := Err errutil.Plain msg.
Definition UserError (msg : string) : error := Err errutil.UserError msg.
Definition InternalError (msg : string) : error := Err errutil.InternalError msg.
Definition nilDeref : error :=
  Err errutil.Panic "invalid memory address or nil pointer dereference".

(** The type switch [switch err.(type) { case errutil.UserError: ... }]. *)
Definition isUserError (e : error) : bool :=
  match errKind e with errutil.UserError => true | _ => false end.

(** ** X.509 data *)

Module x509.

Record Certificate := {
  Raw : string;
  RawSubject : string;
  RawIssuer : string;
  SerialNumber : Z;
  NotAfter : time.Time;
  IsCA : bool
}.

End x509.

Module pkix.

Record RevokedCertificate := {
  SerialNumber : Z;
  RevocationTime : time.Time
}.

End pkix.

Record RevocationList := {
  RevokedCertificates : list pkix.RevokedCertificate;
  Number : Z;
  ThisUpdate : time.Time;
  NextUpdate : time.Time;
  SignatureAlgorithm : Z
}.

(** ** Persisted and in-memory records *)

Record revocationInfo := {
  CertificateBytes : string;
  RevocationTime : Z;
  RevocationTimeUTC : time.Time;
  CertificateIssuer : string
}.

Record crlConfig := {
  Expiry : string;
  Disable : bool;
  AutoRebuild : bool;
  AutoRebuildGracePeriod : string
}.

Record crlBuilder := {
  forceRebuild : Z;
  dirty : bool;
  config : crlConfig
}.

Record localCRLConfigEntry := {
  IssuerIDCRLMap : gmap string string;
  CRLNumberMap : gmap string Z;
  CRLExpirationMap : gmap string time.Time
}.

Record issuerEntry := {
  KeyID : string;
  issuerCertificate : string;
  Revoked : bool;
  issuerRevocationTimeUTC : time.Time;
  usageCRLSigning : bool
}.

Record issuerConfigEntry := { DefaultIssuerId : string }.

Record CAInfoBundle := {
  caCertificate : x509.Certificate;
  caPrivateKey : string;
  RevocationSigAlg : Z
}.

(** ** Responses of the revocation API *)

Module logical.

Inductive Response :=
| ErrorResponse (msg : string)
| Warning (warnings : list string)
| Data (revocation_time : Z) (revocation_time_rfc3339 : option string).

End logical.

(** ** Collaborators

    The functions and constants below are used by the code of this file and
    declared elsewhere (the Go standard library, [certutil], the issuer
    storage, the migration code).  They are parameters of the whole
    development. *)

Abbreviation result A := (error + A)%type.

Class Platform := {
  (** [x509.ParseCertificate] *)
  ParseCertificate : string → result x509.Certificate;
  (** [child.CheckSignatureFrom(parent) == nil] *)
  CheckSignatureFrom : x509.Certificate → x509.Certificate → bool;
  (** [x509.CreateRevocationList(rand.Reader, template, issuer, key)] *)
  CreateRevocationList :
    RevocationList → x509.Certificate → string → result string;
  (** [time.ParseDuration] *)
  ParseDuration : string → result time.Duration;
  (** [t.Format(time.RFC3339Nano)] *)
  FormatRFC3339Nano : time.Time → string;
  (** [logical.StorageEntryJSON(key, revInfo)], the value of the entry *)
  StorageEntryJSON : revocationInfo → result string;
  (** [entry.DecodeJSON(&revInfo)] *)
  DecodeJSON : string → result revocationInfo;
  serialFromCert : x509.Certificate → string;
  normalizeSerial : string → string;
  (** [issuerEntry.GetCertificate] *)
  GetCertificate : issuerEntry → result x509.Certificate;
  (** [parseCABundle(ctx, b, bundle)], of which only the [Certificate]
      field is read; [None] is a nil certificate. *)
  parseCABundle : string → result (option x509.Certificate);
  (** [genCRLId()], as a function of the number of identifiers drawn *)
  genCRLId : nat → string;
  legacyBundleShimID : string;
  legacyCRLPath : string;
  defaultCrlConfig : crlConfig;
  (** the order in which [range] visits the keys of a map *)
  rangeOrder : list string → list string
}.

(** What a call receives through [b *backend], [sc *storageContext] and the
    clock.  None of it is written by the code of this file. *)
Record backend := {
  Tainted : bool;
  useLegacyBundleCaStorage : bool;
  ReplicationPerformanceStandby : bool;
  ReplicationDRSecondary : bool;
  listIssuers : result (list string);
  fetchCertBundleByIssuerId : string → result (issuerEntry * option string);
  getIssuersConfig : result issuerConfigEntry;
  fetchCAInfoByIssuerId : string → result CAInfoBundle;
  getRevocationConfig : result (option crlConfig);
  Now : time.Time;
  (** failures of the storage driver, per operation and key *)
  getFault : string → option error;
  putFault : string → option error;
  deleteFault : string → option error;
  listFault : string → option error;
  localCRLGetFault : option error;
  localCRLSetFault : option error
}.

(** What the code reads and writes. *)
Record World := {
  storage : gmap string string;
  localCRL : option localCRLConfigEntry;
  builder : crlBuilder;
  drawn : nat
}.

Definition set_storage (f : gmap string string → gmap string string)
    (w : World) : World :=
  {| storage := f (storage w); localCRL := localCRL w;
     builder := builder w; drawn := drawn w |}.

Definition set_localCRL (c : option localCRLConfigEntry) (w : World) : World :=
  {| storage := storage w; localCRL := c;
     builder := builder w; drawn := drawn w |}.

Definition set_builder (f : crlBuilder → crlBuilder) (w : World) : World :=
  {| storage := storage w; localCRL := localCRL w;
     builder := f (builder w); drawn := drawn w |}.

Definition set_drawn (n : nat) (w : World) : World :=
  {| storage := storage w; localCRL := localCRL w;
     builder := builder w; drawn := n |}.

(** ** The monad of fallible, stateful code *)

(** A computation either stops with an [E] or yields an [A]; either way it
    hands back the world it reached. *)
Definition ME (E A : Type) : Type := World → (E + A) * World.
Abbreviation M := (ME error).

Definition ret {E A} (a : A) : ME E A := λ w, (inr a, w).
Definition fail {E A} (e : E) : ME E A := λ w, (inl e, w).
Definition bind {E A B} (m : ME E A) (k : A → ME E B) : ME E B :=
  λ w, match m w with
       | (inl e, w') => (inl e, w')
       | (inr a, w') => k a w'
       end.
Definition get {E} : ME E World := λ w, (inr w, w).
Definition modify {E} (f : World → World) : ME E unit := λ w, (inr tt, f w).
Definition lift {E A} (r : E + A) : ME E A := λ w, (r, w).
(** [if err != nil { return wrap(err) }]; a panic is not an error value and
    is not wrapped. *)
Definition wrapErr {A} (f : error → error) (m : M A) : M A :=
  λ w, match m w with
       | (inl e, w') =>
           (inl (match errKind e with errutil.Panic => e | _ => f e end), w')
       | r => r
       end.

(** [revokeCert] leaves early in two ways: [return resp, nil] and
    [return nil, err]. *)
Inductive early :=
| Return (resp : option logical.Response)
| Raise (err : error).

Definition try {A} (m : M A) : ME early A :=
  λ w, match m w with
       | (inl e, w') => (inl (Raise e), w')
       | (inr a, w') => (inr a, w')
       end.

Definition returning (m : ME early (option logical.Response))
    : M (option logical.Response) :=
  λ w, match m w with
       | (inl (Return resp), w') => (inr resp, w')
       | (inl (Raise err), w') => (inl err, w')
       | (inr resp, w') => (inr resp, w')
       end.

Declare Scope go_scope.
Delimit Scope go_scope with go.
Notation "x <- m ;; k" := (bind m (λ x, k))
  (at level 100, m at next level, right associativity) : go_scope.
Open Scope go_scope.

(** A [for _, x := range xs] whose body may return early with an error and
    threads the locals [s]. *)
Fixpoint forM {E A S} (body : S → A → ME E S) (xs : list A) (s : S)
    : ME E S :=
  match xs with
  | [] => ret s
  | x :: xs' => s' <- body s x ;; forM body xs' s'
  end.

(** ** Storage *)

Module Storage.

Definition Get (b : backend) (key : string) : M (option string) :=
  match getFault b key with
  | Some e => fail e
  | None => w <- get ;; ret (storage w !! key)
  end.

Definition Put (b : backend) (key value : string) : M unit :=
  match putFault b key with
  | Some e => fail e
  | None => modify (set_storage <[key := value]>)
  end.

Definition Delete (b : backend) (key : string) : M unit :=
  match deleteFault b key with
  | Some e => fail e
  | None => modify (set_storage (delete key))
  end.

Fixpoint stripPrefix (p s : string) : option string :=
  match p, s with
  | EmptyString, _ => Some s
  | String a p', String c s' =>
      if decide (a = c) then stripPrefix p' s' else None
  | String _ _, EmptyString => None
  end.

(** The keys below [prefix], relative to it (the layout under [revoked/]
    is flat). *)
Definition List `{Platform} (b : backend) (prefix : string) : M (list string) :=
  match listFault b prefix with
  | Some e => fail e
  | None =>
      w <- get ;;
      ret (omap (stripPrefix prefix) (rangeOrder (map_to_list (storage w)).*1))
  end.

End Storage.

Definition revokedPath : string := "revoked/".

(** [len(s) == 0] on a string *)
Definition empty (s : string) : bool := bool_decide (s = "").

(** [strings.ReplaceAll(strings.ToLower(serial), "-", ":")] *)
Definition colonSerialOf (serial : string) : string :=
  strings.ReplaceAll (strings.ToLower serial) "-"%char ":"%char.

Section Engine.
Context `{Platform}.

(** ** The CRL builder state *)

Definition _ignoreForceFlag : bool := true.
Definition _enforceForceFlag : bool := false.

Definition newCRLBuilder : crlBuilder :=
  {| forceRebuild := 0%Z; dirty := true; config := defaultCrlConfig |}.

Definition with_forceRebuild (v : Z) (cb : crlBuilder) : crlBuilder :=
  {| forceRebuild := v; dirty := dirty cb; config := config cb |}.
Definition with_dirty (d : bool) (cb : crlBuilder) : crlBuilder :=
  {| forceRebuild := forceRebuild cb; dirty := d; config := config cb |}.
Definition with_config (c : crlConfig) (cb : crlBuilder) : crlBuilder :=
  {| forceRebuild := forceRebuild cb; dirty := dirty cb; config := c |}.

(** [atomic.LoadUint32(&cb.forceRebuild)] *)
Definition LoadForceRebuild : M Z :=
  w <- get ;; ret (forceRebuild (builder w)).

(** [atomic.CompareAndSwapUint32(&cb.forceRebuild, old, new)] *)
Definition CompareAndSwapForceRebuild (old new : Z) : M bool :=
  w <- get ;;
  if bool_decide (forceRebuild (builder w) = old)
  then _ <- modify (set_builder (with_forceRebuild new)) ;; ret true
  else ret false.

Definition markConfigDirty : M unit :=
  modify (set_builder (with_dirty true)).

Definition reloadConfigIfRequired (b : backend) : M unit :=
  w <- get ;;
  if dirty (builder w) then
    (* under the write lock: the flag is read a second time *)
    w <- get ;;
    if negb (dirty (builder w)) then ret tt
    else
      config <- lift (getRevocationConfig b) ;;
      _ <- modify (set_builder (with_config (default defaultCrlConfig config))) ;;
      modify (set_builder (with_dirty false))
  else ret tt.

Definition getConfigWithUpdate (b : backend) : M crlConfig :=
  _ <- reloadConfigIfRequired b ;;
  w <- get ;;
  ret (config (builder w)).

(** Modelled from the spec: [getLocalCRLConfig] is declared outside this
    file.  The cluster-local index is a persisted singleton holding the
    three maps; when nothing was persisted yet the maps are empty. *)
Definition getLocalCRLConfig (b : backend) : M (option localCRLConfigEntry) :=
  match localCRLGetFault b with
  | Some e => fail e
  | None =>
      w <- get ;;
      ret (Some (default {| IssuerIDCRLMap := ∅; CRLNumberMap := ∅;
                            CRLExpirationMap := ∅ |} (localCRL w)))
  end.

(** Modelled from the spec: [setLocalCRLConfig] is declared outside this
    file; it persists the index. *)
Definition setLocalCRLConfig (b : backend) (c : localCRLConfigEntry) : M unit :=
  match localCRLSetFault b with
  | Some e => fail e
  | None => modify (set_localCRL (Some c))
  end.

Definition checkForAutoRebuild (b : backend) : M unit :=
  cfg <- getConfigWithUpdate b ;;
  flag <- LoadForceRebuild ;;
  if Disable cfg || negb (AutoRebuild cfg) || bool_decide (flag = 1%Z)
  then ret tt
  else
    crlConfig <- wrapErr (λ e, Errorf
        ("error checking for auto-rebuild status: unable to fetch cluster-local CRL configuration: "
           +:+ errMsg e))
      (getLocalCRLConfig b) ;;
    match crlConfig with
    | None => _ <- CompareAndSwapForceRebuild 0%Z 1%Z ;; ret tt
    | Some crlConfig =>
        if bool_decide (size (CRLExpirationMap crlConfig) = 0%nat)
        then _ <- CompareAndSwapForceRebuild 0%Z 1%Z ;; ret tt
        else
          let now := Now b in
          period <-
            match ParseDuration (AutoRebuildGracePeriod cfg) with
            | inr p => ret p
            | inl err =>
                match ParseDuration (AutoRebuildGracePeriod defaultCrlConfig) with
                | inr defaultPeriod => ret defaultPeriod
                | inl defaultErr => fail (Errorf
                    ("error checking for auto-rebuild status: unable to parse duration from both config's grace period and default grace period: "
                       +:+ errMsg err +:+ " / " +:+ errMsg defaultErr))
                end
            end ;;
          if existsb
               (λ value, time.IsZero value
                         (* [-1*period] is a product of int64
                            durations: it wraps at the least duration *)
                         || time.After now
                              (time.Add value (wrap_int64 (-1 * period))))
               (map_to_list (CRLExpirationMap crlConfig)).*2
          then _ <- CompareAndSwapForceRebuild 0%Z 1%Z ;; ret tt
          else ret tt
    end.

Definition requestRebuildIfActiveNode (b : backend) : M unit :=
  if ReplicationPerformanceStandby b || ReplicationDRSecondary b
  then ret tt
  else _ <- CompareAndSwapForceRebuild 0%Z 1%Z ;; ret tt.

(** ** Ranging over a map *)

(** The pairs of [m] in the order in which [range m] visits them. *)
Definition rangeMap {A} (m : gmap string A) : list (string * A) :=
  omap (λ k, pair k <$> m !! k) (rangeOrder (map_to_list m).*1).

(** ** Associating a revoked certificate with its issuer *)

Definition with_CertificateIssuer (i : string) (r : revocationInfo)
    : revocationInfo :=
  {| CertificateBytes := CertificateBytes r;
     RevocationTime := RevocationTime r;
     RevocationTimeUTC := RevocationTimeUTC r;
     CertificateIssuer := i |}.

(** [bytes.Equal(revokedCert.RawIssuer, issuerCert.RawSubject)] and a
    signature that verifies *)
Definition issuedBy (revokedCert issuerCert : x509.Certificate) : bool :=
  bool_decide (x509.RawIssuer revokedCert = x509.RawSubject issuerCert)
  && CheckSignatureFrom revokedCert issuerCert.

(** The function mutates [*revInfo] and returns whether it did; here it
    returns the updated entry with the flag. *)
Definition associateRevokedCertWithIsssuer (revInfo : revocationInfo)
    (revokedCert : x509.Certificate)
    (issuerIDCertMap : gmap string x509.Certificate)
    : revocationInfo * bool :=
  match find (λ p, issuedBy revokedCert p.2) (rangeMap issuerIDCertMap) with
  | Some (issuerId, _) => (with_CertificateIssuer issuerId revInfo, true)
  | None => (revInfo, false)
  end.

(** ** Building one CRL *)

Definition buildCRL (b : backend) (crlInfo : crlConfig) (forceNew : bool)
    (thisIssuerId : string) (revoked : list pkix.RevokedCertificate)
    (identifier : string) (crlNumber : Z) : M time.Time :=
  crlLifetime <-
    match ParseDuration (Expiry crlInfo) with
    | inl _ => fail (InternalError
                 ("error parsing CRL duration of " +:+ Expiry crlInfo))
    | inr d => ret d
    end ;;
  if Disable crlInfo && negb forceNew then
    (* the zero time as a sentinel *)
    ret time.zero
  else
    (* [goto WRITE] leaves [revokedCerts] nil when the CRL is disabled *)
    let revokedCerts := if Disable crlInfo then [] else revoked in
    signingBundle <-
      match fetchCAInfoByIssuerId b thisIssuerId with
      | inl caErr =>
          if isUserError caErr
          then fail (UserError
                 ("could not fetch the CA certificate: " +:+ errMsg caErr))
          else fail (InternalError
                 ("error fetching CA certificate: " +:+ errMsg caErr))
      | inr sb => ret sb
      end ;;
    let now := Now b in
    let nextUpdate := time.Add now crlLifetime in
    let revocationListTemplate :=
      {| RevokedCertificates := revokedCerts;
         Number := crlNumber;
         ThisUpdate := now;
         NextUpdate := nextUpdate;
         SignatureAlgorithm := RevocationSigAlg signingBundle |} in
    crlBytes <-
      match CreateRevocationList revocationListTemplate
              (caCertificate signingBundle) (caPrivateKey signingBundle) with
      | inl err => fail (InternalError
                     ("error creating new CRL: " +:+ errMsg err))
      | inr bs => ret bs
      end ;;
    let writePath :=
      if bool_decide (thisIssuerId = legacyBundleShimID)
      then legacyCRLPath
      else "crls/" +:+ identifier in
    _ <- wrapErr (λ err, InternalError ("error storing CRL: " +:+ errMsg err))
           (Storage.Put b writePath crlBytes) ;;
    ret nextUpdate.

(** ** Loading the revoked certificates *)

(** [m[k] = append(m[k], x)] *)
Definition appendAt {A} (k : string) (x : A) (m : gmap string (list A))
    : gmap string (list A) :=
  <[k := default [] (m !! k) ++ [x]]> m.

Definition issuerSerialCertMapOf
    (issuerIDCertMap : gmap string x509.Certificate)
    : gmap string (list x509.Certificate) :=
  foldl (λ m p, appendAt (serialFromCert p.2) p.2 m) ∅
        (rangeMap issuerIDCertMap).

(** The revoked certificate is, byte for byte, the certificate of an
    issuer with the same serial number. *)
Definition revokedCertIsIssuer
    (issuerSerialCertMap : gmap string (list x509.Certificate))
    (revokedCert : x509.Certificate) : bool :=
  match issuerSerialCertMap !! serialFromCert revokedCert with
  | Some candidates =>
      existsb (λ candidate,
                 bool_decide (x509.Raw candidate = x509.Raw revokedCert))
              candidates
  | None => false
  end.

Definition newRevCertOf (revInfo : revocationInfo)
    (revokedCert : x509.Certificate) : pkix.RevokedCertificate :=
  {| pkix.SerialNumber := x509.SerialNumber revokedCert;
     pkix.RevocationTime :=
       if negb (time.IsZero (RevocationTimeUTC revInfo))
       then RevocationTimeUTC revInfo
       else time.UTC (time.FromUnix (RevocationTime revInfo)) |}.

(** The locals threaded through the loop over the revoked serials. *)
Definition revokedAcc : Type :=
  list pkix.RevokedCertificate * gmap string (list pkix.RevokedCertificate).

Definition revokedEntryStep (b : backend)
    (issuerIDCertMap : gmap string x509.Certificate)
    (issuerSerialCertMap : gmap string (list x509.Certificate))
    (acc : revokedAcc) (serial : string) : M revokedAcc :=
  let '(unassignedCerts, revokedCertsMap) := acc in
  revokedEntry <-
    wrapErr (λ err, InternalError
        ("unable to fetch revoked cert with serial " +:+ serial +:+ ": "
           +:+ errMsg err))
      (Storage.Get b (revokedPath +:+ serial)) ;;
  match revokedEntry with
  | None => fail (InternalError
      ("revoked certificate entry for serial " +:+ serial +:+ " is nil"))
  | Some value =>
      if empty value then
        fail (InternalError
          "found revoked serial but actual certificate is empty")
      else
        revInfo <- wrapErr (λ err, InternalError
            ("error decoding revocation entry for serial " +:+ serial
               +:+ ": " +:+ errMsg err))
          (lift (DecodeJSON value)) ;;
        revokedCert <- wrapErr (λ err, InternalError
            ("unable to parse stored revoked certificate with serial "
               +:+ serial +:+ ": " +:+ errMsg err))
          (lift (ParseCertificate (CertificateBytes revInfo))) ;;
        if revokedCertIsIssuer issuerSerialCertMap revokedCert then
          (* continue *)
          ret acc
        else
          let newRevCert := newRevCertOf revInfo revokedCert in
          if negb (empty (CertificateIssuer revInfo))
             && bool_decide (is_Some (issuerIDCertMap !! CertificateIssuer revInfo))
          then
            ret (unassignedCerts,
                 appendAt (CertificateIssuer revInfo) newRevCert revokedCertsMap)
          else
            let '(revInfo', foundParent) :=
              associateRevokedCertWithIsssuer revInfo revokedCert
                issuerIDCertMap in
            if negb foundParent then
              ret (unassignedCerts ++ [newRevCert], revokedCertsMap)
            else
              let revokedCertsMap' :=
                appendAt (CertificateIssuer revInfo') newRevCert
                  revokedCertsMap in
              value' <- wrapErr (λ _, Errorf
                  ("error creating revocation entry for existing cert: "
                     +:+ serial))
                (lift (StorageEntryJSON revInfo')) ;;
              _ <- wrapErr (λ _, Errorf
                  ("error updating revoked certificate at existing location: "
                     +:+ serial))
                (Storage.Put b (revokedPath +:+ serial) value') ;;
              ret (unassignedCerts, revokedCertsMap')
  end.

Definition getRevokedCertEntries (b : backend)
    (issuerIDCertMap : gmap string x509.Certificate) : M revokedAcc :=
  revokedSerials <- wrapErr (λ err, InternalError
      ("error fetching list of revoked certs: " +:+ errMsg err))
    (Storage.List b revokedPath) ;;
  let issuerSerialCertMap := issuerSerialCertMapOf issuerIDCertMap in
  forM (revokedEntryStep b issuerIDCertMap issuerSerialCertMap)
       revokedSerials ([], ∅).

(** ** Revoked issuers *)

Definition augmentOther (issuerIDCertMap : gmap string x509.Certificate)
    (ourIssuerID : string) (ourCert : x509.Certificate)
    (ourRevCert : pkix.RevokedCertificate)
    (revokedCertsMap : gmap string (list pkix.RevokedCertificate))
    (otherIssuerID : string)
    : M (gmap string (list pkix.RevokedCertificate)) :=
  if bool_decide (otherIssuerID = ourIssuerID) then ret revokedCertsMap
  else
    match issuerIDCertMap !! otherIssuerID with
    | None => fail nilDeref
    | Some otherCert =>
        if CheckSignatureFrom ourCert otherCert
        then ret (appendAt otherIssuerID ourRevCert revokedCertsMap)
        else ret revokedCertsMap
    end.

Definition augmentWithRevokedIssuers
    (issuerIDEntryMap : gmap string issuerEntry)
    (issuerIDCertMap : gmap string x509.Certificate)
    (revokedCertsMap : gmap string (list pkix.RevokedCertificate))
    : M (gmap string (list pkix.RevokedCertificate)) :=
  forM (λ revokedCertsMap p,
          let '(ourIssuerID, ourIssuer) := p in
          if negb (Revoked ourIssuer) then ret revokedCertsMap
          else
            match issuerIDCertMap !! ourIssuerID with
            | None => fail nilDeref
            | Some ourCert =>
                let ourRevCert :=
                  {| pkix.SerialNumber := x509.SerialNumber ourCert;
                     pkix.RevocationTime := issuerRevocationTimeUTC ourIssuer |} in
                forM (augmentOther issuerIDCertMap ourIssuerID ourCert ourRevCert)
                     (rangeMap issuerIDEntryMap).*1 revokedCertsMap
            end)
       (rangeMap issuerIDEntryMap) revokedCertsMap.

(** ** Building all CRLs *)

Definition with_IssuerIDCRLMap (m : gmap string string)
    (c : localCRLConfigEntry) : localCRLConfigEntry :=
  {| IssuerIDCRLMap := m; CRLNumberMap := CRLNumberMap c;
     CRLExpirationMap := CRLExpirationMap c |}.
Definition with_CRLNumberMap (m : gmap string Z)
    (c : localCRLConfigEntry) : localCRLConfigEntry :=
  {| IssuerIDCRLMap := IssuerIDCRLMap c; CRLNumberMap := m;
     CRLExpirationMap := CRLExpirationMap c |}.
Definition with_CRLExpirationMap (m : gmap string time.Time)
    (c : localCRLConfigEntry) : localCRLConfigEntry :=
  {| IssuerIDCRLMap := IssuerIDCRLMap c; CRLNumberMap := CRLNumberMap c;
     CRLExpirationMap := m |}.

(** [issuerIDEntryMap], [issuerIDCertMap] and [keySubjectIssuersMap] *)
Definition issuerMaps : Type :=
  gmap string issuerEntry * gmap string x509.Certificate
  * gmap string (gmap string (list string)).

(** The body of the loop over [issuers]. *)
Definition collectIssuer (b : backend) (acc : issuerMaps) (issuer : string)
    : M issuerMaps :=
  let '(issuerIDEntryMap, issuerIDCertMap, keySubjectIssuersMap) := acc in
  fetched <- wrapErr (λ err, Errorf
      ("error building CRLs: unable to fetch specified issuer (" +:+ issuer
         +:+ "): " +:+ errMsg err))
    (lift (fetchCertBundleByIssuerId b issuer)) ;;
  let thisEntry := fetched.1 in
  if empty (KeyID thisEntry) then ret acc
  else if negb (usageCRLSigning thisEntry) then ret acc
  else
    thisCert <- wrapErr (λ err, Errorf
        ("error building CRLs: unable to parse issuer (" +:+ issuer
           +:+ ")'s certificate: " +:+ errMsg err))
      (lift (GetCertificate thisEntry)) ;;
    let subject := x509.RawSubject thisCert in
    let subjects := default ∅ (keySubjectIssuersMap !! KeyID thisEntry) in
    ret (<[issuer := thisEntry]> issuerIDEntryMap,
         <[issuer := thisCert]> issuerIDCertMap,
         <[KeyID thisEntry := appendAt subject issuer subjects]>
           keySubjectIssuersMap).

(** [revokedCerts], [representative], [crlIdentifier], [crlIdIssuer] *)
Definition classAcc : Type :=
  list pkix.RevokedCertificate * string * string * string.

(** The body of the loop over the members of one class. *)
Definition memberStep (config : issuerConfigEntry)
    (unassignedCerts : list pkix.RevokedCertificate)
    (revokedCertsMap : gmap string (list pkix.RevokedCertificate))
    (crlConfig : localCRLConfigEntry)
    (acc : classAcc) (issuerId : string) : M classAcc :=
  let '(revokedCerts, representative, crlIdentifier, crlIdIssuer) := acc in
  (* appending an empty slice changes nothing: the guards [len(...) > 0]
     around the two [append]s are not repeated *)
  let '(revokedCerts, representative) :=
    if bool_decide (issuerId = DefaultIssuerId config)
    then (revokedCerts ++ unassignedCerts, issuerId)
    else (revokedCerts, representative) in
  let revokedCerts :=
    match revokedCertsMap !! issuerId with
    | Some thisRevoked => revokedCerts ++ thisRevoked
    | None => revokedCerts
    end in
  match IssuerIDCRLMap crlConfig !! issuerId with
  | Some thisCRLId =>
      if negb (empty thisCRLId) then
        if negb (empty crlIdentifier)
           && negb (bool_decide (crlIdentifier = thisCRLId))
        then fail (Errorf
          ("error building CRLs: two issuers with same keys/subjects ("
             +:+ issuerId +:+ " vs " +:+ crlIdIssuer
             +:+ ") have different internal CRL IDs: " +:+ thisCRLId
             +:+ " vs " +:+ crlIdentifier))
        else ret (revokedCerts, representative, thisCRLId, issuerId)
      else ret (revokedCerts, representative, crlIdentifier, crlIdIssuer)
  | None => ret (revokedCerts, representative, crlIdentifier, crlIdIssuer)
  end.

(** The body of the loop over the (keyID, subject) classes. *)
Definition buildClass (b : backend) (globalCRLConfig : crlConfig)
    (forceNew : bool) (config : issuerConfigEntry)
    (unassignedCerts : list pkix.RevokedCertificate)
    (revokedCertsMap : gmap string (list pkix.RevokedCertificate))
    (crlConfig : localCRLConfigEntry) (issuersSet : list string)
    : M localCRLConfigEntry :=
  match issuersSet with
  | [] => ret crlConfig
  | first :: _ =>
      acc <- forM (memberStep config unassignedCerts revokedCertsMap crlConfig)
               issuersSet ([], first, "", "") ;;
      let '(revokedCerts, representative, crlIdentifier, _) := acc in
      minted <-
        (if empty crlIdentifier then
           w <- get ;;
           _ <- modify (set_drawn (S (drawn w))) ;;
           let crlIdentifier := genCRLId (drawn w) in
           ret (crlIdentifier,
                with_CRLNumberMap
                  (<[crlIdentifier := 1%Z]> (CRLNumberMap crlConfig)) crlConfig)
         else ret (crlIdentifier, crlConfig)) ;;
      let '(crlIdentifier, crlConfig) := minted in
      let crlConfig :=
        with_IssuerIDCRLMap
          (foldl (λ m issuerId, <[issuerId := crlIdentifier]> m)
                 (IssuerIDCRLMap crlConfig) issuersSet) crlConfig in
      let crlNumber := default 0%Z (CRLNumberMap crlConfig !! crlIdentifier) in
      let crlConfig :=
        with_CRLNumberMap
          (<[crlIdentifier := wrap_int64 (crlNumber + 1)]>
             (CRLNumberMap crlConfig)) crlConfig in
      nextUpdate <- wrapErr (λ err, Errorf
          ("error building CRLs: unable to build CRL for issuer ("
             +:+ representative +:+ "): " +:+ errMsg err))
        (buildCRL b globalCRLConfig forceNew representative revokedCerts
           crlIdentifier crlNumber) ;;
      ret (with_CRLExpirationMap
             (<[crlIdentifier := nextUpdate]> (CRLExpirationMap crlConfig))
             crlConfig)
  end.

Definition buildCRLs (b : backend) (forceNew : bool) : M unit :=
  globalCRLConfig <- wrapErr (λ err, Errorf
      ("error building CRL: while updating config: " +:+ errMsg err))
    (getConfigWithUpdate b) ;;
  if Disable globalCRLConfig && negb forceNew then ret tt
  else
    listed <-
      (if negb (useLegacyBundleCaStorage b) then
         issuers <- wrapErr (λ err, Errorf
             ("error building CRL: while listing issuers: " +:+ errMsg err))
           (lift (listIssuers b)) ;;
         ret (issuers, false)
       else ret ([legacyBundleShimID], true)) ;;
    let '(issuers, wasLegacy) := listed in
    config <- wrapErr (λ err, Errorf
        ("error building CRLs: while getting the default config: "
           +:+ errMsg err))
      (lift (getIssuersConfig b)) ;;
    maps <- forM (collectIssuer b) issuers (∅, ∅, ∅) ;;
    let '(issuerIDEntryMap, issuerIDCertMap, keySubjectIssuersMap) := maps in
    crlConfig <- wrapErr (λ err, Errorf
        ("error building CRLs: unable to fetch cluster-local CRL configuration: "
           +:+ errMsg err))
      (getLocalCRLConfig b) ;;
    revoked <- wrapErr (λ err, Errorf
        ("error building CRLs: unable to get revoked certificate entries: "
           +:+ errMsg err))
      (getRevokedCertEntries b issuerIDCertMap) ;;
    let '(unassignedCerts, revokedCertsMap) := revoked in
    revokedCertsMap <- wrapErr (λ err, Errorf
        ("error building CRLs: unable to parse revoked issuers: "
           +:+ errMsg err))
      (augmentWithRevokedIssuers issuerIDEntryMap issuerIDCertMap
         revokedCertsMap) ;;
    match crlConfig with
    | None => fail nilDeref
    | Some crlConfig =>
        crlConfig <-
          forM (λ crlConfig subjectIssuersMap,
                  forM (λ crlConfig issuersSet,
                          buildClass b globalCRLConfig forceNew config
                            unassignedCerts revokedCertsMap crlConfig
                            issuersSet.2)
                       (rangeMap subjectIssuersMap.2) crlConfig)
               (rangeMap keySubjectIssuersMap) crlConfig ;;
        (* issuers that are gone lose their entry *)
        let crlConfig :=
          with_IssuerIDCRLMap
            (filter (λ p, p.1 ∈ issuers) (IssuerIDCRLMap crlConfig))
            crlConfig in
        _ <- forM (λ _ crlId,
                     if bool_decide
                          (crlId ∈ (map_to_list (IssuerIDCRLMap crlConfig)).*2)
                     then ret tt
                     else wrapErr (λ err, Errorf
                         ("error building CRLs: unable to clean up deleted issuers' CRL: "
                            +:+ errMsg err))
                       (Storage.Delete b ("crls/" +:+ crlId)))
                  (rangeMap (CRLNumberMap crlConfig)).*1 tt ;;
        if negb wasLegacy then
          wrapErr (λ err, Errorf
              ("error building CRLs: unable to persist updated cluster-local CRL config: "
                 +:+ errMsg err))
            (setLocalCRLConfig b crlConfig)
        else ret tt
    end.

(** ** Rebuilding *)

Definition _doRebuild (b : backend) (forceNew ignoreForceFlag : bool)
    : M unit :=
  (* under [cb.m] *)
  forceBuildFlag <- LoadForceRebuild ;;
  if bool_decide (forceBuildFlag = 1%Z) || ignoreForceFlag then
    _ <- CompareAndSwapForceRebuild 1%Z 0%Z ;;
    let myForceNew := bool_decide (forceBuildFlag = 1%Z) || forceNew in
    buildCRLs b myForceNew
  else ret tt.

Definition rebuildIfForced (b : backend) : M unit :=
  flag <- LoadForceRebuild ;;
  if bool_decide (flag = 1%Z)
  then _doRebuild b true _enforceForceFlag
  else ret tt.

Definition rebuild (b : backend) (forceNew : bool) : M unit :=
  _doRebuild b forceNew _ignoreForceFlag.

(** ** Revoking a certificate *)

(** Modelled from the spec: [fetchCertBySerial] is declared outside this
    file.  A lookup canonicalizes the serial before it accesses the storage:
    the entry is read at [prefix + normalizeSerial(serial)]. *)
Definition fetchCertBySerial (b : backend) (prefix serial : string)
    : M (option string) :=
  Storage.Get b (prefix +:+ normalizeSerial serial).

(** The body of the loop that loads the certificate of every issuer and
    refuses the serial of an issuer. *)
Definition issuerCertStep (b : backend) (serial : string)
    (issuerIDCertMap : gmap string x509.Certificate) (issuer : string)
    : ME early (gmap string x509.Certificate) :=
  match fetchCertBundleByIssuerId b issuer with
  | inl caErr =>
      if isUserError caErr then
        fail (Return (Some (logical.ErrorResponse
          ("could not fetch the CA certificate for issuer id " +:+ issuer
             +:+ ": " +:+ errMsg caErr))))
      else
        fail (Raise (Errorf
          ("error fetching CA certificate for issuer id " +:+ issuer
             +:+ ": " +:+ errMsg caErr)))
  | inr (_, None) =>
      fail (Raise (Errorf
        ("faulty reference: " +:+ issuer +:+ " - CA info not found")))
  | inr (_, Some bundle) =>
      match parseCABundle bundle with
      | inl err => fail (Raise (InternalError (errMsg err)))
      | inr None =>
          fail (Raise (InternalError
            "stored CA information not able to be parsed"))
      | inr (Some certificate) =>
          let colonSerial := colonSerialOf serial in
          if bool_decide (colonSerial = serialFromCert certificate) then
            fail (Return (Some (logical.ErrorResponse
              ("adding issuer (id: " +:+ issuer
                 +:+ ") to its own CRL is not allowed"))))
          else ret (<[issuer := certificate]> issuerIDCertMap)
      end
  end.

(** [switch err.(type)] after [fetchCertBySerial]: a user error becomes a
    response, any other error is returned. *)
Definition fetchOrLeave (b : backend) (prefix serial : string)
    : ME early (option string) :=
  λ w, match fetchCertBySerial b prefix serial w with
       | (inl err, w') =>
           if isUserError err
           then (inl (Return (Some (logical.ErrorResponse (errMsg err)))), w')
           else (inl (Raise err), w')
       | (inr entry, w') => (inr entry, w')
       end.

Definition zeroRevocationInfo : revocationInfo :=
  {| CertificateBytes := ""; RevocationTime := 0%Z;
     RevocationTimeUTC := time.zero; CertificateIssuer := "" |}.

(** Lines 407-468 of [revokeCert], the block under [if !alreadyRevoked]:
    load and check the certificate, then write its revocation entry. *)
Definition revokeNew (b : backend) (serial : string) (fromLease : bool)
    (issuerIDCertMap : gmap string x509.Certificate)
    : ME early revocationInfo :=
  certEntry <- fetchOrLeave b "certs/" serial ;;
  match certEntry with
  | None =>
      if fromLease then fail (Return None)
      else
        fail (Return (Some (logical.ErrorResponse
          ("certificate with serial " +:+ serial +:+ " not found"))))
  | Some certValue =>
      match ParseCertificate certValue with
      | inl err =>
          fail (Raise (Errorf ("error parsing certificate: " +:+ errMsg err)))
      | inr cert =>
          (* [cert == nil] cannot happen here: a parsed certificate is a
             value *)
          if time.Before (x509.NotAfter cert)
               (time.Add (Now b) (2 * time.Second)%Z)
          then
            fail (Return (Some (logical.Warning
              ["certificate with serial " +:+ serial
                 +:+ " already expired; refusing to add to CRL"])))
          else if x509.IsCA cert && fromLease then fail (Return None)
          else
            let currTime := Now b in
            let revInfo :=
              {| CertificateBytes := certValue;
                 RevocationTime := time.Unix currTime;
                 RevocationTimeUTC := time.UTC currTime;
                 CertificateIssuer := CertificateIssuer zeroRevocationInfo |} in
            let revInfo :=
              (associateRevokedCertWithIsssuer revInfo cert issuerIDCertMap).1 in
            match StorageEntryJSON revInfo with
            | inl _ => fail (Raise (Errorf "error creating revocation entry"))
            | inr value =>
                _ <- try (wrapErr (λ _, Errorf
                       "error saving revoked certificate to new location")
                       (Storage.Put b (revokedPath +:+ normalizeSerial serial)
                          value)) ;;
                ret revInfo
            end
      end
  end.

(** Lines 470-498 of [revokeCert]: rebuild unless the CRL is rebuilt
    automatically, then answer with the revocation time. *)
Definition finishRevoke (b : backend) (revInfo : revocationInfo)
    : ME early (option logical.Response) :=
  config <- try (wrapErr (λ err, Errorf
      ("error building CRL: while updating config: " +:+ errMsg err))
    (getConfigWithUpdate b)) ;;
  _ <- (if negb (AutoRebuild config) then
          λ w, match rebuild b false w with
               | (inl crlErr, w') =>
                   if isUserError crlErr then
                     (inl (Return (Some (logical.ErrorResponse
                        ("Error during CRL building: " +:+ errMsg crlErr)))),
                      w')
                   else
                     (inl (Raise (Errorf
                        ("error encountered during CRL building: "
                           +:+ errMsg crlErr))), w')
               | (inr _, w') => (inr tt, w')
               end
        else ret tt) ;;
  ret (Some (logical.Data (RevocationTime revInfo)
         (if negb (time.IsZero (RevocationTimeUTC revInfo))
          then Some (FormatRFC3339Nano (RevocationTimeUTC revInfo))
          else None))).

(** The issuers whose certificates [revokeCert] loads. *)
Definition revokeIssuers (b : backend) : ME early (list string) :=
  if negb (useLegacyBundleCaStorage b) then
    match listIssuers b with
    | inl err =>
        fail (Return (Some (logical.ErrorResponse
          ("could not fetch issuers list: " +:+ errMsg err))))
    | inr issuers => ret issuers
    end
  else ret [legacyBundleShimID].

Definition revokeCert (b : backend) (serial : string) (fromLease : bool)
    : M (option logical.Response) :=
  returning (
    if Tainted b then fail (Return None)
    else
      issuers <- revokeIssuers b ;;
      issuerIDCertMap <- forM (issuerCertStep b serial) issuers ∅ ;;
      revEntry <- fetchOrLeave b revokedPath serial ;;
      revInfo <-
        match revEntry with
        | Some value =>
            (* alreadyRevoked = true *)
            match DecodeJSON value with
            | inl _ =>
                fail (Raise (Errorf "error decoding existing revocation info"))
            | inr revInfo => ret revInfo
            end
        | None => revokeNew b serial fromLease issuerIDCertMap
        end ;;
      finishRevoke b revInfo).

End Engine.

(** ** A small concrete platform

    Certificates are looked up in a table by their encoding, a signature
    verifies when the issuer name of the child is the subject name of the
    parent, and a CRL is rendered as text.  It serves to run the functions
    above on concrete mounts. *)

Module Demo.

Definition hour : time.Duration := (3600 * time.Second)%Z.
Definition now : time.Time := (time.unixEpoch + 1700000000 * time.Second)%Z.

Definition mkCert (raw subject issuer : string) (serial : Z)
    (notAfter : time.Time) (ca : bool) : x509.Certificate :=
  {| x509.Raw := raw; x509.RawSubject := subject; x509.RawIssuer := issuer;
     x509.SerialNumber := serial; x509.NotAfter := notAfter; x509.IsCA := ca |}.

Definition certI1 := mkCert "der-I1" "CN=A" "CN=A" 1 (now + 8760 * hour)%Z true.
Definition certI2 := mkCert "der-I2" "CN=A" "CN=A" 2 (now + 8760 * hour)%Z true.
Definition certI3 := mkCert "der-I3" "CN=B" "CN=B" 6699 (now + 8760 * hour)%Z true.
Definition leaf1 := mkCert "der-leaf1" "CN=leaf1" "CN=A" 17 (now + 24 * hour)%Z false.
Definition leaf2 := mkCert "der-leaf2" "CN=leaf2" "CN=A" 18 (now + time.Second)%Z false.
Definition leaf3 := mkCert "der-leaf3" "CN=leaf3" "CN=B" 19 (now + 24 * hour)%Z false.

Definition table : list x509.Certificate :=
  [certI1; certI2; certI3; leaf1; leaf2; leaf3].

Definition parse (der : string) : result x509.Certificate :=
  match find (λ c, bool_decide (x509.Raw c = der)) table with
  | Some c => inr c
  | None => inl (Errorf "x509: malformed certificate")
  end.

Definition serialText (c : x509.Certificate) : string :=
  if bool_decide (x509.SerialNumber c = 6699%Z) then "1a:2b"
  else pretty (x509.SerialNumber c).

Definition render (template : RevocationList) : string :=
  "CRL number=" +:+ pretty (Number template) +:+ " revoked=["
  +:+ foldr (λ rc acc, pretty (pkix.SerialNumber rc) +:+ ";" +:+ acc) "]"
        (RevokedCertificates template).

Definition sign (template : RevocationList) (issuer : x509.Certificate)
    (key : string) : result string :=
  if empty key then inl (Errorf "x509: private key missing")
  else inr (render template).

Fixpoint hasBar (s : string) : bool :=
  match s with
  | EmptyString => false
  | String c r => bool_decide (c = "|"%char) || hasBar r
  end.

Fixpoint splitBar (s : string) : option (string * string) :=
  match s with
  | EmptyString => None
  | String c r =>
      if bool_decide (c = "|"%char) then Some (EmptyString, r)
      else match splitBar r with
           | Some (l, r') => Some (String c l, r')
           | None => None
           end
  end.

(** Entries are written as [bytes|issuer]; the two time stamps are those of
    the fixed clock. *)
Definition encode (r : revocationInfo) : result string :=
  if hasBar (CertificateBytes r) || hasBar (CertificateIssuer r)
     || negb (bool_decide (RevocationTime r = time.Unix now))
     || negb (bool_decide (RevocationTimeUTC r = now))
  then inl (Errorf "json: unsupported value")
  else inr (CertificateBytes r +:+ "|" +:+ CertificateIssuer r).

Definition decode (v : string) : result revocationInfo :=
  match splitBar v with
  | Some (bytes, issuer) =>
      if hasBar issuer then inl (Errorf "json: invalid character")
      else inr {| CertificateBytes := bytes; RevocationTime := time.Unix now;
                  RevocationTimeUTC := now; CertificateIssuer := issuer |}
  | None => inl (Errorf "json: unexpected end of input")
  end.

Definition duration (s : string) : result time.Duration :=
  if bool_decide (s = "72h") then inr (72 * hour)%Z
  else if bool_decide (s = "12h") then inr (12 * hour)%Z
  else inl (Errorf "time: invalid duration").

#[export] Instance platform : Platform := {|
  ParseCertificate := parse;
  CheckSignatureFrom := λ child parent,
    bool_decide (x509.RawIssuer child = x509.RawSubject parent);
  CreateRevocationList := sign;
  ParseDuration := duration;
  FormatRFC3339Nano := λ t, pretty t;
  StorageEntryJSON := encode;
  DecodeJSON := decode;
  serialFromCert := serialText;
  normalizeSerial := colonSerialOf;
  GetCertificate := λ e, parse (issuerCertificate e);
  parseCABundle := λ bundle,
    inr (match parse bundle with inr c => Some c | inl _ => None end);
  genCRLId := λ n, "crl-" +:+ pretty n;
  legacyBundleShimID := "legacy-entry-shim-id";
  legacyCRLPath := "crl";
  defaultCrlConfig :=
    {| Expiry := "72h"; Disable := false; AutoRebuild := false;
       AutoRebuildGracePeriod := "12h" |};
  rangeOrder := λ l, l
|}.

(** A mount with three issuers: [I1] and [I2] share a key and a subject,
    [I3] stands alone; [I1] is the default issuer. *)

Definition entry (key pem : string) : issuerEntry :=
  {| KeyID := key; issuerCertificate := pem; Revoked := false;
     issuerRevocationTimeUTC := time.zero; usageCRLSigning := true |}.

Definition bundles (keys : string → string) (i : string)
    : result (issuerEntry * option string) :=
  if bool_decide (i = "I1") then inr (entry "K1" "der-I1", Some "der-I1")
  else if bool_decide (i = "I2") then inr (entry "K1" "der-I2", Some "der-I2")
  else if bool_decide (i = "I3") then inr (entry "K3" "der-I3", Some "der-I3")
  else inl (UserError ("unable to find issuer " +:+ i)).

Definition caInfo (keys : string → string) (i : string) : result CAInfoBundle :=
  if bool_decide (i = "I1") then
    inr {| caCertificate := certI1; caPrivateKey := keys i;
           RevocationSigAlg := 4 |}
  else if bool_decide (i = "I2") then
    inr {| caCertificate := certI2; caPrivateKey := keys i;
           RevocationSigAlg := 4 |}
  else if bool_decide (i = "I3") then
    inr {| caCertificate := certI3; caPrivateKey := keys i;
           RevocationSigAlg := 4 |}
  else inl (UserError ("unable to find issuer " +:+ i)).

Definition mountWith (issuers : list string) (keys : string → string)
    (stored : option crlConfig) : backend := {|
  Tainted := false;
  useLegacyBundleCaStorage := false;
  ReplicationPerformanceStandby := false;
  ReplicationDRSecondary := false;
  listIssuers := inr issuers;
  fetchCertBundleByIssuerId := bundles keys;
  getIssuersConfig := inr {| DefaultIssuerId := "I1" |};
  fetchCAInfoByIssuerId := caInfo keys;
  getRevocationConfig := inr stored;
  Now := now;
  getFault := λ _, None;
  putFault := λ _, None;
  deleteFault := λ _, None;
  listFault := λ _, None;
  localCRLGetFault := None;
  localCRLSetFault := None
|}.

Definition allKeys (i : string) : string := "key-" +:+ i.

Definition mount : backend := mountWith ["I1"; "I2"; "I3"] allKeys None.

Definition disabledConfig : crlConfig :=
  {| Expiry := "72h"; Disable := true; AutoRebuild := false;
     AutoRebuildGracePeriod := "12h" |}.

Definition disabledMount : backend :=
  mountWith ["I1"; "I2"; "I3"] allKeys (Some disabledConfig).

(** Issued certificates [11] (valid for a day), [12] (expiring within a
    second) and [13]; nothing revoked, no CRL built yet. *)
Definition world0 : World := {|
  storage := {[ "certs/11" := "der-leaf1"; "certs/12" := "der-leaf2";
                "certs/13" := "der-leaf3" ]};
  localCRL := None;
  builder := newCRLBuilder;
  drawn := 0
|}.

Definition forced (w : World) : World := set_builder (with_forceRebuild 1) w.

(** The index as a build left it when [I1] was the only issuer of its
    class: [I1] has a CRL, [I2] (added since) has none. *)
Definition indexI1 : localCRLConfigEntry :=
  {| IssuerIDCRLMap := {[ "I1" := "crl-0" ]};
     CRLNumberMap := {[ "crl-0" := 5%Z ]};
     CRLExpirationMap := {[ "crl-0" := (now + 72 * hour)%Z ]} |}.

Definition worldI1 : World := set_localCRL (Some indexI1) world0.

(** A mount whose CRLs are rebuilt by the scheduler only. *)
Definition autoConfig : crlConfig :=
  {| Expiry := "72h"; Disable := false; AutoRebuild := true;
     AutoRebuildGracePeriod := "12h" |}.

Definition autoMount : backend :=
  mountWith ["I1"; "I2"; "I3"] allKeys (Some autoConfig).

(** Certificate [11] was revoked when no issuer of it was known: its entry
    carries no issuer id. *)
Definition worldUnassociated : World :=
  set_storage <["revoked/11" := "der-leaf1|"]> world0.

(** A mount with the single issuer [I1], rebuilt by the scheduler, and the
    same mount while the write of the cluster-local index fails. *)
Definition soloMount : backend := mountWith ["I1"] allKeys (Some autoConfig).

Definition failingPersist (b : backend) : backend := {|
  Tainted := Tainted b;
  useLegacyBundleCaStorage := useLegacyBundleCaStorage b;
  ReplicationPerformanceStandby := ReplicationPerformanceStandby b;
  ReplicationDRSecondary := ReplicationDRSecondary b;
  listIssuers := listIssuers b;
  fetchCertBundleByIssuerId := fetchCertBundleByIssuerId b;
  getIssuersConfig := getIssuersConfig b;
  fetchCAInfoByIssuerId := fetchCAInfoByIssuerId b;
  getRevocationConfig := getRevocationConfig b;
  Now := Now b;
  getFault := getFault b;
  putFault := putFault b;
  deleteFault := deleteFault b;
  listFault := listFault b;
  localCRLGetFault := localCRLGetFault b;
  localCRLSetFault := Some (Errorf "context canceled")
|}.

Definition entryOf (bytes issuer : string) : revocationInfo :=
  {| CertificateBytes := bytes; RevocationTime := time.Unix now;
     RevocationTimeUTC := now; CertificateIssuer := issuer |}.

End Demo.

(** ** Frames

    [stable R m]: whatever [m] does and however it ends, the world it leaves
    is related by [R] to the world it started from. *)

Definition stable {E A} (R : World → World → Prop) (m : ME E A) : Prop :=
  ∀ w, R w (m w).2.

(** The force-rebuild flag is one of the two values of the CAS'd flag. *)
Definition flagOK (w : World) : Prop :=
  forceRebuild (builder w) = 0%Z ∨ forceRebuild (builder w) = 1%Z.

(** Nothing persisted differs: neither the key/value storage nor the
    cluster-local index. *)
Definition samePersisted (w w' : World) : Prop :=
  storage w' = storage w ∧ localCRL w' = localCRL w.

(** The force-rebuild flag is the same in both worlds. *)
Definition sameFlag (w w' : World) : Prop :=
  forceRebuild (builder w') = forceRebuild (builder w).

(** The template that [buildCRL] signs when the CRL is disabled and a new
    CRL is forced: no revoked certificate, whatever was collected. *)
Definition sentinelTemplate (b : backend) (lifetime : time.Duration)
    (sb : CAInfoBundle) (crlNumber : Z) : RevocationList :=
  {| RevokedCertificates := [];
     Number := crlNumber;
     ThisUpdate := Now b;
     NextUpdate := time.Add (Now b) lifetime;
     SignatureAlgorithm := RevocationSigAlg sb |}.

(** The key at which [buildCRL] stores the CRL. *)
Definition writePathOf `{Platform} (thisIssuerId identifier : string) : string :=
  if bool_decide (thisIssuerId = legacyBundleShimID)
  then legacyCRLPath
  else "crls/" +:+ identifier.

(** The world is left as it was. *)
Definition unchanged (w w' : World) : Prop := w' = w.

(** The warning of [revokeCert] for a certificate that is about to expire. *)
Definition expiredWarning (serial : string) : logical.Response :=
  logical.Warning
    ["certificate with serial " +:+ serial
       +:+ " already expired; refusing to add to CRL"].

(** The user error of [revokeCert] for the serial of an issuer. *)
Definition selfRevocationError (issuer : string) : logical.Response :=
  logical.ErrorResponse
    ("adding issuer (id: " +:+ issuer +:+ ") to its own CRL is not allowed").

(** The CA bundle of [issuer] is found and its certificate parses. *)
Definition issuerLoads `{Platform} (b : backend) (issuer : string)
    (certificate : x509.Certificate) : Prop :=
  ∃ e bundle,
    fetchCertBundleByIssuerId b issuer = inr (e, Some bundle)
    ∧ parseCABundle bundle = inr (Some certificate).

(** [k] is a key below [revoked/]. *)
Definition underRevoked (k : string) : Prop :=
  is_Some (Storage.stripPrefix revokedPath k).

(** The same serials have a revocation entry in both worlds. *)
Definition sameRevokedKeys (w w' : World) : Prop :=
  ∀ k, underRevoked k → is_Some (storage w' !! k) ↔ is_Some (storage w !! k).

(** The answer of [revokeCert] for the revocation entry [revInfo]. *)
Definition revokedResponse `{Platform} (revInfo : revocationInfo)
    : logical.Response :=
  logical.Data (RevocationTime revInfo)
    (if negb (time.IsZero (RevocationTimeUTC revInfo))
     then Some (FormatRFC3339Nano (RevocationTimeUTC revInfo))
     else None).

(** A [range] visits every key once. *)
Definition rangeVisitsAll `{Platform} : Prop := ∀ l, rangeOrder l ≡ₚ l.

(** The issuers that [buildCRLs] works with. *)
Definition buildIssuers `{Platform} (b : backend) : list string :=
  if negb (useLegacyBundleCaStorage b) then
    match listIssuers b with inr issuers => issuers | inl _ => [] end
  else [legacyBundleShimID].

(** The (key, subject) class of an issuer that has a key and may sign CRLs. *)
Definition classOf `{Platform} (b : backend) (issuer : string)
    : option (string * string) :=
  match fetchCertBundleByIssuerId b issuer with
  | inr (thisEntry, _) =>
      if empty (KeyID thisEntry) then None
      else if negb (usageCRLSigning thisEntry) then None
      else match GetCertificate thisEntry with
           | inr thisCert => Some (KeyID thisEntry, x509.RawSubject thisCert)
           | inl _ => None
           end
  | inl _ => None
  end.

(** [IssuerIDCRLMap[issuer]] in the persisted cluster-local index. *)
Definition indexCRL (w : World) (issuer : string) : option string :=
  match localCRL w with
  | Some c => IssuerIDCRLMap c !! issuer
  | None => None
  end.

(** The build is not cut short by a disabled CRL. *)
Definition buildRuns `{Platform} (b : backend) (forceNew : bool) (w : World)
    : Prop :=
  ∃ cfg w0, getConfigWithUpdate b w = (inr cfg, w0)
            ∧ Disable cfg && negb forceNew = false.

(** Every issuer filed in a cell of [keySubjectIssuersMap] belongs to the
    class the cell stands for. *)
Definition cellsSound `{Platform} (b : backend)
    (ks : gmap string (gmap string (list string))) : Prop :=
  ∀ k subjects s l i,
    ks !! k = Some subjects → subjects !! s = Some l → i ∈ l →
    classOf b i = Some (k, s).

(** [issuer] is filed in the cell of the class [(k, s)]. *)
Definition inCell (ks : gmap string (gmap string (list string)))
    (k s issuer : string) : Prop :=
  ∃ subjects l, ks !! k = Some subjects ∧ subjects !! s = Some l ∧ issuer ∈ l.

(** Both issuers are mapped, and to the same CRL. *)
Definition shareCRL (A B : string) (c : localCRLConfigEntry) : Prop :=
  ∃ id, IssuerIDCRLMap c !! A = Some id ∧ IssuerIDCRLMap c !! B = Some id.

(** The three stages that close [buildCRLs], under the names used in the
    statements below: the loop over the classes, the removal of the issuers
    that are gone, and the deletion of the CRLs no issuer refers to. *)
Definition buildClasses `{Platform} (b : backend) (globalCRLConfig : crlConfig)
    (forceNew : bool) (config : issuerConfigEntry)
    (unassignedCerts : list pkix.RevokedCertificate)
    (revokedCertsMap : gmap string (list pkix.RevokedCertificate))
    (keySubjectIssuersMap : gmap string (gmap string (list string)))
    (crlConfig : localCRLConfigEntry) : M localCRLConfigEntry :=
  forM (λ crlConfig subjectIssuersMap,
          forM (λ crlConfig issuersSet,
                  buildClass b globalCRLConfig forceNew config
                    unassignedCerts revokedCertsMap crlConfig issuersSet.2)
               (rangeMap subjectIssuersMap.2) crlConfig)
       (rangeMap keySubjectIssuersMap) crlConfig.

Definition pruneIssuers (issuers : list string) (crlConfig : localCRLConfigEntry)
    : localCRLConfigEntry :=
  with_IssuerIDCRLMap
    (filter (λ p, p.1 ∈ issuers) (IssuerIDCRLMap crlConfig)) crlConfig.

Definition deleteOrphans `{Platform} (b : backend)
    (crlConfig : localCRLConfigEntry) : M unit :=
  forM (λ _ crlId,
          if bool_decide
               (crlId ∈ (map_to_list (IssuerIDCRLMap crlConfig)).*2)
          then ret tt
          else wrapErr (λ err, Errorf
              ("error building CRLs: unable to clean up deleted issuers' CRL: "
                 +:+ errMsg err))
            (Storage.Delete b ("crls/" +:+ crlId)))
       (rangeMap (CRLNumberMap crlConfig)).*1 tt.

(** The stages of a build that ran to its end. *)
Inductive buildTrace `{Platform} (b : backend) (forceNew : bool)
    (w w' : World) : Prop :=
| BuildTrace (g : crlConfig) (config : issuerConfigEntry)
    (em : gmap string issuerEntry) (cm : gmap string x509.Certificate)
    (ks : gmap string (gmap string (list string)))
    (c0 : localCRLConfigEntry)
    (un : list pkix.RevokedCertificate)
    (rm rm' : gmap string (list pkix.RevokedCertificate))
    (c1 : localCRLConfigEntry) (w0 w1 w2 w3 w4 w5 : World) :
    getConfigWithUpdate b w = (inr g, w0) →
    (useLegacyBundleCaStorage b = false →
     ∃ issuers, listIssuers b = inr issuers) →
    getIssuersConfig b = inr config →
    forM (collectIssuer b) (buildIssuers b) (∅, ∅, ∅) w0
    = (inr (em, cm, ks), w1) →
    getLocalCRLConfig b w1 = (inr (Some c0), w2) →
    getRevokedCertEntries b cm w2 = (inr (un, rm), w3) →
    augmentWithRevokedIssuers em cm rm w3 = (inr rm', w3) →
    buildClasses b g forceNew config un rm' ks c0 w3 = (inr c1, w4) →
    deleteOrphans b (pruneIssuers (buildIssuers b) c1) w4 = (inr tt, w5) →
    (if useLegacyBundleCaStorage b then w' = w5
     else setLocalCRLConfig b (pruneIssuers (buildIssuers b) c1) w5
          = (inr tt, w')) →
    buildTrace b forceNew w w'.

(** Every certificate of the map is the certificate of the issuer entry it
    is filed under. *)
Definition certsSound `{Platform} (b : backend)
    (cm : gmap string x509.Certificate) : Prop :=
  ∀ J ic, cm !! J = Some ic →
    ∃ e bundle, fetchCertBundleByIssuerId b J = inr (e, bundle)
                ∧ GetCertificate e = inr ic.

(** Decoding what was encoded gives the entry back. *)
Definition jsonRoundTrip `{Platform} : Prop :=
  ∀ revInfo value,
    StorageEntryJSON revInfo = inr value → DecodeJSON value = inr revInfo.

(** [ic] is the certificate of the issuer [J], as [revokeCert] loads it (from
    the CA bundle) or as [buildCRLs] loads it (from the issuer entry). *)
Definition knownIssuerCert `{Platform} (b : backend) (J : string)
    (ic : x509.Certificate) : Prop :=
  issuerLoads b J ic
  ∨ ∃ e bundle, fetchCertBundleByIssuerId b J = inr (e, bundle)
                ∧ GetCertificate e = inr ic.

(** [value] is a revocation entry for the certificate [certValue] whose
    [issuer_id] names a known issuer that issued it. *)
Definition associated `{Platform} (b : backend) (certValue value : string)
    : Prop :=
  ∃ revInfo cert ic,
    StorageEntryJSON revInfo = inr value
    ∧ CertificateBytes revInfo = certValue
    ∧ ParseCertificate certValue = inr cert
    ∧ knownIssuerCert b (CertificateIssuer revInfo) ic
    ∧ issuedBy cert ic = true.

(** An associated entry at [key] is still one afterwards. *)
Definition keepsAssociation `{Platform} (b : backend) (key certValue : string)
    (w w' : World) : Prop :=
  (∃ v, storage w !! key = Some v ∧ associated b certValue v) →
  ∃ v', storage w' !! key = Some v' ∧ associated b certValue v'.

(** What is stored at [key] is the same in both worlds. *)
Definition sameAt (key : string) (w w' : World) : Prop :=
  storage w' !! key = storage w !! key.

(** The persisted cluster-local index is the same in both worlds. *)
Definition sameIndex (w w' : World) : Prop := localCRL w' = localCRL w.

(** The force-rebuild flag stays one of the two values of the flag. *)
Definition keepsFlagOK (w w' : World) : Prop := flagOK w → flagOK w'.

(** ** A rebuild while requests arrive

    [requestRebuildIfActiveNode] does not take [cb.m]: another goroutine
    may run it between any two accesses of [rebuildIfForced] and
    [_doRebuild] to the flag, and during the build.  The definitions below
    cut the two functions at these accesses.  [buildCRLs] is one step: it
    neither reads nor writes the flag, and a request touches nothing but
    the flag, so a request during the build has the effect of a request
    just before or just after it. *)






(** ** Notions used by the further properties *)

(** The builder after a reload that found [stored] in the storage. *)
Definition reloaded `{Platform} (stored : option crlConfig) (w : World) : World :=
  set_builder (with_dirty false)
    (set_builder (with_config (default defaultCrlConfig stored)) w).

(** The grace period [checkForAutoRebuild] works with: the configured one,
    or the default one when the configured one does not parse. *)
Definition gracePeriod `{Platform} (cfg : crlConfig) (fallback : time.Duration)
    : time.Duration :=
  match ParseDuration (AutoRebuildGracePeriod cfg) with
  | inr p => p
  | inl _ => fallback
  end.

(** Some CRL of the index has no expiration yet or is within [period] of
    it; the negated period is an int64 duration. *)
Definition expiresSoon (now : time.Time) (period : time.Duration)
    (expirations : gmap string time.Time) : bool :=
  existsb (λ value, time.IsZero value
                    || time.After now
                         (time.Add value (wrap_int64 (-1 * period))))
          (map_to_list expirations).*2.

(** The index [getLocalCRLConfig] yields for the world. *)
Definition indexOf (w : World) : localCRLConfigEntry :=
  default {| IssuerIDCRLMap := ∅; CRLNumberMap := ∅; CRLExpirationMap := ∅ |}
    (localCRL w).

(** Nothing persisted changed and the force-rebuild flag is as it was or
    went from 0 to 1. *)
Definition onlyRaised (w w' : World) : Prop :=
  storage w' = storage w ∧ localCRL w' = localCRL w
  ∧ (forceRebuild (builder w') = forceRebuild (builder w)
     ∨ (forceRebuild (builder w) = 0%Z ∧ forceRebuild (builder w') = 1%Z)).

(** The node may write: it is neither a performance standby nor a DR
    secondary. *)
Definition activeNode (b : backend) : Prop :=
  ReplicationPerformanceStandby b = false ∧ ReplicationDRSecondary b = false.

(** The template [buildCRL] signs for a CRL that is not disabled. *)
Definition crlTemplate (b : backend) (lifetime : time.Duration)
    (sb : CAInfoBundle) (revoked : list pkix.RevokedCertificate)
    (crlNumber : Z) : RevocationList :=
  {| RevokedCertificates := revoked;
     Number := crlNumber;
     ThisUpdate := Now b;
     NextUpdate := time.Add (Now b) lifetime;
     SignatureAlgorithm := RevocationSigAlg sb |}.

(** Some issuer of the map has the serial and the bytes of [cert]. *)
Definition isIssuerCert `{Platform} (cm : gmap string x509.Certificate)
    (cert : x509.Certificate) : Prop :=
  ∃ J ic, cm !! J = Some ic
          ∧ serialFromCert ic = serialFromCert cert
          ∧ x509.Raw ic = x509.Raw cert.

(** [rc] is the CRL entry of a revoked issuer other than [i] whose
    certificate the certificate of [i] signed. *)
Definition revokedIssuerEntry `{Platform} (em : gmap string issuerEntry)
    (cm : gmap string x509.Certificate) (i : string)
    (rc : pkix.RevokedCertificate) : Prop :=
  ∃ J e cJ ci,
    J ≠ i ∧ em !! J = Some e ∧ Revoked e = true ∧ cm !! J = Some cJ
    ∧ is_Some (em !! i) ∧ cm !! i = Some ci
    ∧ CheckSignatureFrom cJ ci = true
    ∧ rc = {| pkix.SerialNumber := x509.SerialNumber cJ;
              pkix.RevocationTime := issuerRevocationTimeUTC e |}.

(** The entry of an issuer that a build signs CRLs for: it has a key and
    may sign CRLs. *)
Definition signerOf `{Platform} (b : backend) (issuer : string)
    : option issuerEntry :=
  match fetchCertBundleByIssuerId b issuer with
  | inr (thisEntry, _) =>
      if empty (KeyID thisEntry) then None
      else if negb (usageCRLSigning thisEntry) then None
      else Some thisEntry
  | inl _ => None
  end.

(** A revocation entry that [getRevokedCertEntries] cannot read: it is
    empty, it does not decode, or its certificate does not parse. *)
Definition unreadableEntry `{Platform} (value : string) : Prop :=
  value = ""
  ∨ (∃ err, DecodeJSON value = inl err)
  ∨ (∃ revInfo err, DecodeJSON value = inr revInfo
                    ∧ ParseCertificate (CertificateBytes revInfo) = inl err).

(** The keys a build writes: the revocation entries, the CRLs and the
    legacy CRL. *)
Definition buildKey `{Platform} (k : string) : Prop :=
  underRevoked k ∨ is_Some (Storage.stripPrefix "crls/" k) ∨ k = legacyCRLPath.

(** Whatever is stored outside the keys of a build is the same in both
    worlds. *)
Definition sameElsewhere `{Platform} (w w' : World) : Prop :=
  ∀ k, ¬ buildKey k → storage w' !! k = storage w !! k.

(** Every serial that has a revocation entry still has one afterwards. *)
Definition keepsRevoked (w w' : World) : Prop :=
  ∀ k, underRevoked k → is_Some (storage w !! k) → is_Some (storage w' !! k).

(** The answer of [revokeCert] for a serial that has no certificate. *)
Definition notFoundResponse (serial : string) (fromLease : bool)
    : option logical.Response :=
  if fromLease then None
  else Some (logical.ErrorResponse
               ("certificate with serial " +:+ serial +:+ " not found")).

(** What one member of a class adds to the CRL of the class: the
    certificates without issuer when it is the default issuer, then its own
    revoked certificates. *)
Definition memberRevoked (config : issuerConfigEntry)
    (unassignedCerts : list pkix.RevokedCertificate)
    (revokedCertsMap : gmap string (list pkix.RevokedCertificate))
    (issuerId : string) : list pkix.RevokedCertificate :=
  (if bool_decide (issuerId = DefaultIssuerId config)
   then unassignedCerts else [])
  ++ default [] (revokedCertsMap !! issuerId).

(** * Properties *)

Ltac unfold_monad :=
  unfold bind, ret, fail, get, modify, lift, wrapErr, try, returning in *.

Section FrameRules.
Context {E : Type} (R : World → World → Prop) `{!PreOrder R}.

Lemma stable_ret {A} (a : A) : stable R (ret (E:=E) a).
Proof. intros w. reflexivity. Qed.

Lemma stable_fail {A} (e : E) : stable R (fail (A:=A) e).
Proof. intros w. reflexivity. Qed.

Lemma stable_get : stable R (get (E:=E)).
Proof. intros w. reflexivity. Qed.

Lemma stable_lift {A} (r : E + A) : stable R (lift r).
Proof. intros w. reflexivity. Qed.

Lemma stable_modify (f : World → World) :
  (∀ w, R w (f w)) → stable R (modify (E:=E) f).
Proof. intros Hf w. apply Hf. Qed.

Lemma stable_bind {A B} (m : ME E A) (k : A → ME E B) :
  stable R m → (∀ a, stable R (k a)) → stable R (bind m k).
Proof.
  intros Hm Hk w. unfold bind.
  specialize (Hm w). destruct (m w) as [[e|a] w1]; simpl in *; [done|].
  etrans; [exact Hm|apply Hk].
Qed.

(** The same, remembering where the value handed to [k] comes from. *)
Lemma stable_bind_inr {A B} (m : ME E A) (k : A → ME E B) :
  stable R m → (∀ a w w1, m w = (inr a, w1) → stable R (k a)) →
  stable R (bind m k).
Proof.
  intros Hm Hk w. unfold bind.
  pose proof (Hm w) as Hw. destruct (m w) as [[e|a] w1] eqn:Hrun;
    simpl in *; [done|].
  etrans; [exact Hw|]. by eapply Hk.
Qed.

Lemma stable_forM {A S} (body : S → A → ME E S) (xs : list A) (s : S) :
  (∀ s x, stable R (body s x)) → stable R (forM body xs s).
Proof.
  intros Hbody. revert s.
  induction xs as [|x xs IH]; intros s; simpl.
  - apply stable_ret.
  - apply stable_bind; [apply Hbody|intros s'; apply IH].
Qed.

End FrameRules.

Lemma stable_wrapErr {A} (R : World → World → Prop) (f : error → error)
    (m : M A) :
  stable R m → stable R (wrapErr f m).
Proof.
  intros Hm w. specialize (Hm w). unfold wrapErr.
  destruct (m w) as [[e|a] w1]; simpl in *; done.
Qed.

Lemma stable_try {A} (R : World → World → Prop) (m : M A) :
  stable R m → stable R (try m).
Proof.
  intros Hm w. specialize (Hm w). unfold try.
  destruct (m w) as [[e|a] w1]; simpl in *; done.
Qed.

Lemma stable_returning (R : World → World → Prop)
    (m : ME early (option logical.Response)) :
  stable R m → stable R (returning m).
Proof.
  intros Hm w. specialize (Hm w). unfold returning.
  destruct (m w) as [[[r|e]|a] w1]; simpl in *; done.
Qed.

Ltac preorder := try (lazymatch goal with |- PreOrder _ => exact _ end).

(** Splits a goal [stable R m] along the structure of [m]. *)
Ltac stable_rule :=
  lazymatch goal with
  | |- stable _ (bind _ _) =>
      apply stable_bind; preorder; [|intros ?; cbv beta]
  | |- stable _ (ret _) => apply stable_ret
  | |- stable _ (fail _) => apply stable_fail
  | |- stable _ get => apply stable_get
  | |- stable _ (lift _) => apply stable_lift
  | |- stable _ (wrapErr _ _) => apply stable_wrapErr
  | |- stable _ (try _) => apply stable_try
  | |- stable _ (returning _) => apply stable_returning
  | |- stable _ (forM _ _ _) =>
      apply stable_forM; preorder; intros ? ?; cbv beta
  | |- stable _ (modify _) => apply stable_modify; preorder; intros ?
  | |- stable _ (if ?c then _ else _) => destruct c
  | |- stable _ (match ?x with _ => _ end) => destruct x
  | |- stable _ (let '(_, _) := ?x in _) => destruct x
  end.

Ltac stable_step := stable_rule; preorder.

Ltac stable_by lem :=
  first [ apply lem | apply stable_wrapErr, lem | apply stable_try, lem
        | apply stable_try, stable_wrapErr, lem ];
  preorder; auto; try done.

(** ** Running a sequence of steps to a result *)

Lemma bind_inr {E A B} (m : ME E A) (k : A → ME E B) w b w' :
  bind m k w = (inr b, w') →
  ∃ a w1, m w = (inr a, w1) ∧ k a w1 = (inr b, w').
Proof.
  unfold bind. destruct (m w) as [[e|a] w1]; [done|]. intros Hk. by exists a, w1.
Qed.

Lemma wrapErr_inr {A} f (m : M A) w a w' :
  wrapErr f m w = (inr a, w') → m w = (inr a, w').
Proof. unfold wrapErr. by destruct (m w) as [[e|a'] w1]. Qed.

Lemma ret_inr {E A} (a a' : A) w w' :
  ret (E:=E) a w = (inr a', w') → a = a' ∧ w = w'.
Proof. unfold ret. by intros [= -> ->]. Qed.

Lemma lift_inr {E A} (r : E + A) a w w' :
  lift r w = (inr a, w') → r = inr a ∧ w = w'.
Proof. unfold lift. by intros [= -> ->]. Qed.

Lemma forM_cons_inr {E A S} (body : S → A → ME E S) x xs s w s' w' :
  forM body (x :: xs) s w = (inr s', w') →
  ∃ s1 w1, body s x w = (inr s1, w1) ∧ forM body xs s1 w1 = (inr s', w').
Proof. simpl. apply bind_inr. Qed.

(** A property of the locals that every step keeps is kept by the loop. *)
Lemma forM_preserve {E A S} (body : S → A → ME E S) (P : S → Prop)
    xs s w s' w' :
  (∀ s x w s1 w1, x ∈ xs → body s x w = (inr s1, w1) → P s → P s1) →
  forM body xs s w = (inr s', w') → P s → P s'.
Proof.
  revert s w. induction xs as [|x xs IH]; intros s w Hstep Hrun Hs.
  - apply ret_inr in Hrun as [<- _]. done.
  - apply forM_cons_inr in Hrun as (s1 & w1 & Hx & Hrest).
    eapply IH; [|exact Hrest|].
    + intros ? ? ? ? ? Hin. apply Hstep. by apply elem_of_cons; right.
    + eapply Hstep; [|exact Hx|exact Hs]. by apply elem_of_cons; left.
Qed.

(** A property of the locals that some step establishes and every step
    keeps holds when the loop is over. *)
Lemma forM_establish {E A S} (body : S → A → ME E S) (P : S → Prop)
    (hit : A → Prop) xs s w s' w' :
  (∀ s x w s1 w1, x ∈ xs → body s x w = (inr s1, w1) →
     (hit x → P s1) ∧ (P s → P s1)) →
  (∃ x, x ∈ xs ∧ hit x) →
  forM body xs s w = (inr s', w') → P s'.
Proof.
  revert s w. induction xs as [|x xs IH]; intros s w Hstep (y & Hy & Hhit) Hrun.
  - by apply elem_of_nil in Hy.
  - apply forM_cons_inr in Hrun as (s1 & w1 & Hx & Hrest).
    assert (∀ s x0 w s1 w1, x0 ∈ xs → body s x0 w = (inr s1, w1) →
              (hit x0 → P s1) ∧ (P s → P s1)) as Hstep'.
    { intros ? ? ? ? ? Hin. apply Hstep. by apply elem_of_cons; right. }
    apply elem_of_cons in Hy as [->|Hy].
    + eapply (forM_preserve body P); [|exact Hrest|].
      * intros ? ? ? ? ? Hin Hb. by destruct (Hstep' _ _ _ _ _ Hin Hb).
      * assert (x ∈ x :: xs) as Hin by (by apply elem_of_cons; left).
        destruct (Hstep _ _ _ _ _ Hin Hx) as [Hh _]. by apply Hh.
    + eapply IH; [exact Hstep'| |exact Hrest]. by exists y.
Qed.

(** ** The certificates a build collects *)

Section Collected.
Context `{Platform}.

Lemma collectIssuer_certsSound b em cm ks issuer w em' cm' ks' w' :
  collectIssuer b (em, cm, ks) issuer w = (inr (em', cm', ks'), w') →
  certsSound b cm → certsSound b cm'.
Proof.
  unfold collectIssuer. unfold_monad.
  destruct (fetchCertBundleByIssuerId b issuer) as [e|[thisEntry bundle]]
    eqn:Hfetch; simpl; [by destruct (errKind e)|].
  destruct (empty (KeyID thisEntry)); simpl.
  { by intros [= <- <- <- <-]. }
  destruct (usageCRLSigning thisEntry); simpl.
  2:{ by intros [= <- <- <- <-]. }
  destruct (GetCertificate thisEntry) as [e|thisCert] eqn:Hcert; simpl;
    [by destruct (errKind e)|].
  intros [= <- <- <- <-] Hs J ic HJ.
  destruct (decide (issuer = J)) as [->|Hne].
  - rewrite lookup_insert_eq in HJ. simplify_eq. by exists thisEntry, bundle.
  - rewrite lookup_insert_ne in HJ by done. by apply Hs.
Qed.

Lemma collectIssuers_certsSound b issuers acc w acc' w' :
  forM (collectIssuer b) issuers acc w = (inr acc', w') →
  certsSound b acc.1.2 → certsSound b acc'.1.2.
Proof.
  revert acc w. induction issuers as [|issuer issuers IH];
    intros [[em cm] ks] w Hrun Hs.
  - by apply ret_inr in Hrun as [<- _].
  - apply forM_cons_inr in Hrun as ([[em1 cm1] ks1] & w1 & Hstep & Hrest).
    eapply IH; [exact Hrest|]. simpl.
    by eapply collectIssuer_certsSound.
Qed.

Lemma certsSound_empty b : certsSound b ∅.
Proof. intros J ic HJ. by rewrite lookup_empty in HJ. Qed.

End Collected.

(** ** What a build may touch

    A relation that tolerates the writes a build performs is kept by the
    whole build, whether it succeeds or fails. *)

Section BuildFrame.
Context `{Platform} (R : World → World → Prop) `{!PreOrder R} (b : backend).
Hypothesis R_config : ∀ w c, R w (set_builder (with_config c) w).
Hypothesis R_dirty : ∀ w d, R w (set_builder (with_dirty d) w).
Hypothesis R_drawn : ∀ w n, R w (set_drawn n w).
Hypothesis R_localCRL : ∀ w c, R w (set_localCRL c w).
Hypothesis R_put_crl :
  ∀ w id v, R w (set_storage <["crls/" +:+ id := v]> w).
Hypothesis R_put_legacy :
  ∀ w v, R w (set_storage <[legacyCRLPath := v]> w).
Hypothesis R_delete_crl :
  ∀ w id, R w (set_storage (delete ("crls/" +:+ id)) w).
Hypothesis R_revokedEntryStep :
  ∀ cm sm acc serial,
    certsSound b cm → stable R (revokedEntryStep b cm sm acc serial).

Lemma stable_Get key : stable R (Storage.Get b key).
Proof. unfold Storage.Get. repeat stable_step. Qed.

Lemma stable_List prefix : stable R (Storage.List b prefix).
Proof. unfold Storage.List. repeat stable_step. Qed.

Lemma stable_reloadConfigIfRequired : stable R (reloadConfigIfRequired b).
Proof. unfold reloadConfigIfRequired. repeat stable_step; auto. Qed.

Lemma stable_getConfigWithUpdate : stable R (getConfigWithUpdate b).
Proof.
  unfold getConfigWithUpdate.
  stable_step; [apply stable_reloadConfigIfRequired|].
  repeat stable_step.
Qed.

Lemma stable_getLocalCRLConfig : stable R (getLocalCRLConfig b).
Proof. unfold getLocalCRLConfig. repeat stable_step. Qed.

Lemma stable_setLocalCRLConfig c : stable R (setLocalCRLConfig b c).
Proof. unfold setLocalCRLConfig. repeat stable_step; auto. Qed.

Lemma stable_buildCRL crlInfo forceNew issuer revoked id n :
  stable R (buildCRL b crlInfo forceNew issuer revoked id n).
Proof.
  unfold buildCRL, Storage.Put. repeat stable_step; auto.
  all: case_bool_decide; auto.
Qed.

Lemma stable_getRevokedCertEntries cm :
  certsSound b cm → stable R (getRevokedCertEntries b cm).
Proof.
  intros Hcm. unfold getRevokedCertEntries.
  stable_step; [stable_by stable_List|].
  stable_step. auto.
Qed.

Lemma stable_augmentWithRevokedIssuers em cm rm :
  stable R (augmentWithRevokedIssuers em cm rm).
Proof.
  unfold augmentWithRevokedIssuers, augmentOther. repeat stable_step.
Qed.

Lemma stable_collectIssuer acc issuer : stable R (collectIssuer b acc issuer).
Proof. unfold collectIssuer. repeat stable_step. Qed.

Lemma stable_memberStep config un rm c acc issuerId :
  stable R (memberStep config un rm c acc issuerId).
Proof. unfold memberStep. repeat stable_step. Qed.

Lemma stable_buildClass g forceNew config un rm c set :
  stable R (buildClass b g forceNew config un rm c set).
Proof.
  unfold buildClass. destruct set as [|first rest]; [stable_step|].
  stable_step; [stable_step; apply stable_memberStep|].
  destruct a as [[[revokedCerts representative] crlIdentifier] crlIdIssuer].
  stable_step; [repeat stable_step; auto|].
  destruct a as [crlIdentifier' c'].
  stable_step; [stable_by stable_buildCRL|].
  stable_step.
Qed.

Lemma stable_buildCRLs forceNew : stable R (buildCRLs b forceNew).
Proof.
  unfold buildCRLs.
  stable_step; [stable_by stable_getConfigWithUpdate|].
  destruct (Disable a && negb forceNew); [stable_step|].
  stable_step; [repeat stable_step|]. destruct a0 as [issuers wasLegacy].
  stable_step; [repeat stable_step|].
  apply stable_bind_inr; preorder;
    [stable_step; apply stable_collectIssuer|].
  intros [[em cm] ks] wa wb Hcollect.
  apply collectIssuers_certsSound in Hcollect; [|apply certsSound_empty].
  stable_step; [stable_by stable_getLocalCRLConfig|].
  stable_step; [by apply stable_wrapErr, stable_getRevokedCertEntries|].
  destruct a2 as [un rm].
  stable_step; [stable_by stable_augmentWithRevokedIssuers|].
  destruct a1 as [c|]; [|stable_step].
  stable_step.
  { stable_step. stable_step. apply stable_buildClass. }
  stable_step.
  { stable_step. unfold Storage.Delete. repeat stable_step; auto. }
  destruct (negb wasLegacy); [|stable_step].
  stable_by stable_setLocalCRLConfig.
Qed.

Lemma stable_buildClasses g forceNew config un rm ks c :
  stable R (buildClasses b g forceNew config un rm ks c).
Proof.
  unfold buildClasses. stable_step. stable_step. apply stable_buildClass.
Qed.

Lemma stable_deleteOrphans c : stable R (deleteOrphans b c).
Proof.
  unfold deleteOrphans, Storage.Delete. repeat stable_step; auto.
Qed.

(** A rebuild also resets the force-rebuild flag. *)
Lemma stable_rebuild forceNew :
  (∀ w v, R w (set_builder (with_forceRebuild v) w)) →
  stable R (rebuild b forceNew).
Proof.
  intros R_flag.
  unfold rebuild, _doRebuild, LoadForceRebuild, CompareAndSwapForceRebuild.
  repeat stable_step; auto; apply stable_buildCRLs.
Qed.

(** The tail of [revokeCert]. *)
Lemma stable_finishRevoke revInfo :
  (∀ w v, R w (set_builder (with_forceRebuild v) w)) →
  stable R (finishRevoke b revInfo).
Proof.
  intros R_flag. unfold finishRevoke.
  stable_step; [stable_by stable_getConfigWithUpdate|].
  stable_step; [|stable_step].
  destruct (negb (AutoRebuild a)); [|stable_step].
  intros w. pose proof (stable_rebuild false R_flag w) as Hst.
  destruct (rebuild b false w) as [[e|[]] w1]; simpl in *; [|done].
  by destruct (isUserError e).
Qed.

End BuildFrame.

(** ** The force-rebuild flag *)

#[local] Instance sameFlag_preorder : PreOrder sameFlag.
Proof. split; [done|]. intros w1 w2 w3; unfold sameFlag; congruence. Qed.

Section Flag.
Context `{Platform}.

Lemma revokedEntryStep_sameFlag b cm sm acc serial :
  stable sameFlag (revokedEntryStep b cm sm acc serial).
Proof.
  unfold revokedEntryStep, Storage.Get, Storage.Put.
  destruct acc as [un rm]. repeat stable_step; done.
Qed.

Lemma buildCRLs_sameFlag b forceNew : stable sameFlag (buildCRLs b forceNew).
Proof.
  apply stable_buildCRLs; try done; try exact _.
  intros. apply revokedEntryStep_sameFlag.
Qed.

Lemma World_eta w :
  {| storage := storage w; localCRL := localCRL w;
     builder := builder w; drawn := drawn w |} = w.
Proof. by destruct w. Qed.

Lemma crlBuilder_eta cb :
  {| forceRebuild := forceRebuild cb; dirty := dirty cb;
     config := config cb |} = cb.
Proof. by destruct cb. Qed.

Lemma clear_flag_id w :
  forceRebuild (builder w) = 0%Z → set_builder (with_forceRebuild 0) w = w.
Proof.
  intros Hf. destruct w as [s l [f d c] n]; simpl in *. by subst.
Qed.

(** [_doRebuild] as one equation: the flag is already 0 in the world that
    is handed to [buildCRLs]. *)
Lemma _doRebuild_eq b forceNew ignoreForceFlag w :
  flagOK w →
  _doRebuild b forceNew ignoreForceFlag w =
    if bool_decide (forceRebuild (builder w) = 1%Z) || ignoreForceFlag
    then buildCRLs b (bool_decide (forceRebuild (builder w) = 1%Z) || forceNew)
           (set_builder (with_forceRebuild 0) w)
    else (inr tt, w).
Proof.
  unfold flagOK. destruct w as [s l [f d c] n]; simpl.
  intros [-> | ->]; unfold _doRebuild, LoadForceRebuild,
    CompareAndSwapForceRebuild; unfold_monad; simpl.
  - by destruct ignoreForceFlag.
  - done.
Qed.

End Flag.

(** ** The flag only ever holds 0 or 1 *)

#[local] Instance keepsFlagOK_preorder : PreOrder keepsFlagOK.
Proof.
  split; [by intros w Hw|]. intros w1 w2 w3 H12 H23 Hw. by apply H23, H12.
Qed.

Section FlagValues.
Context `{Platform}.

Lemma sameFlag_keepsFlagOK w w' : sameFlag w w' → keepsFlagOK w w'.
Proof. unfold sameFlag, keepsFlagOK, flagOK. by intros ->. Qed.

Lemma CompareAndSwap_keepsFlagOK (old new : Z) :
  new = 0%Z ∨ new = 1%Z →
  stable keepsFlagOK (CompareAndSwapForceRebuild old new).
Proof.
  intros Hnew w. unfold CompareAndSwapForceRebuild. unfold_monad. simpl.
  case_bool_decide; simpl; [|done]. intros _. exact Hnew.
Qed.

Lemma buildCRLs_keepsFlagOK b forceNew :
  stable keepsFlagOK (buildCRLs b forceNew).
Proof. intros w. apply sameFlag_keepsFlagOK, buildCRLs_sameFlag. Qed.

Lemma _doRebuild_keepsFlagOK b forceNew ignoreForceFlag :
  stable keepsFlagOK (_doRebuild b forceNew ignoreForceFlag).
Proof.
  unfold _doRebuild, LoadForceRebuild.
  stable_step; [repeat stable_step|].
  destruct (_ || _); [|stable_step].
  stable_step; [apply CompareAndSwap_keepsFlagOK; by left|].
  apply buildCRLs_keepsFlagOK.
Qed.

Lemma rebuildIfForced_keepsFlagOK b : stable keepsFlagOK (rebuildIfForced b).
Proof.
  unfold rebuildIfForced, LoadForceRebuild.
  stable_step; [repeat stable_step|].
  case_bool_decide; [apply _doRebuild_keepsFlagOK|stable_step].
Qed.

Lemma requestRebuildIfActiveNode_keepsFlagOK b :
  stable keepsFlagOK (requestRebuildIfActiveNode b).
Proof.
  unfold requestRebuildIfActiveNode.
  destruct (_ || _); [stable_step|].
  stable_step; [apply CompareAndSwap_keepsFlagOK; by right|stable_step].
Qed.

Lemma checkForAutoRebuild_keepsFlagOK b :
  stable keepsFlagOK (checkForAutoRebuild b).
Proof.
  assert (stable keepsFlagOK
            (_ <- CompareAndSwapForceRebuild 0 1 ;; ret tt))
    as Hset.
  { stable_step; [apply CompareAndSwap_keepsFlagOK; by right|stable_step]. }
  unfold checkForAutoRebuild, LoadForceRebuild.
  stable_step.
  { apply stable_getConfigWithUpdate; try exact _; intros ? ? Hw; exact Hw. }
  stable_step; [repeat stable_step|].
  destruct (_ || _); [stable_step|].
  stable_step; [apply stable_wrapErr, stable_getLocalCRLConfig; exact _|].
  destruct a1 as [crlConfig|]; [|exact Hset].
  case_bool_decide; [exact Hset|].
  stable_step; [repeat stable_step|].
  destruct (existsb _ _); [exact Hset|stable_step].
Qed.

Lemma newCRLBuilder_flagOK s l n :
  flagOK {| storage := s; localCRL := l; builder := newCRLBuilder;
            drawn := n |}.
Proof. by left. Qed.

End FlagValues.

(** One caller at a time: [_doRebuild] hands to [buildCRLs] a world in
    which the flag is already 0, [buildCRLs] never writes the flag, and so
    the flag is 0 whenever [rebuildIfForced] returns (with or without an
    error).  What becomes of a request that arrives meanwhile is the
    subject of the next section. *)
Theorem rebuildIfForced_clears_force_flag `{Platform} (b : backend) (w : World) :
  flagOK w →
  (∀ forceNew ignoreForceFlag,
     _doRebuild b forceNew ignoreForceFlag w =
       if bool_decide (forceRebuild (builder w) = 1%Z) || ignoreForceFlag
       then buildCRLs b
              (bool_decide (forceRebuild (builder w) = 1%Z) || forceNew)
              (set_builder (with_forceRebuild 0) w)
       else (inr tt, w))
  ∧ (∀ forceNew w0,
       forceRebuild (builder (buildCRLs b forceNew w0).2)
       = forceRebuild (builder w0))
  ∧ (∀ r w', rebuildIfForced b w = (r, w') →
       forceRebuild (builder w') = 0%Z).
Proof.
  intros Hflag. split; [|split].
  - intros. by apply _doRebuild_eq.
  - intros. apply buildCRLs_sameFlag.
  - intros r w' Hrun. unfold rebuildIfForced, LoadForceRebuild in Hrun.
    unfold_monad; simpl in Hrun.
    case_bool_decide as Hone.
    + rewrite _doRebuild_eq in Hrun by done.
      rewrite bool_decide_eq_true_2 in Hrun by done. simpl in Hrun.
      pose proof (buildCRLs_sameFlag b true
                    (set_builder (with_forceRebuild 0) w)) as Hsame.
      rewrite Hrun in Hsame. exact Hsame.
    + destruct Hflag as [H0|H1]; [|done]. by simplify_eq.
Qed.

Section OnDemoC7.
#[local] Existing Instance Demo.platform.

Lemma rebuildIfForced_clears_force_flag_witness :
  flagOK (Demo.forced Demo.world0)
  ∧ forceRebuild
      (builder (rebuildIfForced Demo.mount (Demo.forced Demo.world0)).2) = 0%Z.
Proof.
  assert (flagOK (Demo.forced Demo.world0)) as Hflag by (right; reflexivity).
  split; [exact Hflag|].
  destruct (rebuildIfForced_clears_force_flag Demo.mount
              (Demo.forced Demo.world0) Hflag) as (_ & _ & Hret).
  eapply Hret. apply surjective_pairing.
Defined.

(** The build that a pending flag forces, run on a mount whose CRL is
    disabled and which holds one revocation: an empty CRL is signed. *)
Example forced_rebuild_signs_sentinel :
  let w := set_storage <["revoked/11" := "der-leaf1|I1"]>
             (Demo.forced Demo.world0) in
  let w' := (rebuild Demo.disabledMount false w).2 in
  (rebuild Demo.disabledMount false w).1 = inr tt
  ∧ storage w' !! "crls/crl-0" = Some "CRL number=1 revoked=[]"
  ∧ forceRebuild (builder w') = 0%Z.
Proof. vm_compute. done. Qed.

End OnDemoC7.

(** ** The flag while requests arrive *)

Section Interleaved.
Context `{Platform}.












End Interleaved.



Section OnDemoC7Interleaved.
#[local] Existing Instance Demo.platform.


End OnDemoC7Interleaved.

(** C9. When [rebuild] is called with [forceNew = false] while the
    force-rebuild flag is 1, the flag is reset and the build runs with
    [forceNew = true]: the call equals [buildCRLs] with [forceNew = true] on
    the world whose flag is 0, so the exit taken by a disabled CRL when
    [forceNew] is false is not taken, and the flag is 0 afterwards. *)
Theorem rebuild_promotes_pending_force `{Platform} (b : backend) (w : World) :
  forceRebuild (builder w) = 1%Z →
  rebuild b false w = buildCRLs b true (set_builder (with_forceRebuild 0) w)
  ∧ forceRebuild (builder (rebuild b false w).2) = 0%Z.
Proof.
  intros Hone.
  assert (rebuild b false w
          = buildCRLs b true (set_builder (with_forceRebuild 0) w)) as Heq.
  { unfold rebuild. rewrite _doRebuild_eq by (by right).
    by rewrite bool_decide_eq_true_2. }
  split; [exact Heq|].
  rewrite Heq. by rewrite buildCRLs_sameFlag.
Qed.

Section OnDemoC9.
#[local] Existing Instance Demo.platform.

Lemma rebuild_promotes_pending_force_witness :
  forceRebuild (builder (Demo.forced Demo.world0)) = 1%Z
  ∧ rebuild Demo.disabledMount false (Demo.forced Demo.world0)
    = buildCRLs Demo.disabledMount true
        (set_builder (with_forceRebuild 0) (Demo.forced Demo.world0)).
Proof.
  split; [reflexivity|].
  apply (rebuild_promotes_pending_force Demo.disabledMount
           (Demo.forced Demo.world0)).
  reflexivity.
Defined.

End OnDemoC9.

#[local] Instance samePersisted_preorder : PreOrder samePersisted.
Proof.
  split; [done|]. intros w1 w2 w3 [H1 H2] [H3 H4].
  split; congruence.
Qed.

(** C5. When the configuration that [buildCRLs] loads has [Disable] set and
    [forceNew] is false, the call returns success at once, in the world that
    loading the configuration left: nothing is written to the storage and
    the cluster-local index is untouched. *)
Theorem buildCRLs_disabled_is_noop `{Platform} (b : backend) (w w1 : World)
    (cfg : crlConfig) :
  getConfigWithUpdate b w = (inr cfg, w1) →
  Disable cfg = true →
  buildCRLs b false w = (inr tt, w1)
  ∧ storage w1 = storage w
  ∧ localCRL w1 = localCRL w.
Proof.
  intros Hcfg Hdis. split.
  - unfold buildCRLs. unfold_monad. rewrite Hcfg. simpl. by rewrite Hdis.
  - assert (stable samePersisted (getConfigWithUpdate b)) as Hst
      by (apply stable_getConfigWithUpdate; try exact _; intros; by split).
    specialize (Hst w). by rewrite Hcfg in Hst.
Qed.

Section OnDemoC5.
#[local] Existing Instance Demo.platform.

Lemma buildCRLs_disabled_is_noop_witness :
  Disable Demo.disabledConfig = true
  ∧ (buildCRLs Demo.disabledMount false Demo.world0).1 = inr tt
  ∧ storage (buildCRLs Demo.disabledMount false Demo.world0).2
    = storage Demo.world0.
Proof.
  split; [reflexivity|].
  destruct (buildCRLs_disabled_is_noop Demo.disabledMount Demo.world0
              (getConfigWithUpdate Demo.disabledMount Demo.world0).2
              Demo.disabledConfig) as (Hrun & Hsto & _).
  - reflexivity.
  - reflexivity.
  - rewrite Hrun. split; [reflexivity|exact Hsto].
Defined.

End OnDemoC5.

(** ** Building one CRL when the CRL is disabled *)

Section Sentinel.
Context `{Platform}.

Lemma buildCRL_disabled_forced b crlInfo issuer revoked id n w :
  Disable crlInfo = true →
  buildCRL b crlInfo true issuer revoked id n w
  = buildCRL b crlInfo true issuer [] id n w.
Proof. intros Hdis. unfold buildCRL. by rewrite Hdis. Qed.

Lemma buildCRL_sentinel_inv b crlInfo issuer id n w nextUpdate w' :
  Disable crlInfo = true →
  buildCRL b crlInfo true issuer [] id n w = (inr nextUpdate, w') →
  ∃ lifetime sb crlBytes,
    ParseDuration (Expiry crlInfo) = inr lifetime
    ∧ fetchCAInfoByIssuerId b issuer = inr sb
    ∧ CreateRevocationList (sentinelTemplate b lifetime sb n)
        (caCertificate sb) (caPrivateKey sb) = inr crlBytes
    ∧ putFault b (writePathOf issuer id) = None
    ∧ nextUpdate = time.Add (Now b) lifetime
    ∧ w' = set_storage <[writePathOf issuer id := crlBytes]> w.
Proof.
  intros Hdis. unfold buildCRL, Storage.Put, writePathOf, sentinelTemplate.
  rewrite Hdis. unfold_monad. simpl.
  destruct (ParseDuration (Expiry crlInfo)) as [e|lifetime]; [done|].
  destruct (fetchCAInfoByIssuerId b issuer) as [e|sb];
    [by destruct (isUserError e)|].
  destruct (CreateRevocationList _ _ _) as [e|crlBytes] eqn:Hsign; [done|].
  destruct (putFault b _) as [e|] eqn:Hput; [done|].
  simpl. intros [= <- <-]. by exists lifetime, sb, crlBytes.
Qed.

Lemma buildCRL_sentinel_run b crlInfo issuer id n w lifetime sb crlBytes :
  Disable crlInfo = true →
  ParseDuration (Expiry crlInfo) = inr lifetime →
  fetchCAInfoByIssuerId b issuer = inr sb →
  CreateRevocationList (sentinelTemplate b lifetime sb n)
    (caCertificate sb) (caPrivateKey sb) = inr crlBytes →
  putFault b (writePathOf issuer id) = None →
  buildCRL b crlInfo true issuer [] id n w
  = (inr (time.Add (Now b) lifetime),
     set_storage <[writePathOf issuer id := crlBytes]> w).
Proof.
  intros Hdis Hdur Hca Hsign Hput.
  unfold buildCRL, Storage.Put. unfold writePathOf, sentinelTemplate in *.
  rewrite Hdis, Hdur. unfold_monad. simpl.
  rewrite Hca, Hsign, Hput. done.
Qed.

End Sentinel.

(** C6. With [Disable = true] and [forceNew = true], [buildCRL] ignores the
    revoked certificates it is given: it behaves as on the empty list; if it
    succeeds, the template it signed has no revoked certificate and the
    signed bytes are stored at the CRL's path; and it does succeed as soon
    as the expiry parses, the signing bundle is found, the empty template can
    be signed and the storage accepts the write. *)
Theorem buildCRL_disabled_signs_empty `{Platform} (b : backend)
    (crlInfo : crlConfig) (issuer : string)
    (revoked : list pkix.RevokedCertificate) (id : string) (n : Z)
    (w : World) :
  Disable crlInfo = true →
  buildCRL b crlInfo true issuer revoked id n w
  = buildCRL b crlInfo true issuer [] id n w
  ∧ (∀ nextUpdate w',
       buildCRL b crlInfo true issuer revoked id n w = (inr nextUpdate, w') →
       ∃ lifetime sb crlBytes,
         ParseDuration (Expiry crlInfo) = inr lifetime
         ∧ fetchCAInfoByIssuerId b issuer = inr sb
         ∧ CreateRevocationList (sentinelTemplate b lifetime sb n)
             (caCertificate sb) (caPrivateKey sb) = inr crlBytes
         ∧ putFault b (writePathOf issuer id) = None
         ∧ nextUpdate = time.Add (Now b) lifetime
         ∧ w' = set_storage <[writePathOf issuer id := crlBytes]> w)
  ∧ (∀ lifetime sb crlBytes,
       ParseDuration (Expiry crlInfo) = inr lifetime →
       fetchCAInfoByIssuerId b issuer = inr sb →
       CreateRevocationList (sentinelTemplate b lifetime sb n)
         (caCertificate sb) (caPrivateKey sb) = inr crlBytes →
       putFault b (writePathOf issuer id) = None →
       buildCRL b crlInfo true issuer revoked id n w
       = (inr (time.Add (Now b) lifetime),
          set_storage <[writePathOf issuer id := crlBytes]> w)).
Proof.
  intros Hdis. split; [|split].
  - by apply buildCRL_disabled_forced.
  - intros nextUpdate w'. rewrite buildCRL_disabled_forced by done.
    by apply buildCRL_sentinel_inv.
  - intros. rewrite buildCRL_disabled_forced by done.
    by eapply buildCRL_sentinel_run.
Qed.

Section OnDemoC6.
#[local] Existing Instance Demo.platform.

Lemma buildCRL_disabled_signs_empty_witness :
  Disable Demo.disabledConfig = true
  ∧ buildCRL Demo.disabledMount Demo.disabledConfig true "I1"
      [ {| pkix.SerialNumber := 17; pkix.RevocationTime := Demo.now |} ]
      "crl-0" 1 Demo.world0
    = (inr (time.Add Demo.now (72 * Demo.hour)%Z),
       set_storage <["crls/crl-0" := "CRL number=1 revoked=[]"]> Demo.world0).
Proof.
  split; [reflexivity|].
  destruct (buildCRL_disabled_signs_empty Demo.disabledMount
              Demo.disabledConfig "I1"
              [ {| pkix.SerialNumber := 17; pkix.RevocationTime := Demo.now |} ]
              "crl-0" 1 Demo.world0 eq_refl) as (_ & _ & Hrun).
  apply (Hrun (72 * Demo.hour)%Z
           {| caCertificate := Demo.certI1; caPrivateKey := "key-I1";
              RevocationSigAlg := 4 |}); reflexivity.
Defined.

End OnDemoC6.

(** ** Revocation: the steps that only read *)

#[local] Instance unchanged_preorder : PreOrder unchanged.
Proof. split; [done|]. intros w1 w2 w3; unfold unchanged; congruence. Qed.

Lemma run_unchanged {E A} (m : ME E A) (w : World) :
  stable unchanged m → ∃ r, m w = (r, w).
Proof.
  intros Hst. specialize (Hst w). unfold unchanged in Hst.
  destruct (m w) as [r w1]; simpl in *. subst. by exists r.
Qed.

Section RevokeReads.
Context `{Platform}.

Lemma revokeIssuers_unchanged b : stable unchanged (revokeIssuers b).
Proof. unfold revokeIssuers. repeat stable_step. Qed.

Lemma issuerCertStep_unchanged b serial cm issuer :
  stable unchanged (issuerCertStep b serial cm issuer).
Proof.
  unfold issuerCertStep.
  destruct (fetchCertBundleByIssuerId b issuer) as [e|[e [bundle|]]];
    repeat stable_step.
Qed.

Lemma loadIssuers_unchanged b serial issuers cm :
  stable unchanged (forM (issuerCertStep b serial) issuers cm).
Proof. stable_step. apply issuerCertStep_unchanged. Qed.

Lemma fetchOrLeave_unchanged b prefix serial :
  stable unchanged (fetchOrLeave b prefix serial).
Proof.
  intros w. unfold fetchOrLeave, fetchCertBySerial, Storage.Get.
  destruct (getFault b _) as [e|]; unfold_monad; simpl.
  - by destruct (isUserError e).
  - done.
Qed.

Lemma fetchOrLeave_found b prefix serial w :
  getFault b (prefix +:+ normalizeSerial serial) = None →
  fetchOrLeave b prefix serial w
  = (inr (storage w !! (prefix +:+ normalizeSerial serial)), w).
Proof.
  intros Hf. unfold fetchOrLeave, fetchCertBySerial, Storage.Get.
  rewrite Hf. done.
Qed.

(** When the certificate is stored, parses and expires within two seconds,
    the block that would revoke it leaves with the warning, or earlier with
    a storage error, and writes nothing. *)
Lemma revokeNew_expired b serial fromLease cm w certValue cert :
  storage w !! ("certs/" +:+ normalizeSerial serial) = Some certValue →
  ParseCertificate certValue = inr cert →
  (x509.NotAfter cert < time.Add (Now b) (2 * time.Second))%Z →
  ∃ r, revokeNew b serial fromLease cm w = (inl r, w)
       ∧ (getFault b ("certs/" +:+ normalizeSerial serial) = None →
          r = Return (Some (expiredWarning serial))).
Proof.
  intros Hcert Hparse Hexp. unfold revokeNew, bind.
  destruct (getFault b ("certs/" +:+ normalizeSerial serial)) as [e|] eqn:Hf.
  - unfold fetchOrLeave, fetchCertBySerial, Storage.Get. rewrite Hf.
    unfold fail. destruct (isUserError e); eexists; (split; [done|done]).
  - rewrite fetchOrLeave_found by done. rewrite Hcert, Hparse.
    unfold time.Before. rewrite bool_decide_eq_true_2 by done.
    eexists; split; [done|done].
Qed.

End RevokeReads.

(** C3. Revoking a certificate that is stored under [certs/], has no
    revocation entry yet and expires less than two seconds from now: the
    call writes nothing at all, whatever it returns; and when it gets as far
    as the certificate (the mount is not tainted, the issuers load and none
    of them has this serial, the storage can be read), it returns a
    success response carrying the "already expired" warning. *)
Theorem revoke_expired_certificate `{Platform} (b : backend) (serial : string)
    (fromLease : bool) (w : World) (certValue : string)
    (cert : x509.Certificate) :
  storage w !! (revokedPath +:+ normalizeSerial serial) = None →
  storage w !! ("certs/" +:+ normalizeSerial serial) = Some certValue →
  ParseCertificate certValue = inr cert →
  (x509.NotAfter cert < time.Add (Now b) (2 * time.Second))%Z →
  (revokeCert b serial fromLease w).2 = w
  ∧ (∀ issuers issuerIDCertMap,
       Tainted b = false →
       revokeIssuers b w = (inr issuers, w) →
       forM (issuerCertStep b serial) issuers ∅ w = (inr issuerIDCertMap, w) →
       getFault b (revokedPath +:+ normalizeSerial serial) = None →
       getFault b ("certs/" +:+ normalizeSerial serial) = None →
       revokeCert b serial fromLease w
       = (inr (Some (expiredWarning serial)), w)).
Proof.
  intros Hnew Hcert Hparse Hexp. split.
  - unfold revokeCert, returning.
    destruct (Tainted b); [done|]. unfold bind.
    destruct (run_unchanged (revokeIssuers b) w
                (revokeIssuers_unchanged b)) as [r1 ->].
    destruct r1 as [[?|?]|issuers]; [done..|].
    destruct (run_unchanged (forM (issuerCertStep b serial) issuers ∅) w
                (loadIssuers_unchanged b serial issuers ∅)) as [r2 ->].
    destruct r2 as [[?|?]|cm]; [done..|].
    destruct (getFault b (revokedPath +:+ normalizeSerial serial))
      as [e|] eqn:Hf.
    + unfold fetchOrLeave, fetchCertBySerial, Storage.Get. rewrite Hf.
      unfold fail. by destruct (isUserError e).
    + rewrite fetchOrLeave_found by done. rewrite Hnew.
      destruct (revokeNew_expired b serial fromLease cm w certValue cert)
        as (r & -> & _); [done..|].
      by destruct r.
  - intros issuers cm Htaint Hiss Hload Hf1 Hf2.
    unfold revokeCert, returning. rewrite Htaint. unfold bind.
    rewrite Hiss, Hload. rewrite fetchOrLeave_found by done. rewrite Hnew.
    destruct (revokeNew_expired b serial fromLease cm w certValue cert)
      as (r & -> & Hr); [done..|].
    by rewrite (Hr Hf2).
Qed.

Section OnDemoC3.
#[local] Existing Instance Demo.platform.

Lemma revoke_expired_certificate_witness :
  revokeCert Demo.mount "12" false Demo.world0
  = (inr (Some (expiredWarning "12")), Demo.world0).
Proof.
  destruct (revoke_expired_certificate Demo.mount "12" false Demo.world0
              "der-leaf2" Demo.leaf2) as [_ Hwarn].
  - reflexivity.
  - reflexivity.
  - reflexivity.
  - reflexivity.
  - apply (Hwarn ["I1"; "I2"; "I3"]
             {[ "I1" := Demo.certI1; "I2" := Demo.certI2;
                "I3" := Demo.certI3 ]}); reflexivity.
Defined.

End OnDemoC3.

(** ** Revocation: the serial of an issuer *)

Section SelfRevocation.
Context `{Platform}.

Lemma loadIssuers_refuses b serial pre issuer post certificate cm w :
  Forall (λ i, ∃ c, issuerLoads b i c) pre →
  issuerLoads b issuer certificate →
  colonSerialOf serial = serialFromCert certificate →
  ∃ j, j ∈ pre ++ [issuer]
       ∧ forM (issuerCertStep b serial) (pre ++ issuer :: post) cm w
         = (inl (Return (Some (selfRevocationError j))), w).
Proof.
  intros Hpre (e & bundle & Hfetch & Hparse) Hserial. revert cm.
  induction Hpre as [|i pre (c & ei & bi & Hfi & Hpi) _ IH]; intros cm; simpl.
  - exists issuer. split; [by apply elem_of_cons; left|].
    unfold bind, issuerCertStep. rewrite Hfetch, Hparse.
    by rewrite bool_decide_eq_true_2.
  - unfold bind at 1. unfold issuerCertStep at 1. rewrite Hfi, Hpi.
    case_bool_decide as Hi.
    + exists i. split; [by apply elem_of_cons; left|done].
    + unfold ret. destruct (IH (<[i := c]> cm)) as (j & Hj & Hrun).
      exists j. split; [by apply elem_of_cons; right|done].
Qed.

End SelfRevocation.

(** C10. When the serial, lowercased and with hyphens turned into colons, is
    the serial of the certificate of a known issuer (the issuers listed
    before it load as well), [revokeCert] answers with the user error that
    an issuer cannot be added to its own CRL, names an issuer with that
    serial, and leaves the world as it is.  The storage is not consulted:
    the statement holds for every world, in particular for one that already
    holds a revocation entry for the serial. *)
Theorem revoke_refuses_issuer_serial `{Platform} (b : backend)
    (serial : string) (fromLease : bool) (w : World)
    (pre post : list string) (issuer : string)
    (certificate : x509.Certificate) :
  Tainted b = false →
  revokeIssuers b w = (inr (pre ++ issuer :: post), w) →
  Forall (λ i, ∃ c, issuerLoads b i c) pre →
  issuerLoads b issuer certificate →
  colonSerialOf serial = serialFromCert certificate →
  ∃ j, j ∈ pre ++ [issuer]
       ∧ revokeCert b serial fromLease w
         = (inr (Some (selfRevocationError j)), w).
Proof.
  intros Htaint Hiss Hpre Hload Hserial.
  destruct (loadIssuers_refuses b serial pre issuer post certificate ∅ w)
    as (j & Hj & Hrun); [done..|].
  exists j. split; [done|].
  unfold revokeCert, returning. rewrite Htaint. unfold bind.
  by rewrite Hiss, Hrun.
Qed.

Section OnDemoC10.
#[local] Existing Instance Demo.platform.

Lemma revoke_refuses_issuer_serial_witness :
  let w := set_storage <["revoked/1a:2b" := "der-I3|"]> Demo.world0 in
  is_Some (storage w !! (revokedPath +:+ normalizeSerial "1A-2B"))
  ∧ ∃ j, j ∈ ["I1"; "I2"] ++ ["I3"]
         ∧ revokeCert Demo.mount "1A-2B" false w
           = (inr (Some (selfRevocationError j)), w).
Proof.
  split; [by eexists|].
  apply (revoke_refuses_issuer_serial Demo.mount "1A-2B" false _
           ["I1"; "I2"] [] "I3" Demo.certI3).
  - reflexivity.
  - reflexivity.
  - repeat constructor.
    + exists Demo.certI1, (Demo.entry "K1" "der-I1"), "der-I1". by split.
    + exists Demo.certI2, (Demo.entry "K1" "der-I2"), "der-I2". by split.
  - exists (Demo.entry "K3" "der-I3"), "der-I3". by split.
  - reflexivity.
Defined.

End OnDemoC10.

(** ** Revocation entries are neither added nor removed by a build *)

#[local] Instance sameRevokedKeys_preorder : PreOrder sameRevokedKeys.
Proof.
  split; [done|]. intros w1 w2 w3 H12 H23 k Hk.
  rewrite (H23 k Hk). by apply H12.
Qed.

Lemma stripPrefix_app p s r :
  Storage.stripPrefix p s = Some r → s = p +:+ r.
Proof.
  revert s. induction p as [|a p IH]; intros s; simpl.
  - by intros [= ->].
  - destruct s as [|c s]; [done|]. case_decide; [|done].
    intros Hs. subst. by rewrite (IH _ Hs).
Qed.

Lemma stripPrefix_app_eq p r : Storage.stripPrefix p (p +:+ r) = Some r.
Proof.
  induction p as [|a p IH]; simpl; [done|]. by rewrite decide_True.
Qed.

Lemma sameRevokedKeys_builder w f : sameRevokedKeys w (set_builder f w).
Proof. done. Qed.

Lemma sameRevokedKeys_put_other w k v :
  ¬ underRevoked k → sameRevokedKeys w (set_storage <[k := v]> w).
Proof.
  intros Hk k' Hk'. simpl. rewrite lookup_insert_ne; [done|].
  intros ->. done.
Qed.

Lemma sameRevokedKeys_put_present w k v :
  is_Some (storage w !! k) → sameRevokedKeys w (set_storage <[k := v]> w).
Proof.
  intros Hk k' Hk'. simpl. destruct (decide (k = k')) as [->|Hne].
  - rewrite lookup_insert_eq. split; [done|by eexists].
  - by rewrite lookup_insert_ne.
Qed.

Lemma sameRevokedKeys_delete_other w k :
  ¬ underRevoked k → sameRevokedKeys w (set_storage (delete k) w).
Proof.
  intros Hk k' Hk'. simpl. rewrite lookup_delete_ne; [done|].
  intros ->. done.
Qed.

Lemma crls_not_underRevoked id : ¬ underRevoked ("crls/" +:+ id).
Proof. intros [r Hr]. done. Qed.

Section RevokedKeys.
Context `{Platform}.
Hypothesis legacy_path : ¬ underRevoked legacyCRLPath.

Lemma revokedEntryStep_sameRevokedKeys b cm sm acc serial :
  stable sameRevokedKeys (revokedEntryStep b cm sm acc serial).
Proof.
  intros w. unfold revokedEntryStep. destruct acc as [un rm].
  unfold Storage.Get, Storage.Put.
  destruct (getFault b _) as [e|]; unfold_monad; simpl; [by destruct e as [[] ?]|].
  destruct (storage w !! (revokedPath +:+ serial)) as [value|] eqn:Hget;
    simpl; [|done].
  destruct (empty value); simpl; [done|].
  destruct (DecodeJSON value) as [e|revInfo]; simpl; [by destruct e as [[] ?]|].
  destruct (ParseCertificate _) as [e|revokedCert]; simpl;
    [by destruct e as [[] ?]|].
  destruct (revokedCertIsIssuer sm revokedCert); simpl; [done|].
  destruct (_ && _); simpl; [done|].
  destruct (associateRevokedCertWithIsssuer revInfo revokedCert cm)
    as [revInfo' [|]]; simpl; [|done].
  destruct (StorageEntryJSON revInfo') as [e|value']; simpl;
    [by destruct e as [[] ?]|].
  destruct (putFault b _) as [e|]; simpl; [by destruct e as [[] ?]|].
  apply sameRevokedKeys_put_present. by rewrite Hget.
Qed.

Lemma buildCRLs_sameRevokedKeys b forceNew :
  stable sameRevokedKeys (buildCRLs b forceNew).
Proof.
  apply stable_buildCRLs; try exact _; try done.
  - intros. apply sameRevokedKeys_put_other, crls_not_underRevoked.
  - intros. by apply sameRevokedKeys_put_other.
  - intros. apply sameRevokedKeys_delete_other, crls_not_underRevoked.
  - intros. apply revokedEntryStep_sameRevokedKeys.
Qed.

Lemma rebuild_sameRevokedKeys b forceNew :
  stable sameRevokedKeys (rebuild b forceNew).
Proof.
  unfold rebuild, _doRebuild, LoadForceRebuild, CompareAndSwapForceRebuild.
  repeat stable_step; try done; apply buildCRLs_sameRevokedKeys.
Qed.

End RevokedKeys.

Section AlreadyRevoked.
Context `{Platform}.

Lemma finishRevoke_sameRevokedKeys b revInfo :
  ¬ underRevoked legacyCRLPath →
  stable sameRevokedKeys (finishRevoke b revInfo).
Proof.
  intros Hlegacy. unfold finishRevoke.
  stable_step; [stable_by stable_getConfigWithUpdate|].
  stable_step; [|stable_step].
  destruct (negb (AutoRebuild a)); [|stable_step].
  intros w. pose proof (rebuild_sameRevokedKeys Hlegacy b false w) as Hst.
  destruct (rebuild b false w) as [[e|[]] w1]; simpl in *; [|done].
  by destruct (isUserError e).
Qed.

Lemma finishRevoke_run b revInfo w cfg w1 w2 :
  getConfigWithUpdate b w = (inr cfg, w1) →
  (if AutoRebuild cfg then w2 = w1 else rebuild b false w1 = (inr tt, w2)) →
  finishRevoke b revInfo w = (inr (Some (revokedResponse revInfo)), w2).
Proof.
  intros Hcfg Hbuild. unfold finishRevoke. unfold_monad. rewrite Hcfg.
  destruct (AutoRebuild cfg); simpl.
  - by subst.
  - by rewrite Hbuild.
Qed.

Lemma finishRevoke_answers b revInfo w resp w' :
  returning (finishRevoke b revInfo) w = (inr resp, w') →
  resp = Some (revokedResponse revInfo)
  ∨ ∃ msg, resp = Some (logical.ErrorResponse msg).
Proof.
  unfold finishRevoke. unfold_monad.
  destruct (getConfigWithUpdate b w) as [[e|cfg] w1]; simpl;
    [by destruct (errKind e)|].
  destruct (AutoRebuild cfg); simpl.
  - intros [= <- <-]. by left.
  - destruct (rebuild b false w1) as [[e|[]] w2]; simpl.
    + destruct (isUserError e); [|done]. intros [= <- <-]. right. by eexists.
    + intros [= <- <-]. by left.
Qed.

Lemma revokeCert_already_revoked b serial fromLease w issuers cm value revInfo :
  Tainted b = false →
  revokeIssuers b w = (inr issuers, w) →
  forM (issuerCertStep b serial) issuers ∅ w = (inr cm, w) →
  getFault b (revokedPath +:+ normalizeSerial serial) = None →
  storage w !! (revokedPath +:+ normalizeSerial serial) = Some value →
  DecodeJSON value = inr revInfo →
  revokeCert b serial fromLease w = returning (finishRevoke b revInfo) w.
Proof.
  intros Htaint Hiss Hload Hf Hentry Hdec.
  unfold revokeCert, returning. rewrite Htaint. unfold bind at 1.
  rewrite Hiss. unfold bind at 1. rewrite Hload. unfold bind at 1.
  rewrite fetchOrLeave_found by done. rewrite Hentry.
  unfold bind at 1. rewrite Hdec. done.
Qed.

End AlreadyRevoked.

(** C8. Revoking a serial that already has a (decodable) revocation entry,
    on a mount that gets as far as the lookup: the call is exactly the tail
    of [revokeCert] run on the decoded entry, so the stored certificate is
    neither loaded nor checked for expiry and no entry is written by
    [revokeCert] itself; the serials that have a revocation entry are the
    same before and after, however the call ends; when the configuration
    loads and the rebuild (if one is due) succeeds, the call succeeds and
    answers with the stored revocation time; and no successful answer
    carries anything else, short of a user-facing error from the rebuild. *)
Theorem revoke_already_revoked `{Platform} (b : backend) (serial : string)
    (fromLease : bool) (w : World) (issuers : list string)
    (issuerIDCertMap : gmap string x509.Certificate) (value : string)
    (revInfo : revocationInfo) :
  ¬ underRevoked legacyCRLPath →
  Tainted b = false →
  revokeIssuers b w = (inr issuers, w) →
  forM (issuerCertStep b serial) issuers ∅ w = (inr issuerIDCertMap, w) →
  getFault b (revokedPath +:+ normalizeSerial serial) = None →
  storage w !! (revokedPath +:+ normalizeSerial serial) = Some value →
  DecodeJSON value = inr revInfo →
  revokeCert b serial fromLease w = returning (finishRevoke b revInfo) w
  ∧ sameRevokedKeys w (revokeCert b serial fromLease w).2
  ∧ (∀ cfg w1 w2,
       getConfigWithUpdate b w = (inr cfg, w1) →
       (if AutoRebuild cfg then w2 = w1
        else rebuild b false w1 = (inr tt, w2)) →
       revokeCert b serial fromLease w
       = (inr (Some (revokedResponse revInfo)), w2))
  ∧ (∀ resp w',
       revokeCert b serial fromLease w = (inr resp, w') →
       resp = Some (revokedResponse revInfo)
       ∨ ∃ msg, resp = Some (logical.ErrorResponse msg)).
Proof.
  intros Hlegacy Htaint Hiss Hload Hf Hentry Hdec.
  assert (revokeCert b serial fromLease w
          = returning (finishRevoke b revInfo) w) as Heq
    by (by eapply revokeCert_already_revoked).
  split; [exact Heq|]. rewrite Heq. split; [|split].
  - apply stable_returning. by apply finishRevoke_sameRevokedKeys.
  - intros cfg w1 w2 Hcfg Hbuild. unfold returning.
    by rewrite (finishRevoke_run b revInfo w cfg w1 w2).
  - intros resp w'. apply finishRevoke_answers.
Qed.

Section OnDemoC8.
#[local] Existing Instance Demo.platform.

(** The first revocation of [11] stores its entry and builds CRL number 1;
    the second one answers with the stored time. *)
Lemma revoke_already_revoked_witness :
  let w1 := (revokeCert Demo.mount "11" false Demo.world0).2 in
  storage w1 !! "revoked/11" = Some "der-leaf1|I1"
  ∧ (revokeCert Demo.mount "11" false w1).1
    = inr (Some (logical.Data 1700000000
                   (Some (pretty Demo.now))))
  ∧ sameRevokedKeys w1 (revokeCert Demo.mount "11" false w1).2.
Proof.
  set (w1 := (revokeCert Demo.mount "11" false Demo.world0).2).
  simpl.
  destruct (revoke_already_revoked Demo.mount "11" false w1
              ["I1"; "I2"; "I3"]
              {[ "I1" := Demo.certI1; "I2" := Demo.certI2;
                 "I3" := Demo.certI3 ]}
              "der-leaf1|I1"
              {| CertificateBytes := "der-leaf1";
                 RevocationTime := time.Unix Demo.now;
                 RevocationTimeUTC := Demo.now;
                 CertificateIssuer := "I1" |})
    as (_ & Hkeys & Hrun & _).
  - intros [r Hr]. done.
  - reflexivity.
  - reflexivity.
  - reflexivity.
  - reflexivity.
  - reflexivity.
  - reflexivity.
  - split; [reflexivity|]. split; [|exact Hkeys].
    rewrite (Hrun (config (builder w1)) w1 (rebuild Demo.mount false w1).2).
    + reflexivity.
    + reflexivity.
    + simpl. vm_compute. reflexivity.
Defined.

End OnDemoC8.

(** ** Ranging over a map, continued *)

Section Ranging.
Context `{Platform}.

Lemma elem_of_rangeMap_1 {A} (m : gmap string A) k v :
  (k, v) ∈ rangeMap m → m !! k = Some v.
Proof.
  unfold rangeMap. rewrite list_elem_of_omap. intros (k' & _ & Hk').
  destruct (m !! k') as [v'|] eqn:Hm; simpl in Hk'; [|done].
  by simplify_eq.
Qed.

Lemma elem_of_rangeMap_2 {A} (m : gmap string A) k v :
  rangeVisitsAll → m !! k = Some v → (k, v) ∈ rangeMap m.
Proof.
  intros Hperm Hm. unfold rangeMap. rewrite list_elem_of_omap.
  exists k. split; [|by rewrite Hm].
  rewrite (Hperm _). rewrite list_elem_of_fmap. exists (k, v).
  split; [done|]. by apply elem_of_map_to_list.
Qed.

End Ranging.

(** ** Grouping the issuers into classes *)

Section Classes.
Context `{Platform}.

Lemma inCell_appendAt ks k s i subjects :
  subjects = default ∅ (ks !! k) →
  inCell (<[k := appendAt s i subjects]> ks) k s i.
Proof.
  intros ->. exists (appendAt s i (default ∅ (ks !! k))),
    (default [] (default ∅ (ks !! k) !! s) ++ [i]).
  split; [by rewrite lookup_insert_eq|].
  split; [unfold appendAt; by rewrite lookup_insert_eq|].
  apply elem_of_app. right. by apply elem_of_cons; left.
Qed.

Lemma inCell_appendAt_mono ks k s i k0 s0 i0 :
  inCell ks k0 s0 i0 →
  inCell (<[k := appendAt s i (default ∅ (ks !! k))]> ks) k0 s0 i0.
Proof.
  intros (subjects & l & Hk & Hs & Hi). unfold inCell.
  destruct (decide (k = k0)) as [->|Hne].
  - rewrite lookup_insert_eq, Hk. simpl.
    destruct (decide (s = s0)) as [->|Hne'].
    + eexists _, _. split; [done|]. unfold appendAt.
      rewrite lookup_insert_eq, Hs. simpl. split; [done|].
      apply elem_of_app. by left.
    + eexists _, l. split; [done|]. unfold appendAt.
      by rewrite lookup_insert_ne.
  - exists subjects, l. by rewrite lookup_insert_ne.
Qed.

Lemma cellsSound_appendAt b ks k s i :
  cellsSound b ks → classOf b i = Some (k, s) →
  cellsSound b (<[k := appendAt s i (default ∅ (ks !! k))]> ks).
Proof.
  intros Hsound Hcls k0 subjects s0 l i0 Hk Hs Hi.
  destruct (decide (k = k0)) as [->|Hne].
  - rewrite lookup_insert_eq in Hk. simplify_eq. unfold appendAt in Hs.
    destruct (decide (s = s0)) as [->|Hne'].
    + rewrite lookup_insert_eq in Hs. simplify_eq.
      apply elem_of_app in Hi as [Hi|Hi].
      * destruct (ks !! k0) as [subjects|] eqn:Hks; simpl in Hi.
        -- destruct (subjects !! s0) as [l|] eqn:Hl; simpl in Hi.
           ++ by eapply Hsound.
           ++ by apply elem_of_nil in Hi.
        -- rewrite lookup_empty in Hi. by apply elem_of_nil in Hi.
      * apply elem_of_cons in Hi as [->|Hi]; [done|].
        by apply elem_of_nil in Hi.
    + rewrite lookup_insert_ne in Hs by done.
      destruct (ks !! k0) as [subjects|] eqn:Hks; simpl in Hs.
      * by eapply Hsound.
      * by rewrite lookup_empty in Hs.
  - rewrite lookup_insert_ne in Hk by done. by eapply Hsound.
Qed.

Lemma collectIssuer_cells b em cm ks issuer w em' cm' ks' w' :
  collectIssuer b (em, cm, ks) issuer w = (inr (em', cm', ks'), w') →
  cellsSound b ks →
  cellsSound b ks'
  ∧ (∀ k s i, inCell ks k s i → inCell ks' k s i)
  ∧ (∀ cls, classOf b issuer = Some cls → inCell ks' cls.1 cls.2 issuer).
Proof.
  unfold collectIssuer, classOf. unfold_monad.
  destruct (fetchCertBundleByIssuerId b issuer) as [e|[thisEntry bundle]]
    eqn:Hfetch; simpl; [by destruct (errKind e)|].
  destruct (empty (KeyID thisEntry)) eqn:Hkey; simpl.
  { intros [= <- <- <- <-] Hs. done. }
  destruct (usageCRLSigning thisEntry) eqn:Huse; simpl.
  2:{ intros [= <- <- <- <-] Hs. done. }
  destruct (GetCertificate thisEntry) as [e|thisCert] eqn:Hcert; simpl;
    [by destruct (errKind e)|].
  intros [= <- <- <- <-] Hs. split; [|split].
  - apply cellsSound_appendAt; [done|]. unfold classOf.
    by rewrite Hfetch, Hkey, Huse, Hcert.
  - intros. by apply inCell_appendAt_mono.
  - intros cls [= <-]. simpl. by apply inCell_appendAt.
Qed.

Lemma collectIssuers_cells b issuers acc w acc' w' :
  forM (collectIssuer b) issuers acc w = (inr acc', w') →
  cellsSound b acc.2 →
  cellsSound b acc'.2
  ∧ (∀ k s i, inCell acc.2 k s i → inCell acc'.2 k s i)
  ∧ (∀ i cls, i ∈ issuers → classOf b i = Some cls →
       inCell acc'.2 cls.1 cls.2 i).
Proof.
  revert acc w. induction issuers as [|issuer issuers IH];
    intros [[em cm] ks] w Hrun Hs.
  - apply ret_inr in Hrun as [<- _]. split; [done|]. split; [done|].
    intros i cls Hi. by apply elem_of_nil in Hi.
  - apply forM_cons_inr in Hrun as ([[em1 cm1] ks1] & w1 & Hstep & Hrest).
    destruct (collectIssuer_cells _ _ _ _ _ _ _ _ _ _ Hstep Hs)
      as (Hs1 & Hmono1 & Hcov1).
    destruct (IH _ _ Hrest Hs1) as (Hs' & Hmono' & Hcov').
    split; [done|]. split.
    + intros k s i Hi. by apply Hmono', Hmono1.
    + intros i cls Hi Hcls. apply elem_of_cons in Hi as [->|Hi].
      * by apply Hmono', Hcov1.
      * by apply Hcov'.
Qed.

Lemma cellsSound_empty b : cellsSound b ∅.
Proof. intros k subjects s l i Hk. by rewrite lookup_empty in Hk. Qed.

(** ** One class: every member is mapped to the class's CRL *)

Lemma foldl_insert_lookup (l : list string) (id : string)
    (m : gmap string string) (i : string) :
  foldl (λ m issuerId, <[issuerId := id]> m) m l !! i
  = if decide (i ∈ l) then Some id else m !! i.
Proof.
  revert m. induction l as [|x l IH]; intros m.
  - case_decide as Hi; [by apply elem_of_nil in Hi|done].
  - cbn [foldl]. rewrite IH.
    destruct (decide (i ∈ l)) as [Hi|Hi].
    + rewrite decide_True; [done|]. by apply elem_of_cons; right.
    + destruct (decide (i = x)) as [->|Hne].
      * rewrite lookup_insert_eq. rewrite decide_True; [done|].
        by apply elem_of_cons; left.
      * rewrite lookup_insert_ne by done. rewrite decide_False; [done|].
        intros [?|?]%elem_of_cons; done.
Qed.

Lemma buildClass_index b g forceNew config un rm c l w c1 w1 :
  buildClass b g forceNew config un rm c l w = (inr c1, w1) →
  (l = [] ∧ c1 = c)
  ∨ ∃ id, ∀ i, IssuerIDCRLMap c1 !! i
               = if decide (i ∈ l) then Some id else IssuerIDCRLMap c !! i.
Proof.
  unfold buildClass. destruct l as [|first rest].
  { intros [<- _]%ret_inr. by left. }
  intros Hrun. right.
  apply bind_inr in Hrun
    as ([[[revokedCerts representative] crlIdentifier] crlIdIssuer] & w2
        & _ & Hrun).
  apply bind_inr in Hrun as ([id c2] & w3 & Hmint & Hrun).
  apply bind_inr in Hrun as (nextUpdate & w4 & _ & Hrun).
  apply ret_inr in Hrun as [<- _]. exists id. intros i.
  unfold with_CRLExpirationMap, with_CRLNumberMap, with_IssuerIDCRLMap.
  cbn [IssuerIDCRLMap]. rewrite foldl_insert_lookup.
  destruct (decide (i ∈ first :: rest)); [done|].
  destruct (empty crlIdentifier).
  - apply bind_inr in Hmint as (w5 & w6 & _ & Hmint).
    apply bind_inr in Hmint as ([] & w7 & _ & Hmint).
    apply ret_inr in Hmint as [[= <- <-] _]. done.
  - apply ret_inr in Hmint as [[= <- <-] _]. done.
Qed.

Lemma buildClass_shareCRL b g forceNew config un rm c l w c1 w1 A B :
  buildClass b g forceNew config un rm c l w = (inr c1, w1) →
  (A ∈ l ↔ B ∈ l) →
  (A ∈ l → shareCRL A B c1) ∧ (shareCRL A B c → shareCRL A B c1).
Proof.
  intros Hrun Hboth.
  destruct (buildClass_index _ _ _ _ _ _ _ _ _ _ _ Hrun)
    as [[-> ->]|[id Hid]].
  { split; [|done]. intros HA. by apply elem_of_nil in HA. }
  unfold shareCRL. rewrite !Hid.
  destruct (decide (A ∈ l)) as [HA|HA].
  - rewrite decide_True by (by apply Hboth). split; intros; by exists id.
  - rewrite decide_False by (by rewrite <- Hboth). split; [done|done].
Qed.

End Classes.

(** ** The stages of a successful build *)

Section Trace.
Context `{Platform}.

Lemma augmentWithRevokedIssuers_unchanged em cm rm :
  stable unchanged (augmentWithRevokedIssuers em cm rm).
Proof. apply stable_augmentWithRevokedIssuers. exact _. Qed.

Lemma buildCRLs_trace b forceNew w w' :
  buildRuns b forceNew w →
  buildCRLs b forceNew w = (inr tt, w') →
  buildTrace b forceNew w w'.
Proof.
  intros (g & w0 & Hg & Hruns) Hrun. unfold buildCRLs in Hrun.
  apply bind_inr in Hrun as (g' & w0' & Hg'%wrapErr_inr & Hrun).
  rewrite Hg in Hg'. injection Hg' as <- <-. rewrite Hruns in Hrun.
  apply bind_inr in Hrun as ([issuers wasLegacy] & w1 & Hlist & Hrun).
  apply bind_inr in Hrun as (config & w2 & Hconfig%wrapErr_inr & Hrun).
  apply lift_inr in Hconfig as [Hconfig <-].
  apply bind_inr in Hrun as ([[em cm] ks] & w3 & Hcollect & Hrun).
  apply bind_inr in Hrun as (c & w4 & Hindex%wrapErr_inr & Hrun).
  apply bind_inr in Hrun as ([un rm] & w5 & Hrevoked%wrapErr_inr & Hrun).
  apply bind_inr in Hrun as (rm' & w6 & Haug%wrapErr_inr & Hrun).
  destruct c as [c|]; [|done].
  apply bind_inr in Hrun as (c1 & w7 & Hclasses & Hrun).
  apply bind_inr in Hrun as ([] & w8 & Hdel & Hrun).
  assert (w6 = w5) as ->.
  { pose proof (augmentWithRevokedIssuers_unchanged em cm rm w5) as Hst.
    rewrite Haug in Hst. exact Hst. }
  assert (issuers = buildIssuers b ∧ wasLegacy = useLegacyBundleCaStorage b
          ∧ w1 = w0
          ∧ (useLegacyBundleCaStorage b = false →
             ∃ issuers, listIssuers b = inr issuers)) as (-> & -> & -> & Hl).
  { unfold buildIssuers. destruct (useLegacyBundleCaStorage b); simpl in *.
    - apply ret_inr in Hlist as [[= <- <-] <-]. done.
    - apply bind_inr in Hlist as (l & w9 & Hl%wrapErr_inr & Hlist).
      apply lift_inr in Hl as [Hl <-]. apply ret_inr in Hlist as [[= <- <-] <-].
      rewrite Hl. split; [done|]. split; [done|]. split; [done|]. by exists l. }
  apply (BuildTrace b forceNew w w' g config em cm ks c un rm rm' c1
           w0 w3 w4 w5 w7 w8); try done.
  destruct (useLegacyBundleCaStorage b); simpl in Hrun.
  - by apply ret_inr in Hrun as [_ <-].
  - by apply wrapErr_inr in Hrun.
Qed.

End Trace.

(** ** Equivalent issuers *)

Section Equivalence.
Context `{Platform}.

Lemma buildClasses_shareCRL b g forceNew config un rm ks c w c1 w1 A B cls :
  rangeVisitsAll →
  cellsSound b ks →
  inCell ks cls.1 cls.2 A →
  inCell ks cls.1 cls.2 B →
  classOf b A = Some cls →
  classOf b B = Some cls →
  buildClasses b g forceNew config un rm ks c w = (inr c1, w1) →
  shareCRL A B c1.
Proof.
  intros Hperm Hsound (subjects & l & Hk & Hs & HA) (subjects' & l' & Hk' & Hs' & HB)
    HclsA HclsB Hrun.
  destruct cls as [k s]; simpl in *. simplify_eq.
  assert (∀ k0 subjects0 s0 l0,
            ks !! k0 = Some subjects0 → subjects0 !! s0 = Some l0 →
            (A ∈ l0 ↔ B ∈ l0)) as Hboth.
  { intros k0 subjects0 s0 l0 Hk0 Hs0. split; intros Hin.
    - pose proof (Hsound _ _ _ _ _ Hk0 Hs0 Hin) as Hc.
      rewrite HclsA in Hc. by simplify_eq.
    - pose proof (Hsound _ _ _ _ _ Hk0 Hs0 Hin) as Hc.
      rewrite HclsB in Hc. by simplify_eq. }
  unfold buildClasses in Hrun.
  eapply (forM_establish _ (shareCRL A B) (λ p, p = (k, subjects)));
    [| |exact Hrun].
  - intros c2 [k0 subjects0] w2 c3 w3 Hin Hinner.
    apply elem_of_rangeMap_1 in Hin. simpl in Hinner. split.
    + intros [= -> ->].
      eapply (forM_establish _ (shareCRL A B) (λ q, q = (s, l)));
        [| |exact Hinner].
      * intros c4 [s0 l0] w4 c5 w5 Hin0 Hclass.
        apply elem_of_rangeMap_1 in Hin0. simpl in Hclass.
        destruct (buildClass_shareCRL _ _ _ _ _ _ _ _ _ _ _ A B Hclass)
          as [Hhit Hkeep]; [by eapply Hboth|].
        split; [|done]. intros [= -> ->]. by apply Hhit.
      * exists (s, l). split; [|done]. by apply elem_of_rangeMap_2.
    + eapply (forM_preserve _ (shareCRL A B)); [|exact Hinner].
      intros c4 [s0 l0] w4 c5 w5 Hin0 Hclass.
      apply elem_of_rangeMap_1 in Hin0. simpl in Hclass.
      destruct (buildClass_shareCRL _ _ _ _ _ _ _ _ _ _ _ A B Hclass)
        as [_ Hkeep]; [by eapply Hboth|done].
  - exists (k, subjects). split; [|done]. by apply elem_of_rangeMap_2.
Qed.

Lemma pruneIssuers_lookup issuers c i :
  i ∈ issuers →
  IssuerIDCRLMap (pruneIssuers issuers c) !! i = IssuerIDCRLMap c !! i.
Proof.
  intros Hi. unfold pruneIssuers. simpl.
  rewrite map_lookup_filter. destruct (IssuerIDCRLMap c !! i) as [id|]; [|done].
  simpl. by rewrite option_guard_True.
Qed.

Lemma deleteOrphans_localCRL b c w r w' :
  deleteOrphans b c w = (r, w') → localCRL w' = localCRL w.
Proof.
  intros Hrun.
  assert (stable (λ w w', localCRL w' = localCRL w) (deleteOrphans b c))
    as Hst.
  { assert (PreOrder (λ w w' : World, localCRL w' = localCRL w)).
    { split; [done|]. intros ? ? ?; congruence. }
    unfold deleteOrphans, Storage.Delete. repeat stable_step; done. }
  specialize (Hst w). by rewrite Hrun in Hst.
Qed.

End Equivalence.

(** C2 as stated fails when the CRL is disabled: the build returns success
    without touching the index, in which [I1] has a CRL and the equivalent
    issuer [I2] has none. *)
Lemma equivalent_issuers_unmapped_when_disabled :
  let H := Demo.platform in
  let r := buildCRLs Demo.disabledMount false Demo.worldI1 in
  r.1 = inr tt
  ∧ "I1" ∈ buildIssuers Demo.disabledMount
  ∧ "I2" ∈ buildIssuers Demo.disabledMount
  ∧ classOf Demo.disabledMount "I1" = Some ("K1", "CN=A")
  ∧ classOf Demo.disabledMount "I2" = Some ("K1", "CN=A")
  ∧ indexCRL r.2 "I1" = Some "crl-0"
  ∧ indexCRL r.2 "I2" = None.
Proof.
  simpl. repeat split; try reflexivity.
  - apply elem_of_cons; by left.
  - apply elem_of_cons; right. apply elem_of_cons; by left.
Qed.

(** C2, amended. After a successful [buildCRLs] that is not cut short by a
    disabled CRL, two listed issuers of the same class (same non-empty key
    id, same raw subject, both allowed to sign CRLs) are mapped to the same
    CRL by the persisted index; outside the legacy mode both are mapped. *)
Theorem equivalent_issuers_share_crl `{Platform} (b : backend)
    (forceNew : bool) (w w' : World) (A B : string) (cls : string * string) :
  rangeVisitsAll →
  buildRuns b forceNew w →
  buildCRLs b forceNew w = (inr tt, w') →
  A ∈ buildIssuers b →
  B ∈ buildIssuers b →
  classOf b A = Some cls →
  classOf b B = Some cls →
  indexCRL w' A = indexCRL w' B
  ∧ (useLegacyBundleCaStorage b = false →
     ∃ id, indexCRL w' A = Some id ∧ indexCRL w' B = Some id).
Proof.
  intros Hperm Hruns Hrun HA HB HclsA HclsB.
  destruct (buildCRLs_trace b forceNew w w' Hruns Hrun)
    as [g config em cm ks c0 un rm rm' c1 w0 w1 w2 w3 w4 w5
        _ _ _ Hcollect _ _ _ Hclasses Hdel Hpersist].
  destruct (useLegacyBundleCaStorage b) eqn:Hlegacy.
  { split; [|done]. unfold buildIssuers in HA, HB. rewrite Hlegacy in HA, HB.
    simpl in HA, HB. apply list_elem_of_singleton in HA, HB. by subst. }
  destruct (collectIssuers_cells b _ _ _ _ _ Hcollect (cellsSound_empty b))
    as (Hsound & _ & Hcov). simpl in *.
  assert (shareCRL A B c1) as (id & HidA & HidB).
  { eapply (buildClasses_shareCRL b g forceNew config un rm' ks c0 w3 c1 w4
              A B cls); try done.
    - by apply Hcov.
    - by apply Hcov. }
  assert (∃ id, indexCRL w' A = Some id ∧ indexCRL w' B = Some id) as Hid.
  { exists id. unfold setLocalCRLConfig in Hpersist.
    destruct (localCRLSetFault b); [done|].
    unfold modify in Hpersist. injection Hpersist as <-.
    unfold indexCRL, set_localCRL. cbn [localCRL].
    by rewrite !pruneIssuers_lookup. }
  split; [|done]. destruct Hid as (id' & -> & ->). done.
Qed.

Section OnDemoC2.
#[local] Existing Instance Demo.platform.

Lemma equivalent_issuers_share_crl_witness :
  let w' := (buildCRLs Demo.mount false Demo.world0).2 in
  ∃ id, indexCRL w' "I1" = Some id ∧ indexCRL w' "I2" = Some id.
Proof.
  simpl.
  destruct (equivalent_issuers_share_crl Demo.mount false Demo.world0
              (buildCRLs Demo.mount false Demo.world0).2 "I1" "I2"
              ("K1", "CN=A")) as [_ Hboth].
  - intros l. reflexivity.
  - exists (config (builder Demo.world0)),
      (getConfigWithUpdate Demo.mount Demo.world0).2.
    split; reflexivity.
  - vm_compute. reflexivity.
  - apply elem_of_cons; by left.
  - apply elem_of_cons; right. apply elem_of_cons; by left.
  - reflexivity.
  - reflexivity.
  - apply Hboth. reflexivity.
Defined.

End OnDemoC2.

(** ** Associating a revoked certificate with its issuer, continued *)

Section Association.
Context `{Platform}.

Lemma associate_found revInfo cert cm revInfo' :
  associateRevokedCertWithIsssuer revInfo cert cm = (revInfo', true) →
  ∃ J ic, revInfo' = with_CertificateIssuer J revInfo
          ∧ cm !! J = Some ic ∧ issuedBy cert ic = true.
Proof.
  unfold associateRevokedCertWithIsssuer.
  destruct (find _ _) as [[J ic]|] eqn:Hfind; [|done].
  intros [= <-]. apply find_some in Hfind as [Hin Hok].
  exists J, ic. split; [done|]. split; [|done].
  apply elem_of_rangeMap_1. by apply list_elem_of_In.
Qed.

Lemma associate_not_found revInfo cert cm revInfo' :
  associateRevokedCertWithIsssuer revInfo cert cm = (revInfo', false) →
  revInfo' = revInfo.
Proof.
  unfold associateRevokedCertWithIsssuer.
  destruct (find _ _) as [[J ic]|]; [done|]. by intros [= <-].
Qed.

Lemma find_is_Some {A} (f : A → bool) (l : list A) x :
  x ∈ l → f x = true → is_Some (find f l).
Proof.
  induction 1 as [x l|x y l _ IH]; intros Hx; simpl.
  - rewrite Hx. by eexists.
  - destruct (f y); [by eexists|by apply IH].
Qed.

(** With an issuer of the certificate in the map, one is found. *)
Lemma associate_finds revInfo cert cm J ic :
  rangeVisitsAll →
  cm !! J = Some ic → issuedBy cert ic = true →
  (associateRevokedCertWithIsssuer revInfo cert cm).2 = true.
Proof.
  intros Hperm HJ Hok. unfold associateRevokedCertWithIsssuer.
  destruct (find_is_Some (λ p, issuedBy cert p.2) (rangeMap cm) (J, ic))
    as [[J' ic'] ->]; [|done..].
  by apply elem_of_rangeMap_2.
Qed.

End Association.

(** ** An associated entry stays associated *)

Section KeepsAssociation.
Context `{Platform} (b : backend) (key certValue : string).
Hypothesis round_trip : jsonRoundTrip.
Hypothesis key_revoked : underRevoked key.
Hypothesis legacy_path : ¬ underRevoked legacyCRLPath.

#[local] Instance keepsAssociation_preorder :
  PreOrder (keepsAssociation b key certValue).
Proof.
  split; [by intros w Hw|]. intros w1 w2 w3 H12 H23 Hw. by apply H23, H12.
Qed.

Lemma keepsAssociation_same w w' :
  storage w' !! key = storage w !! key →
  keepsAssociation b key certValue w w'.
Proof. intros Heq (v & Hv & Hok). exists v. by rewrite Heq. Qed.

Lemma keepsAssociation_put_other w k v :
  k ≠ key → keepsAssociation b key certValue w (set_storage <[k := v]> w).
Proof.
  intros Hne. apply keepsAssociation_same. simpl.
  by rewrite lookup_insert_ne.
Qed.

Lemma keepsAssociation_delete_other w k :
  k ≠ key → keepsAssociation b key certValue w (set_storage (delete k) w).
Proof.
  intros Hne. apply keepsAssociation_same. simpl.
  by rewrite lookup_delete_ne.
Qed.

Lemma crls_ne_key id : "crls/" +:+ id ≠ key.
Proof. intros <-. by apply (crls_not_underRevoked id). Qed.

Lemma legacy_ne_key : legacyCRLPath ≠ key.
Proof. intros Heq. apply legacy_path. by rewrite Heq. Qed.

Lemma revokedEntryStep_keepsAssociation cm sm acc serial :
  certsSound b cm →
  stable (keepsAssociation b key certValue)
    (revokedEntryStep b cm sm acc serial).
Proof.
  intros Hcm w. unfold revokedEntryStep. destruct acc as [un rm].
  unfold Storage.Get, Storage.Put.
  destruct (getFault b _) as [e|]; unfold_monad; simpl;
    [by destruct e as [[] ?]|].
  destruct (storage w !! (revokedPath +:+ serial)) as [value|] eqn:Hget;
    simpl; [|done].
  destruct (empty value); simpl; [done|].
  destruct (DecodeJSON value) as [e|revInfo] eqn:Hdec; simpl;
    [by destruct e as [[] ?]|].
  destruct (ParseCertificate _) as [e|revokedCert] eqn:Hparse; simpl;
    [by destruct e as [[] ?]|].
  destruct (revokedCertIsIssuer sm revokedCert); simpl; [done|].
  destruct (_ && _); simpl; [done|].
  destruct (associateRevokedCertWithIsssuer revInfo revokedCert cm)
    as [revInfo' [|]] eqn:Hassoc; simpl; [|done].
  destruct (StorageEntryJSON revInfo') as [e|value'] eqn:Henc; simpl;
    [by destruct e as [[] ?]|].
  destruct (putFault b _) as [e|]; simpl; [by destruct e as [[] ?]|].
  destruct (decide (revokedPath +:+ serial = key)) as [Hkey|Hne];
    [|by apply keepsAssociation_put_other].
  intros (v & Hv & ri & cert & ic & Hri & Hbytes & Hcert & Hknown & Hissued).
  rewrite <- Hkey in Hv. rewrite Hget in Hv. injection Hv as <-.
  rewrite (round_trip _ _ Hri) in Hdec. injection Hdec as <-.
  rewrite Hbytes, Hcert in Hparse. injection Hparse as <-.
  apply associate_found in Hassoc as (J & ic' & -> & HJ & Hok).
  exists value'. split; [rewrite <- Hkey; simpl; by rewrite lookup_insert_eq|].
  exists (with_CertificateIssuer J ri), cert, ic'.
  split; [done|]. split; [done|]. split; [done|]. split; [|done].
  right. by apply Hcm.
Qed.

Lemma buildCRLs_keepsAssociation forceNew :
  stable (keepsAssociation b key certValue) (buildCRLs b forceNew).
Proof.
  apply stable_buildCRLs; try exact _.
  - intros. by apply keepsAssociation_same.
  - intros. by apply keepsAssociation_same.
  - intros. by apply keepsAssociation_same.
  - intros. by apply keepsAssociation_same.
  - intros. apply keepsAssociation_put_other, crls_ne_key.
  - intros. apply keepsAssociation_put_other, legacy_ne_key.
  - intros. apply keepsAssociation_delete_other, crls_ne_key.
  - intros. by apply revokedEntryStep_keepsAssociation.
Qed.

Lemma finishRevoke_keepsAssociation revInfo :
  stable (keepsAssociation b key certValue) (finishRevoke b revInfo).
Proof.
  apply stable_finishRevoke; try exact _.
  - intros. by apply keepsAssociation_same.
  - intros. by apply keepsAssociation_same.
  - intros. by apply keepsAssociation_same.
  - intros. by apply keepsAssociation_same.
  - intros. apply keepsAssociation_put_other, crls_ne_key.
  - intros. apply keepsAssociation_put_other, legacy_ne_key.
  - intros. apply keepsAssociation_delete_other, crls_ne_key.
  - intros. by apply revokedEntryStep_keepsAssociation.
  - intros. by apply keepsAssociation_same.
Qed.

End KeepsAssociation.

Section RevokeAssociates.
Context `{Platform}.

Lemma issuerCertStep_loads b serial cm issuer w cm' w' :
  issuerCertStep b serial cm issuer w = (inr cm', w') →
  (∀ J ic, cm !! J = Some ic → issuerLoads b J ic) →
  ∀ J ic, cm' !! J = Some ic → issuerLoads b J ic.
Proof.
  unfold issuerCertStep.
  destruct (fetchCertBundleByIssuerId b issuer) as [e|[e [bundle|]]] eqn:Hf;
    [by destruct (isUserError e)|..|done].
  destruct (parseCABundle bundle) as [e'|[certificate|]] eqn:Hp; [done|..|done].
  case_bool_decide; [done|]. intros [= <- <-] Hcm J ic HJ.
  destruct (decide (issuer = J)) as [->|Hne].
  - rewrite lookup_insert_eq in HJ. simplify_eq. by exists e, bundle.
  - rewrite lookup_insert_ne in HJ by done. by apply Hcm.
Qed.

Lemma loadIssuers_loads b serial issuers cm w cm' w' :
  forM (issuerCertStep b serial) issuers cm w = (inr cm', w') →
  (∀ J ic, cm !! J = Some ic → issuerLoads b J ic) →
  ∀ J ic, cm' !! J = Some ic → issuerLoads b J ic.
Proof.
  revert cm w. induction issuers as [|issuer issuers IH]; intros cm w Hrun Hcm.
  - by apply ret_inr in Hrun as [<- _].
  - apply forM_cons_inr in Hrun as (cm1 & w1 & Hstep & Hrest).
    eapply IH; [exact Hrest|]. by eapply issuerCertStep_loads.
Qed.

(** The block that stores a new revocation entry associates it with an
    issuer of the certificate when the map holds one. *)
Lemma revokeNew_associates b serial fromLease cm w revInfo w1 certValue cert
    J ic :
  rangeVisitsAll →
  (∀ J ic, cm !! J = Some ic → issuerLoads b J ic) →
  getFault b ("certs/" +:+ normalizeSerial serial) = None →
  storage w !! ("certs/" +:+ normalizeSerial serial) = Some certValue →
  ParseCertificate certValue = inr cert →
  cm !! J = Some ic → issuedBy cert ic = true →
  revokeNew b serial fromLease cm w = (inr revInfo, w1) →
  ∃ v, storage w1 !! (revokedPath +:+ normalizeSerial serial) = Some v
       ∧ associated b certValue v.
Proof.
  intros Hperm Hcm Hf Hcert Hparse HJ Hissued. unfold revokeNew, bind.
  rewrite fetchOrLeave_found by done. rewrite Hcert, Hparse.
  destruct (time.Before _ _); [done|].
  destruct (x509.IsCA cert && fromLease); [done|].
  set (ri0 := {| CertificateBytes := certValue;
                 RevocationTime := time.Unix (Now b);
                 RevocationTimeUTC := time.UTC (Now b);
                 CertificateIssuer := CertificateIssuer zeroRevocationInfo |}).
  pose proof (associate_finds ri0 cert cm J ic Hperm HJ Hissued) as Hfound.
  destruct (associateRevokedCertWithIsssuer ri0 cert cm) as [ri1 found]
    eqn:Hassoc. simpl in Hfound. subst found.
  apply associate_found in Hassoc as (J' & ic' & -> & HJ' & Hok). simpl.
  destruct (StorageEntryJSON _) as [e|value] eqn:Henc; [done|].
  unfold try, wrapErr, Storage.Put.
  destruct (putFault b _) as [e|]; [by destruct (errKind e)|].
  unfold modify, ret. intros [= <- <-]. exists value. simpl.
  split; [by rewrite lookup_insert_eq|].
  exists (with_CertificateIssuer J' ri0), cert, ic'.
  split; [done|]. split; [done|]. split; [done|]. split; [|done].
  left. by apply Hcm.
Qed.

End RevokeAssociates.

(** ** The revocation entries a build reads *)

#[local] Instance sameAt_preorder key : PreOrder (sameAt key).
Proof. split; [done|]. intros w1 w2 w3; unfold sameAt; congruence. Qed.

Lemma NoDup_omap_stripPrefix prefix (l : list string) :
  NoDup l → NoDup (omap (Storage.stripPrefix prefix) l).
Proof.
  induction 1 as [|x l Hx Hl IH]; simpl; [constructor|].
  destruct (Storage.stripPrefix prefix x) as [r|] eqn:Hr; [|done].
  constructor; [|done]. rewrite list_elem_of_omap. intros (y & Hy & Hyr).
  apply stripPrefix_app in Hr, Hyr. by subst.
Qed.

Section EntriesRead.
Context `{Platform}.

Lemma listed_serials_NoDup w :
  rangeVisitsAll →
  NoDup (omap (Storage.stripPrefix revokedPath)
           (rangeOrder (map_to_list (storage w)).*1)).
Proof.
  intros Hperm. apply NoDup_omap_stripPrefix. rewrite (Hperm _).
  apply NoDup_fst_map_to_list.
Qed.

Lemma listed_serials_elem w serial :
  rangeVisitsAll →
  is_Some (storage w !! (revokedPath +:+ serial)) →
  serial ∈ omap (Storage.stripPrefix revokedPath)
             (rangeOrder (map_to_list (storage w)).*1).
Proof.
  intros Hperm [v Hv]. rewrite list_elem_of_omap.
  exists (revokedPath +:+ serial). split; [|apply stripPrefix_app_eq].
  rewrite (Hperm _). rewrite list_elem_of_fmap.
  exists (revokedPath +:+ serial, v). split; [done|].
  by apply elem_of_map_to_list.
Qed.

Lemma revokedEntryStep_other b cm sm acc serial serial0 :
  serial ≠ serial0 →
  stable (sameAt (revokedPath +:+ serial0))
    (revokedEntryStep b cm sm acc serial).
Proof.
  intros Hne. unfold revokedEntryStep, Storage.Get, Storage.Put.
  destruct acc as [un rm]. repeat stable_step; try done.
  unfold sameAt. simpl. rewrite lookup_insert_ne; [done|].
  intros Heq. apply Hne. by simplify_eq.
Qed.

(** The step that finds an issuer for an entry writes the entry back with
    the issuer filled in. *)
Lemma revokedEntryStep_associates b cm sm acc serial w acc' w' value revInfo
    cert revInfo' :
  revokedEntryStep b cm sm acc serial w = (inr acc', w') →
  storage w !! (revokedPath +:+ serial) = Some value →
  DecodeJSON value = inr revInfo →
  ParseCertificate (CertificateBytes revInfo) = inr cert →
  revokedCertIsIssuer sm cert = false →
  (CertificateIssuer revInfo = "" ∨ cm !! CertificateIssuer revInfo = None) →
  associateRevokedCertWithIsssuer revInfo cert cm = (revInfo', true) →
  ∃ value', StorageEntryJSON revInfo' = inr value'
            ∧ storage w' !! (revokedPath +:+ serial) = Some value'.
Proof.
  intros Hrun Hget Hdec Hparse Hself Hguard Hassoc.
  unfold revokedEntryStep in Hrun. destruct acc as [un rm].
  apply bind_inr in Hrun as (entry & w1 & Hentry%wrapErr_inr & Hrun).
  unfold Storage.Get in Hentry.
  destruct (getFault b _); [done|].
  apply bind_inr in Hentry as (w2 & w3 & [<- <-]%ret_inr & Hentry).
  apply ret_inr in Hentry as [<- <-]. rewrite Hget in Hrun.
  destruct (empty value); [done|].
  apply bind_inr in Hrun as (ri & w4 & Hri%wrapErr_inr & Hrun).
  apply lift_inr in Hri as [Hri <-]. rewrite Hdec in Hri. injection Hri as <-.
  apply bind_inr in Hrun as (c & w5 & Hc%wrapErr_inr & Hrun).
  apply lift_inr in Hc as [Hc <-]. rewrite Hparse in Hc. injection Hc as <-.
  rewrite Hself in Hrun.
  assert (negb (empty (CertificateIssuer revInfo))
          && bool_decide (is_Some (cm !! CertificateIssuer revInfo)) = false)
    as Hg.
  { destruct Hguard as [-> | ->]; [done|].
    rewrite (bool_decide_eq_false_2 (is_Some None)); [|by intros [? ?]].
    by rewrite andb_false_r. }
  rewrite Hg, Hassoc in Hrun. simpl in Hrun.
  apply bind_inr in Hrun as (value' & w6 & Henc%wrapErr_inr & Hrun).
  apply lift_inr in Henc as [Henc <-].
  apply bind_inr in Hrun as ([] & w7 & Hput%wrapErr_inr & Hrun).
  apply ret_inr in Hrun as [_ <-]. unfold Storage.Put in Hput.
  destruct (putFault b _); [done|]. unfold modify in Hput.
  injection Hput as <-. exists value'. split; [done|]. simpl.
  by rewrite lookup_insert_eq.
Qed.

Lemma entries_loop b cm sm serial0 value revInfo cert revInfo' :
  DecodeJSON value = inr revInfo →
  ParseCertificate (CertificateBytes revInfo) = inr cert →
  revokedCertIsIssuer sm cert = false →
  (CertificateIssuer revInfo = "" ∨ cm !! CertificateIssuer revInfo = None) →
  associateRevokedCertWithIsssuer revInfo cert cm = (revInfo', true) →
  ∀ serials acc w acc' w',
    NoDup serials →
    forM (revokedEntryStep b cm sm) serials acc w = (inr acc', w') →
    (serial0 ∉ serials → sameAt (revokedPath +:+ serial0) w w')
    ∧ (serial0 ∈ serials →
       storage w !! (revokedPath +:+ serial0) = Some value →
       ∃ value', StorageEntryJSON revInfo' = inr value'
                 ∧ storage w' !! (revokedPath +:+ serial0) = Some value').
Proof.
  intros Hdec Hparse Hself Hguard Hassoc.
  induction serials as [|serial serials IH]; intros acc w acc' w' Hnd Hrun.
  - apply ret_inr in Hrun as [_ <-]. split; [done|].
    intros Hin. by apply elem_of_nil in Hin.
  - apply forM_cons_inr in Hrun as (acc1 & w1 & Hstep & Hrest).
    apply NoDup_cons in Hnd as [Hfresh Hnd].
    destruct (IH _ _ _ _ Hnd Hrest) as [IHout IHin]. split.
    + intros Hout. apply not_elem_of_cons in Hout as [Hne Hout].
      etrans; [|by apply IHout].
      pose proof (revokedEntryStep_other b cm sm acc serial serial0
                    (not_eq_sym Hne) w) as Hst.
      by rewrite Hstep in Hst.
    + intros Hin Hget. apply elem_of_cons in Hin as [->|Hin].
      * destruct (revokedEntryStep_associates _ _ _ _ _ _ _ _ _ _ _ _
                    Hstep Hget Hdec Hparse Hself Hguard Hassoc)
          as (value' & Henc & Hput).
        exists value'. split; [done|]. rewrite <- Hput. by apply IHout.
      * apply IHin; [done|]. rewrite <- Hget.
        assert (serial ≠ serial0) as Hne by (by intros ->).
        pose proof (revokedEntryStep_other b cm sm acc serial serial0 Hne w)
          as Hst.
        by rewrite Hstep in Hst.
Qed.

End EntriesRead.

Section BuildAssociates.
Context `{Platform}.

Lemma collectIssuer_pure b acc issuer w w2 :
  (collectIssuer b acc issuer w).1 = (collectIssuer b acc issuer w2).1
  ∧ (collectIssuer b acc issuer w).2 = w.
Proof.
  unfold collectIssuer. destruct acc as [[em cm] ks]. unfold_monad.
  destruct (fetchCertBundleByIssuerId b issuer) as [e|[thisEntry bundle]];
    simpl; [done|].
  destruct (empty (KeyID thisEntry)); simpl; [done|].
  destruct (usageCRLSigning thisEntry); simpl; [|done].
  by destruct (GetCertificate thisEntry).
Qed.

Lemma collectIssuers_pure b issuers acc w w2 :
  (forM (collectIssuer b) issuers acc w).1
  = (forM (collectIssuer b) issuers acc w2).1
  ∧ (forM (collectIssuer b) issuers acc w).2 = w.
Proof.
  revert acc. induction issuers as [|issuer issuers IH]; intros acc; simpl.
  - done.
  - unfold bind.
    destruct (collectIssuer_pure b acc issuer w w2) as [H1 H2].
    destruct (collectIssuer_pure b acc issuer w2 w2) as [_ H3].
    destruct (collectIssuer b acc issuer w) as [[e|acc1] w1];
      destruct (collectIssuer b acc issuer w2) as [[e2|acc2] w3];
      simpl in *; simplify_eq; [done|]. apply IH.
Qed.

Lemma collectIssuers_anywhere b issuers acc w r w1 w2 :
  forM (collectIssuer b) issuers acc w = (r, w1) →
  w1 = w ∧ forM (collectIssuer b) issuers acc w2 = (r, w2).
Proof.
  intros Hrun. destruct (collectIssuers_pure b issuers acc w w2) as [H1 H2].
  destruct (collectIssuers_pure b issuers acc w2 w2) as [_ H3].
  rewrite Hrun in H1, H2. simpl in *. split; [done|].
  destruct (forM (collectIssuer b) issuers acc w2) as [r2 w3]; simpl in *.
  by subst.
Qed.

Lemma getConfigWithUpdate_samePersisted b :
  stable samePersisted (getConfigWithUpdate b).
Proof. apply stable_getConfigWithUpdate; try exact _; intros; by split. Qed.

Lemma getLocalCRLConfig_unchanged b : stable unchanged (getLocalCRLConfig b).
Proof. unfold getLocalCRLConfig. repeat stable_step. Qed.

(** A build that runs to its end and finds an issuer for an entry leaves
    the entry stored with the issuer filled in. *)
Lemma buildCRLs_associates b forceNew w w' em cm ks w1 serial value revInfo
    cert revInfo' :
  rangeVisitsAll →
  ¬ underRevoked legacyCRLPath →
  buildRuns b forceNew w →
  buildCRLs b forceNew w = (inr tt, w') →
  forM (collectIssuer b) (buildIssuers b) (∅, ∅, ∅) w
  = (inr (em, cm, ks), w1) →
  storage w !! (revokedPath +:+ serial) = Some value →
  DecodeJSON value = inr revInfo →
  ParseCertificate (CertificateBytes revInfo) = inr cert →
  revokedCertIsIssuer (issuerSerialCertMapOf cm) cert = false →
  (CertificateIssuer revInfo = "" ∨ cm !! CertificateIssuer revInfo = None) →
  associateRevokedCertWithIsssuer revInfo cert cm = (revInfo', true) →
  ∃ value', StorageEntryJSON revInfo' = inr value'
            ∧ storage w' !! (revokedPath +:+ serial) = Some value'.
Proof.
  intros Hperm Hlegacy Hruns Hrun Hcollect Hget Hdec Hparse Hself Hguard Hassoc.
  destruct (buildCRLs_trace b forceNew w w' Hruns Hrun)
    as [g config em' cm' ks' c0 un rm rm' c1 w0 w1' w2 w3 w4 w5
        Hg _ _ Hcollect' Hindex Hentries _ Hclasses Hdel Hpersist].
  destruct (collectIssuers_anywhere _ _ _ _ _ _ w0 Hcollect) as [-> Hc0].
  rewrite Hc0 in Hcollect'. injection Hcollect' as <- <- <- <-.
  assert (storage w2 = storage w) as Hsto.
  { pose proof (getConfigWithUpdate_samePersisted b w) as [Hs _].
    rewrite Hg in Hs. simpl in Hs.
    pose proof (getLocalCRLConfig_unchanged b w0) as Hu.
    rewrite Hindex in Hu. unfold unchanged in Hu. simpl in Hu. by subst. }
  set (key := revokedPath +:+ serial).
  assert (underRevoked key) as Hkey
    by (eexists; apply stripPrefix_app_eq).
  (* the loop over the entries *)
  unfold getRevokedCertEntries in Hentries.
  apply bind_inr in Hentries as (serials & w6 & Hlist%wrapErr_inr & Hloop).
  unfold Storage.List in Hlist. destruct (listFault b _); [done|].
  apply bind_inr in Hlist as (w7 & w8 & [<- <-]%ret_inr & Hlist).
  apply ret_inr in Hlist as [<- <-].
  destruct (entries_loop b cm (issuerSerialCertMapOf cm) serial value revInfo
              cert revInfo' Hdec Hparse Hself Hguard Hassoc _ _ _ _ _
              (listed_serials_NoDup w2 Hperm) Hloop) as [_ Hin].
  destruct Hin as (value' & Henc & Hput).
  { apply listed_serials_elem; [done|]. rewrite Hsto. by rewrite Hget. }
  { by rewrite Hsto. }
  exists value'. split; [done|]. rewrite <- Hput.
  (* what follows writes elsewhere *)
  assert (sameAt key w3 w4) as H34.
  { assert (stable (sameAt key)
              (buildClasses b g forceNew config un rm' ks c0)) as Hst.
    { apply stable_buildClasses; try exact _; intros; unfold sameAt; simpl;
        try done.
      - rewrite lookup_insert_ne; [done|]. by apply crls_ne_key.
      - rewrite lookup_insert_ne; [done|]. by apply legacy_ne_key. }
    specialize (Hst w3). by rewrite Hclasses in Hst. }
  assert (sameAt key w4 w5) as H45.
  { assert (stable (sameAt key)
              (deleteOrphans b (pruneIssuers (buildIssuers b) c1))) as Hst.
    { apply stable_deleteOrphans; try exact _; intros; unfold sameAt; simpl.
      rewrite lookup_delete_ne; [done|]. by apply crls_ne_key. }
    specialize (Hst w4). by rewrite Hdel in Hst. }
  assert (sameAt key w5 w') as H5.
  { destruct (useLegacyBundleCaStorage b); [by subst|].
    unfold setLocalCRLConfig in Hpersist.
    destruct (localCRLSetFault b); [done|]. unfold modify in Hpersist.
    by injection Hpersist as <-. }
  unfold sameAt in *. subst key. rewrite H5, H45, H34. done.
Qed.

End BuildAssociates.

Section RevokeStores.
Context `{Platform}.

(** The block that stores a new entry never leaves with the answer of a
    recorded revocation. *)
Lemma revokeNew_no_data b serial fromLease cm w t rfc w1 :
  revokeNew b serial fromLease cm w
  ≠ (inl (Return (Some (logical.Data t rfc))), w1).
Proof.
  unfold revokeNew, bind, fetchOrLeave, fetchCertBySerial, Storage.Get.
  destruct (getFault b _) as [e|]; unfold_monad; simpl.
  { by destruct (isUserError e). }
  destruct (storage w !! _) as [certValue|]; [|by destruct fromLease].
  destruct (ParseCertificate certValue) as [e|cert]; [done|].
  destruct (time.Before _ _); [done|].
  destruct (x509.IsCA cert && fromLease); [done|].
  destruct (StorageEntryJSON _) as [e|value]; [done|].
  unfold Storage.Put. destruct (putFault b _) as [e|]; [|done].
  by destruct (errKind e).
Qed.

Lemma revokeCert_stores b serial fromLease w issuers cm certValue cert J ic
    t rfc w' :
  rangeVisitsAll → jsonRoundTrip → ¬ underRevoked legacyCRLPath →
  Tainted b = false →
  revokeIssuers b w = (inr issuers, w) →
  forM (issuerCertStep b serial) issuers ∅ w = (inr cm, w) →
  getFault b (revokedPath +:+ normalizeSerial serial) = None →
  storage w !! (revokedPath +:+ normalizeSerial serial) = None →
  getFault b ("certs/" +:+ normalizeSerial serial) = None →
  storage w !! ("certs/" +:+ normalizeSerial serial) = Some certValue →
  ParseCertificate certValue = inr cert →
  cm !! J = Some ic → issuedBy cert ic = true →
  revokeCert b serial fromLease w = (inr (Some (logical.Data t rfc)), w') →
  ∃ v, storage w' !! (revokedPath +:+ normalizeSerial serial) = Some v
       ∧ associated b certValue v.
Proof.
  intros Hperm Hround Hlegacy Htaint Hiss Hload Hf1 Hnew Hf2 Hcert Hparse
    HJ Hissued Hrun.
  unfold revokeCert, returning in Hrun. rewrite Htaint in Hrun.
  unfold bind at 1 in Hrun. rewrite Hiss in Hrun.
  unfold bind at 1 in Hrun. rewrite Hload in Hrun.
  unfold bind at 1 in Hrun. rewrite fetchOrLeave_found in Hrun by done.
  rewrite Hnew in Hrun. unfold bind at 1 in Hrun.
  destruct (revokeNew b serial fromLease cm w) as [[[r|e]|revInfo] w1]
    eqn:Hstore.
  - injection Hrun as -> <-. by apply revokeNew_no_data in Hstore.
  - done.
  - assert (∃ v, storage w1 !! (revokedPath +:+ normalizeSerial serial)
                 = Some v ∧ associated b certValue v) as Hgood.
    { eapply revokeNew_associates; try done.
      eapply loadIssuers_loads; [exact Hload|].
      intros J' ic' HJ'. by rewrite lookup_empty in HJ'. }
    assert (underRevoked (revokedPath +:+ normalizeSerial serial)) as Hkey
      by (eexists; apply stripPrefix_app_eq).
    pose proof (finishRevoke_keepsAssociation b
                  (revokedPath +:+ normalizeSerial serial) certValue
                  Hround Hkey Hlegacy revInfo w1) as Hkeep.
    destruct (finishRevoke b revInfo w1) as [[[r|e]|r] w2]; simpl in *;
      injection Hrun as _ <-; by apply Hkeep.
Qed.

End RevokeStores.

(** ** The concrete platform satisfies the assumptions *)

Lemma Demo_splitBar bytes issuer :
  Demo.hasBar bytes = false →
  Demo.splitBar (bytes +:+ "|" +:+ issuer) = Some (bytes, issuer).
Proof.
  induction bytes as [|c bytes IH]; simpl; [done|].
  case_bool_decide; [done|]. simpl. intros Hb. by rewrite (IH Hb).
Qed.

Lemma Demo_round_trip : jsonRoundTrip (H := Demo.platform).
Proof.
  intros [bytes t utc issuer] value. simpl. unfold Demo.encode, Demo.decode.
  simpl.
  destruct (Demo.hasBar bytes) eqn:Hb; [done|].
  destruct (Demo.hasBar issuer) eqn:Hi; [done|]. simpl.
  case_bool_decide as Ht; [|done]. case_bool_decide as Hu; [|done]. simpl.
  intros [= <-]. rewrite Demo_splitBar by done. rewrite Hi. by subst.
Qed.

Lemma Demo_rangeVisitsAll : rangeVisitsAll (H := Demo.platform).
Proof. intros l. reflexivity. Qed.

Lemma Demo_legacy_path : ¬ underRevoked (legacyCRLPath (Platform := Demo.platform)).
Proof. intros [r Hr]. done. Qed.

(** C4 as stated fails for a certificate that is revoked again: its entry,
    stored without an issuer id, is left as it is by a revocation that
    succeeds on a mount whose CRLs are rebuilt by the scheduler, although
    the issuer [I1] of the certificate is known and its signature
    verifies. *)
Lemma revoked_again_stays_unassociated :
  let H := Demo.platform in
  let r := revokeCert Demo.autoMount "11" false Demo.worldUnassociated in
  r.1 = inr (Some (revokedResponse (Demo.entryOf "der-leaf1" "")))
  ∧ storage r.2 !! "revoked/11" = Some "der-leaf1|"
  ∧ DecodeJSON "der-leaf1|" = inr (Demo.entryOf "der-leaf1" "")
  ∧ issuerLoads Demo.autoMount "I1" Demo.certI1
  ∧ issuedBy Demo.leaf1 Demo.certI1 = true.
Proof.
  simpl. repeat split; try reflexivity.
  exists (Demo.entry "K1" "der-I1"), "der-I1". by split.
Qed.

(** C4, amended. (1) A revocation that succeeds for a certificate that had
    no revocation entry, when one of the loaded issuers issued the
    certificate (its subject is the certificate's issuer and the signature
    verifies), leaves at [revoked/<serial>] an entry for the certificate
    whose issuer id names a known issuer that issued it.  (2) A build that
    runs to its end and finds an issuer for an entry whose issuer id is
    empty or unknown (the entry is not the certificate of an issuer) leaves
    the entry stored with that issuer filled in. *)
Theorem revocation_entry_gets_issuer `{Platform} (b : backend) :
  rangeVisitsAll → jsonRoundTrip → ¬ underRevoked legacyCRLPath →
  (∀ serial fromLease w issuers issuerIDCertMap certValue cert J ic t rfc w',
     Tainted b = false →
     revokeIssuers b w = (inr issuers, w) →
     forM (issuerCertStep b serial) issuers ∅ w = (inr issuerIDCertMap, w) →
     getFault b (revokedPath +:+ normalizeSerial serial) = None →
     storage w !! (revokedPath +:+ normalizeSerial serial) = None →
     getFault b ("certs/" +:+ normalizeSerial serial) = None →
     storage w !! ("certs/" +:+ normalizeSerial serial) = Some certValue →
     ParseCertificate certValue = inr cert →
     issuerIDCertMap !! J = Some ic → issuedBy cert ic = true →
     revokeCert b serial fromLease w
     = (inr (Some (logical.Data t rfc)), w') →
     ∃ v, storage w' !! (revokedPath +:+ normalizeSerial serial) = Some v
          ∧ associated b certValue v)
  ∧ (∀ forceNew w w' em issuerIDCertMap ks w1 serial value revInfo cert
       revInfo',
       buildRuns b forceNew w →
       buildCRLs b forceNew w = (inr tt, w') →
       forM (collectIssuer b) (buildIssuers b) (∅, ∅, ∅) w
       = (inr (em, issuerIDCertMap, ks), w1) →
       storage w !! (revokedPath +:+ serial) = Some value →
       DecodeJSON value = inr revInfo →
       ParseCertificate (CertificateBytes revInfo) = inr cert →
       revokedCertIsIssuer (issuerSerialCertMapOf issuerIDCertMap) cert
       = false →
       (CertificateIssuer revInfo = ""
        ∨ issuerIDCertMap !! CertificateIssuer revInfo = None) →
       associateRevokedCertWithIsssuer revInfo cert issuerIDCertMap
       = (revInfo', true) →
       ∃ value' J ic,
         StorageEntryJSON revInfo' = inr value'
         ∧ storage w' !! (revokedPath +:+ serial) = Some value'
         ∧ revInfo' = with_CertificateIssuer J revInfo
         ∧ issuerIDCertMap !! J = Some ic
         ∧ issuedBy cert ic = true).
Proof.
  intros Hperm Hround Hlegacy. split.
  - intros. by eapply revokeCert_stores.
  - intros forceNew w w' em cm ks w1 serial value revInfo cert revInfo'
      Hruns Hrun Hcollect Hget Hdec Hparse Hself Hguard Hassoc.
    destruct (buildCRLs_associates b forceNew w w' em cm ks w1 serial value
                revInfo cert revInfo') as (value' & Henc & Hput); [done..|].
    destruct (associate_found _ _ _ _ Hassoc) as (J & ic & Hri & HJ & Hok).
    by exists value', J, ic.
Qed.

Section OnDemoC4.
#[local] Existing Instance Demo.platform.

(** Revoking [11] on the demo mount stores an associated entry; building on
    the mount that holds the entry without issuer id fills [I1] in. *)
Lemma revocation_entry_gets_issuer_witness :
  (∃ v, storage (revokeCert Demo.mount "11" false Demo.world0).2
          !! "revoked/11" = Some v
        ∧ associated Demo.mount "der-leaf1" v)
  ∧ storage (buildCRLs Demo.mount false Demo.worldUnassociated).2
      !! "revoked/11" = Some "der-leaf1|I1".
Proof.
  destruct (revocation_entry_gets_issuer Demo.mount Demo_rangeVisitsAll
              Demo_round_trip Demo_legacy_path) as [Hrevoke Hbuild].
  split.
  - apply (Hrevoke "11" false Demo.world0 ["I1"; "I2"; "I3"]
             {[ "I1" := Demo.certI1; "I2" := Demo.certI2;
                "I3" := Demo.certI3 ]}
             "der-leaf1" Demo.leaf1 "I1" Demo.certI1
             1700000000%Z (Some (pretty Demo.now))); reflexivity.
  - destruct (Hbuild false Demo.worldUnassociated
                (buildCRLs Demo.mount false Demo.worldUnassociated).2
                {[ "I1" := Demo.entry "K1" "der-I1";
                   "I2" := Demo.entry "K1" "der-I2";
                   "I3" := Demo.entry "K3" "der-I3" ]}
                {[ "I1" := Demo.certI1; "I2" := Demo.certI2;
                   "I3" := Demo.certI3 ]}
                {[ "K1" := {[ "CN=A" := ["I1"; "I2"] ]};
                   "K3" := {[ "CN=B" := ["I3"] ]} ]}
                Demo.worldUnassociated "11" "der-leaf1|"
                (Demo.entryOf "der-leaf1" "") Demo.leaf1
                (Demo.entryOf "der-leaf1" "I1"))
      as (value' & J & ic & Henc & Hput & _).
    + exists (config (builder Demo.world0)),
        (getConfigWithUpdate Demo.mount Demo.worldUnassociated).2.
      split; reflexivity.
    + vm_compute. reflexivity.
    + vm_compute. reflexivity.
    + reflexivity.
    + reflexivity.
    + reflexivity.
    + reflexivity.
    + by left.
    + reflexivity.
    + transitivity (Some value'); [exact Hput|].
      assert (StorageEntryJSON (Demo.entryOf "der-leaf1" "I1")
              = inr "der-leaf1|I1") as Hv by reflexivity.
      congruence.
Defined.

End OnDemoC4.

(** ** CRL numbers *)

Section Numbers.
Context `{Platform}.

(** One class: the CRL is signed with the number found in [CRLNumberMap]
    (1 for a CRL that is new) and the map is left with the next number; the
    numbers of the other CRLs are not touched. *)
Lemma buildClass_number b g forceNew config un rm c first rest w c1 w1 :
  buildClass b g forceNew config un rm c (first :: rest) w = (inr c1, w1) →
  ∃ representative revokedCerts id n nextUpdate w2 w3,
    buildCRL b g forceNew representative revokedCerts id n w2
    = (inr nextUpdate, w3)
    ∧ (n = default 0%Z (CRLNumberMap c !! id)
       ∨ (n = 1%Z ∧ ∃ k, id = genCRLId k))
    ∧ CRLNumberMap c1 !! id = Some (wrap_int64 (n + 1))
    ∧ ∀ id', id' ≠ id → CRLNumberMap c1 !! id' = CRLNumberMap c !! id'.
Proof.
  unfold buildClass. intros Hrun.
  apply bind_inr in Hrun
    as ([[[revokedCerts representative] crlIdentifier] crlIdIssuer] & w2
        & _ & Hrun).
  apply bind_inr in Hrun as ([id c2] & w3 & Hmint & Hrun).
  apply bind_inr in Hrun as (nextUpdate & w4 & Hbuild%wrapErr_inr & Hrun).
  apply ret_inr in Hrun as [<- _].
  unfold with_CRLExpirationMap, with_CRLNumberMap, with_IssuerIDCRLMap
    in *. cbn [CRLNumberMap] in *.
  eexists representative, revokedCerts, id, _, nextUpdate, w3, w4.
  split; [exact Hbuild|].
  destruct (empty crlIdentifier).
  - apply bind_inr in Hmint as (w5 & w6 & [<- <-]%ret_inr & Hmint).
    apply bind_inr in Hmint as ([] & w7 & _ & Hmint).
    apply ret_inr in Hmint as [[= <- <-] _]. cbn [CRLNumberMap].
    rewrite lookup_insert_eq. simpl. split; [right; eauto|].
    split; [by rewrite lookup_insert_eq|].
    intros id' Hne. by rewrite !lookup_insert_ne.
  - apply ret_inr in Hmint as [[= <- <-] _]. split; [by left|].
    split; [by rewrite lookup_insert_eq|].
    intros id' Hne. by rewrite lookup_insert_ne.
Qed.

End Numbers.

(** ** A build that fails persists nothing of the index *)

#[local] Instance sameIndex_preorder : PreOrder sameIndex.
Proof. split; [done|]. intros w1 w2 w3; unfold sameIndex; congruence. Qed.

Section FailedBuild.
Context `{Platform}.

Lemma revokedEntryStep_sameIndex b cm sm acc serial :
  stable sameIndex (revokedEntryStep b cm sm acc serial).
Proof.
  unfold revokedEntryStep, Storage.Get, Storage.Put.
  destruct acc as [un rm]. repeat stable_step; done.
Qed.

(** Whatever a build wrote on the way, the index it leaves when it fails is
    the index it found: the numbers it signed with are not recorded. *)
Lemma buildCRLs_failed_keeps_index b forceNew w err w' :
  buildCRLs b forceNew w = (inl err, w') → sameIndex w w'.
Proof.
  unfold buildCRLs. intros Hrun.
  assert (∀ {A B} (m : M A) (k : A → M B) w0 e w1,
            stable sameIndex m →
            (∀ a wa, k a wa = (inl e, w1) → sameIndex wa w1) →
            bind m k w0 = (inl e, w1) → sameIndex w0 w1) as Hbind.
  { intros A B m k w0 e w1 Hm Hk. unfold bind. pose proof (Hm w0) as Hst.
    destruct (m w0) as [[e0|a] wa]; simpl in Hst.
    - by intros [= <- <-].
    - intros Hka. etrans; [exact Hst|]. by eapply Hk. }
  eapply Hbind; [| |exact Hrun].
  { apply stable_wrapErr, stable_getConfigWithUpdate; try exact _; done. }
  intros g w0. cbv beta.
  destruct (Disable g && negb forceNew); [by cbv [ret]|].
  intros Hrun0.
  eapply Hbind; [| |exact Hrun0]; [repeat stable_step|].
  intros [issuers wasLegacy] w1 Hrun1.
  eapply Hbind; [| |exact Hrun1]; [repeat stable_step|].
  intros config w2 Hrun2.
  eapply Hbind; [| |exact Hrun2].
  { stable_step. apply stable_collectIssuer. exact _. }
  intros [[em cm] ks] w3 Hrun3.
  eapply Hbind; [| |exact Hrun3].
  { apply stable_wrapErr, stable_getLocalCRLConfig. exact _. }
  intros c w4 Hrun4.
  eapply Hbind; [| |exact Hrun4].
  { apply stable_wrapErr. unfold getRevokedCertEntries.
    stable_step; [apply stable_wrapErr, stable_List; exact _|].
    stable_step. apply revokedEntryStep_sameIndex. }
  intros [un rm] w5 Hrun5.
  eapply Hbind; [| |exact Hrun5].
  { apply stable_wrapErr, stable_augmentWithRevokedIssuers. exact _. }
  intros rm' w6. cbv beta.
  destruct c as [c|]; [|cbv [fail]; by intros [= _ <-]].
  intros Hrun6.
  eapply Hbind; [| |exact Hrun6].
  { apply stable_buildClasses; try exact _; done. }
  intros c1 w7 Hrun7.
  eapply Hbind; [| |exact Hrun7].
  { apply stable_deleteOrphans; try exact _; done. }
  intros [] w8. cbv beta. destruct (negb wasLegacy); [|by cbv [ret]].
  unfold wrapErr, setLocalCRLConfig.
  destruct (localCRLSetFault b) as [e|]; [|by cbv [modify]].
  cbv [fail]. by intros [= _ <-].
Qed.

End FailedBuild.

(** C1. On the mount with the single issuer [I1], whose CRL [crl-0] is at
    number 5: a build signs and stores CRL number 5 and then fails to
    persist the index; certificate [11] is revoked; the next build succeeds
    and signs and stores another CRL, with the revoked certificate on it,
    under the same number 5.  The number 5 is used twice for [crl-0]. *)
Theorem crl_number_reused_after_failed_build :
  let H := Demo.platform in
  let first := buildCRLs (Demo.failingPersist Demo.soloMount) false
                 Demo.worldI1 in
  let revoked := revokeCert Demo.soloMount "11" false first.2 in
  let second := buildCRLs Demo.soloMount false revoked.2 in
  let template certs :=
    {| RevokedCertificates := certs; Number := 5;
       ThisUpdate := Demo.now;
       NextUpdate := time.Add Demo.now (72 * Demo.hour)%Z;
       SignatureAlgorithm := 4 |} in
  (∃ err, first.1 = inl err)
  ∧ storage first.2 !! "crls/crl-0" = Some (Demo.render (template []))
  ∧ indexCRL first.2 "I1" = Some "crl-0"
  ∧ revoked.1 = inr (Some (revokedResponse (Demo.entryOf "der-leaf1" "I1")))
  ∧ second.1 = inr tt
  ∧ storage second.2 !! "crls/crl-0"
    = Some (Demo.render
              (template [ {| pkix.SerialNumber := 17;
                             pkix.RevocationTime := Demo.now |} ]))
  ∧ Demo.render (template [])
    ≠ Demo.render
        (template [ {| pkix.SerialNumber := 17;
                       pkix.RevocationTime := Demo.now |} ]).
Proof.
  simpl. split; [by eexists|]. repeat split; try (vm_compute; reflexivity).
  vm_compute. discriminate.
Qed.

(** * Further properties of the code *)

(** ** The cached revocation configuration *)

Section ConfigCache.
Context `{Platform}.

Lemma reloadConfig_dirty b w :
  dirty (builder w) = true →
  reloadConfigIfRequired b w
  = match getRevocationConfig b with
    | inr stored => (inr tt, reloaded stored w)
    | inl err => (inl err, w)
    end.
Proof.
  intros Hd. unfold reloadConfigIfRequired. unfold_monad. rewrite Hd. simpl.
  rewrite Hd. simpl. by destruct (getRevocationConfig b).
Qed.

Lemma reloadConfig_clean b w :
  dirty (builder w) = false → reloadConfigIfRequired b w = (inr tt, w).
Proof.
  intros Hd. unfold reloadConfigIfRequired. unfold_monad. by rewrite Hd.
Qed.

End ConfigCache.

(** X1. Marking the configuration dirty makes the next read go to the
    storage: it returns what is stored there, or the default configuration
    when nothing is stored, caches it and clears the dirty flag; when the
    storage read fails the error is returned and the flag stays set, so the
    following read tries again. *)
Theorem dirty_config_is_reloaded `{Platform} (b : backend) (w : World) :
  (_ <- markConfigDirty ;; getConfigWithUpdate b) w
  = match getRevocationConfig b with
    | inr stored =>
        (inr (default defaultCrlConfig stored),
         reloaded stored (set_builder (with_dirty true) w))
    | inl err => (inl err, set_builder (with_dirty true) w)
    end.
Proof.
  unfold markConfigDirty, getConfigWithUpdate. unfold bind at 1.
  unfold modify at 1. unfold bind at 1.
  rewrite reloadConfig_dirty by done.
  by destruct (getRevocationConfig b).
Qed.

(** X2. Once a read of the configuration has succeeded, later reads return
    the same configuration and change nothing, whatever the storage holds by
    then, until the configuration is marked dirty again. *)
Theorem config_is_cached_until_dirty `{Platform} (b b' : backend)
    (w w1 : World) (cfg : crlConfig) :
  getConfigWithUpdate b w = (inr cfg, w1) →
  dirty (builder w1) = false
  ∧ getConfigWithUpdate b' w1 = (inr cfg, w1).
Proof.
  unfold getConfigWithUpdate. intros Hrun.
  apply bind_inr in Hrun as ([] & w2 & Hreload & Hrun).
  apply bind_inr in Hrun as (w3 & w4 & [<- <-]%ret_inr & Hrun).
  apply ret_inr in Hrun as [<- <-].
  assert (dirty (builder w2) = false) as Hclean.
  { destruct (dirty (builder w)) eqn:Hd.
    - rewrite reloadConfig_dirty in Hreload by done.
      destruct (getRevocationConfig b); [done|]. by injection Hreload as <-.
    - rewrite reloadConfig_clean in Hreload by done.
      by injection Hreload as <-. }
  split; [done|]. unfold bind. by rewrite reloadConfig_clean.
Qed.

Section OnDemoConfig.
#[local] Existing Instance Demo.platform.

Lemma config_is_cached_until_dirty_witness :
  let w1 := (getConfigWithUpdate Demo.disabledMount Demo.world0).2 in
  getConfigWithUpdate Demo.mount w1 = (inr Demo.disabledConfig, w1).
Proof.
  apply (config_is_cached_until_dirty Demo.disabledMount Demo.mount
           Demo.world0 _ Demo.disabledConfig).
  reflexivity.
Defined.

End OnDemoConfig.

(** ** Scheduling a rebuild *)

#[local] Instance onlyRaised_preorder : PreOrder onlyRaised.
Proof.
  split; [by repeat split; try left|].
  intros w1 w2 w3 (Hs1 & Hl1 & Hf1) (Hs2 & Hl2 & Hf2).
  split; [congruence|]. split; [congruence|].
  destruct Hf1 as [Hf1|[Hf1 Hf1']], Hf2 as [Hf2|[Hf2 Hf2']].
  - left. congruence.
  - right. split; congruence.
  - right. split; congruence.
  - congruence.
Qed.

Section Scheduling.
Context `{Platform}.

Lemma raise_flag_onlyRaised :
  stable onlyRaised (_ <- CompareAndSwapForceRebuild 0 1 ;; ret tt).
Proof.
  intros w. unfold CompareAndSwapForceRebuild. unfold_monad. simpl.
  case_bool_decide as Hz; simpl; [|by repeat split; try left].
  split; [done|]. split; [done|]. by right.
Qed.

Lemma raise_flag_run w :
  forceRebuild (builder w) = 0%Z →
  (_ <- CompareAndSwapForceRebuild 0 1 ;; ret tt) w
  = (inr tt, set_builder (with_forceRebuild 1) w).
Proof.
  intros Hz. unfold CompareAndSwapForceRebuild. unfold_monad. simpl.
  by rewrite bool_decide_eq_true_2.
Qed.

Lemma getConfigWithUpdate_onlyRaised b :
  stable onlyRaised (getConfigWithUpdate b).
Proof.
  apply stable_getConfigWithUpdate; try exact _;
    intros; by repeat split; try left.
Qed.

End Scheduling.

(** X3. [checkForAutoRebuild] writes nothing to the storage or to the index,
    and the only thing it does to the force-rebuild flag is to raise it from
    0 to 1: it never clears a pending request. *)
Theorem checkForAutoRebuild_only_raises `{Platform} (b : backend) (w : World) :
  onlyRaised w (checkForAutoRebuild b w).2.
Proof.
  revert w. change (stable onlyRaised (checkForAutoRebuild b)).
  unfold checkForAutoRebuild, LoadForceRebuild.
  stable_step; [apply getConfigWithUpdate_onlyRaised|].
  stable_step; [repeat stable_step|].
  destruct (_ || _); [stable_step|].
  stable_step; [apply stable_wrapErr, stable_getLocalCRLConfig; exact _|].
  destruct a1 as [crlConfig|]; [|apply raise_flag_onlyRaised].
  case_bool_decide; [apply raise_flag_onlyRaised|].
  stable_step; [repeat stable_step|].
  destruct (existsb _ _); [apply raise_flag_onlyRaised|stable_step].
Qed.

(** The negation wraps at the least duration, which is its own negative: a
    grace period of [-2^63] ns is applied as it is, not as [2^63] ns. *)
Remark expiresSoon_least_duration (now : time.Time)
    (expirations : gmap string time.Time) :
  expiresSoon now (- 2 ^ 63)%Z expirations
  = existsb (λ value, time.IsZero value
                      || time.After now (time.Add value (- 2 ^ 63)%Z))
            (map_to_list expirations).*2.
Proof. reflexivity. Qed.

(** X4. What [checkForAutoRebuild] decides once the configuration is read.
    With a disabled CRL, without auto-rebuild or with a request already
    pending it does nothing.  Otherwise it raises the flag exactly when the
    index records no expiration at all, or some CRL has a zero expiration or
    is past its expiration minus the grace period (an int64 duration, see
    [expiresSoon]); a grace period that does not parse is replaced by the
    default one, without an error. *)
Theorem checkForAutoRebuild_decides `{Platform} (b : backend) (w w1 : World)
    (cfg : crlConfig) :
  getConfigWithUpdate b w = (inr cfg, w1) →
  (Disable cfg = true ∨ AutoRebuild cfg = false
   ∨ forceRebuild (builder w1) = 1%Z →
   checkForAutoRebuild b w = (inr tt, w1))
  ∧ (∀ fallback,
       Disable cfg = false → AutoRebuild cfg = true →
       forceRebuild (builder w1) = 0%Z →
       localCRLGetFault b = None →
       ParseDuration (AutoRebuildGracePeriod defaultCrlConfig) = inr fallback →
       checkForAutoRebuild b w
       = (inr tt,
          if bool_decide (size (CRLExpirationMap (indexOf w1)) = 0%nat)
             || expiresSoon (Now b) (gracePeriod cfg fallback)
                  (CRLExpirationMap (indexOf w1))
          then set_builder (with_forceRebuild 1) w1
          else w1)).
Proof.
  intros Hcfg. split.
  - intros Hidle. unfold checkForAutoRebuild, LoadForceRebuild.
    unfold bind at 1. rewrite Hcfg. unfold_monad. simpl.
    destruct Hidle as [-> | [-> | ->]]; [done| |].
    + by rewrite orb_true_r.
    + by rewrite orb_true_r.
  - intros fallback Hdis Hauto Hflag Hfault Hdefault.
    unfold checkForAutoRebuild, LoadForceRebuild.
    unfold bind at 1. rewrite Hcfg.
    unfold bind at 1. unfold bind at 1. unfold get at 1. unfold ret at 1.
    rewrite Hdis, Hauto, Hflag. simpl.
    unfold bind at 1. unfold wrapErr, getLocalCRLConfig. rewrite Hfault.
    unfold bind at 1. unfold get at 1. unfold ret at 1.
    fold (indexOf w1).
    case_bool_decide as Hsize; simpl; [by apply raise_flag_run|].
    unfold bind at 1. unfold gracePeriod, expiresSoon.
    destruct (ParseDuration (AutoRebuildGracePeriod cfg)) as [e|p].
    + rewrite Hdefault. unfold ret at 1.
      destruct (existsb _ _); [by apply raise_flag_run|done].
    + unfold ret at 1.
      destruct (existsb _ _); [by apply raise_flag_run|done].
Qed.

Section OnDemoScheduling.
#[local] Existing Instance Demo.platform.

(** With auto-rebuild on and no CRL built yet the flag is raised; with the
    CRL of [I1] three days from its expiration it is not. *)
Lemma checkForAutoRebuild_decides_witness :
  forceRebuild (builder (checkForAutoRebuild Demo.autoMount Demo.world0).2)
  = 1%Z
  ∧ forceRebuild (builder (checkForAutoRebuild Demo.autoMount Demo.worldI1).2)
    = 0%Z.
Proof.
  split.
  - destruct (checkForAutoRebuild_decides Demo.autoMount Demo.world0
                (getConfigWithUpdate Demo.autoMount Demo.world0).2
                Demo.autoConfig eq_refl) as [_ Hdecide].
    rewrite (Hdecide (12 * Demo.hour)%Z); reflexivity.
  - destruct (checkForAutoRebuild_decides Demo.autoMount Demo.worldI1
                (getConfigWithUpdate Demo.autoMount Demo.worldI1).2
                Demo.autoConfig eq_refl) as [_ Hdecide].
    rewrite (Hdecide (12 * Demo.hour)%Z); reflexivity.
Defined.

End OnDemoScheduling.

(** ** Requests and forced rebuilds *)

Section Requests.
Context `{Platform}.

Lemma requestRebuild_run b w :
  activeNode b → forceRebuild (builder w) = 0%Z →
  requestRebuildIfActiveNode b w
  = (inr tt, set_builder (with_forceRebuild 1) w).
Proof.
  intros [Hs Hd] Hz. unfold requestRebuildIfActiveNode. rewrite Hs, Hd.
  simpl. by apply raise_flag_run.
Qed.

Lemma set_flag_twice v v' w :
  set_builder (with_forceRebuild v) (set_builder (with_forceRebuild v') w)
  = set_builder (with_forceRebuild v) w.
Proof. done. Qed.

End Requests.

(** X5. A request for a rebuild is honoured on the active node only: on a
    performance standby or a DR secondary it changes nothing; on the active
    node, with no request pending, the next [rebuildIfForced] runs a full
    build with [forceNew = true], on a world whose flag is back to 0. *)
Theorem request_then_rebuildIfForced `{Platform} (b : backend) (w : World) :
  (ReplicationPerformanceStandby b = true ∨ ReplicationDRSecondary b = true →
   requestRebuildIfActiveNode b w = (inr tt, w))
  ∧ (activeNode b → forceRebuild (builder w) = 0%Z →
     (_ <- requestRebuildIfActiveNode b ;; rebuildIfForced b) w
     = buildCRLs b true (set_builder (with_forceRebuild 0) w)).
Proof.
  split.
  - intros Hpassive. unfold requestRebuildIfActiveNode.
    destruct Hpassive as [-> | ->]; [done|]. by rewrite orb_true_r.
  - intros Hactive Hz. unfold bind at 1.
    rewrite requestRebuild_run by done.
    unfold rebuildIfForced, LoadForceRebuild. unfold_monad. simpl.
    rewrite _doRebuild_eq by (by right). simpl. done.
Qed.

Section OnDemoRequests.
#[local] Existing Instance Demo.platform.

Lemma request_then_rebuildIfForced_witness :
  (_ <- requestRebuildIfActiveNode Demo.mount ;; rebuildIfForced Demo.mount)
    Demo.world0
  = buildCRLs Demo.mount true
      (set_builder (with_forceRebuild 0) Demo.world0).
Proof.
  apply (request_then_rebuildIfForced Demo.mount Demo.world0).
  - by split.
  - reflexivity.
Defined.

End OnDemoRequests.

(** X6. The force-rebuild flag is a one-shot signal: whatever the first
    [rebuildIfForced] did, and however it ended, a second one right after it
    does nothing. *)
Theorem rebuildIfForced_is_one_shot `{Platform} (b : backend) (w w' : World)
    (r : result unit) :
  flagOK w →
  rebuildIfForced b w = (r, w') →
  rebuildIfForced b w' = (inr tt, w').
Proof.
  intros Hflag Hrun.
  assert (forceRebuild (builder w') = 0%Z) as Hz.
  { unfold rebuildIfForced, LoadForceRebuild in Hrun.
    unfold_monad; simpl in Hrun. case_bool_decide as Hone.
    - rewrite _doRebuild_eq in Hrun by done.
      rewrite bool_decide_eq_true_2 in Hrun by done. simpl in Hrun.
      pose proof (buildCRLs_sameFlag b true
                    (set_builder (with_forceRebuild 0) w)) as Hsame.
      rewrite Hrun in Hsame. exact Hsame.
    - destruct Hflag as [H0|H1]; [|done]. by simplify_eq. }
  unfold rebuildIfForced, LoadForceRebuild. unfold_monad. simpl.
  by rewrite Hz.
Qed.

Section OnDemoOneShot.
#[local] Existing Instance Demo.platform.

Lemma rebuildIfForced_is_one_shot_witness :
  let w' := (rebuildIfForced Demo.mount (Demo.forced Demo.world0)).2 in
  rebuildIfForced Demo.mount w' = (inr tt, w').
Proof.
  simpl.
  apply (rebuildIfForced_is_one_shot Demo.mount (Demo.forced Demo.world0) _
           (rebuildIfForced Demo.mount (Demo.forced Demo.world0)).1).
  - by right.
  - apply surjective_pairing.
Defined.

End OnDemoOneShot.

(** ** Building one CRL, continued *)

(** X7. A call of [buildCRL] that returns an error has written nothing: the
    CRL is stored by the last step, after everything that can fail. *)
Theorem buildCRL_failure_writes_nothing `{Platform} (b : backend)
    (crlInfo : crlConfig) (forceNew : bool) (issuer : string)
    (revoked : list pkix.RevokedCertificate) (id : string) (n : Z)
    (w w' : World) (err : error) :
  buildCRL b crlInfo forceNew issuer revoked id n w = (inl err, w') →
  w' = w.
Proof.
  unfold buildCRL, Storage.Put. unfold_monad.
  destruct (ParseDuration (Expiry crlInfo)) as [e|lifetime];
    [by intros [= _ <-]|].
  destruct (Disable crlInfo && negb forceNew); [done|].
  destruct (fetchCAInfoByIssuerId b issuer) as [e|sb];
    [destruct (isUserError e); by intros [= _ <-]|].
  destruct (CreateRevocationList _ _ _) as [e|crlBytes];
    [by intros [= _ <-]|].
  destruct (putFault b _) as [e|]; [|done].
  by intros [= _ <-].
Qed.

Section OnDemoBuildCRLFailure.
#[local] Existing Instance Demo.platform.

(** An issuer without a private key cannot sign. *)
Lemma buildCRL_failure_writes_nothing_witness :
  (buildCRL (Demo.mountWith ["I1"] (λ _, "") None)
     Demo.autoConfig false "I1" [] "crl-0" 1 Demo.world0).2
  = Demo.world0.
Proof.
  apply (buildCRL_failure_writes_nothing
           (Demo.mountWith ["I1"] (λ _, "") None)
           Demo.autoConfig false "I1" [] "crl-0" 1 Demo.world0 _
           (InternalError
              "error creating new CRL: x509: private key missing")).
  reflexivity.
Defined.

End OnDemoBuildCRLFailure.

(** X8. For a CRL that is not disabled, [buildCRL] succeeds exactly when the
    expiry parses, the signing bundle of the issuer is found, the template
    can be signed and the storage accepts the write.  The template carries
    the revoked certificates and the number it was given, is valid from now
    for the configured expiry, and is stored under [crls/<id>], or at the
    legacy path when the issuer is the legacy shim; the call returns the
    next update. *)
Theorem buildCRL_enabled_stores `{Platform} (b : backend)
    (crlInfo : crlConfig) (forceNew : bool) (issuer : string)
    (revoked : list pkix.RevokedCertificate) (id : string) (n : Z)
    (w : World) :
  Disable crlInfo = false →
  (∀ nextUpdate w',
     buildCRL b crlInfo forceNew issuer revoked id n w = (inr nextUpdate, w')
     ↔ ∃ lifetime sb crlBytes,
         ParseDuration (Expiry crlInfo) = inr lifetime
         ∧ fetchCAInfoByIssuerId b issuer = inr sb
         ∧ CreateRevocationList (crlTemplate b lifetime sb revoked n)
             (caCertificate sb) (caPrivateKey sb) = inr crlBytes
         ∧ putFault b (writePathOf issuer id) = None
         ∧ nextUpdate = time.Add (Now b) lifetime
         ∧ w' = set_storage <[writePathOf issuer id := crlBytes]> w).
Proof.
  intros Hdis nextUpdate w'.
  unfold buildCRL, Storage.Put, writePathOf, crlTemplate. rewrite Hdis.
  unfold_monad. simpl. split.
  - destruct (ParseDuration (Expiry crlInfo)) as [e|lifetime]; [done|].
    destruct (fetchCAInfoByIssuerId b issuer) as [e|sb];
      [by destruct (isUserError e)|].
    destruct (CreateRevocationList _ _ _) as [e|crlBytes] eqn:Hsign; [done|].
    destruct (putFault b _) as [e|] eqn:Hput; [done|].
    simpl. intros [= <- <-]. by exists lifetime, sb, crlBytes.
  - intros (lifetime & sb & crlBytes & -> & -> & -> & -> & -> & ->). done.
Qed.

Section OnDemoBuildCRL.
#[local] Existing Instance Demo.platform.

Lemma buildCRL_enabled_stores_witness :
  buildCRL Demo.mount Demo.autoConfig false "I1"
    [ {| pkix.SerialNumber := 17; pkix.RevocationTime := Demo.now |} ]
    "crl-0" 7 Demo.world0
  = (inr (time.Add Demo.now (72 * Demo.hour)%Z),
     set_storage <["crls/crl-0" := "CRL number=7 revoked=[17;]"]> Demo.world0).
Proof.
  apply (buildCRL_enabled_stores Demo.mount Demo.autoConfig false "I1"
           [ {| pkix.SerialNumber := 17; pkix.RevocationTime := Demo.now |} ]
           "crl-0" 7 Demo.world0 eq_refl).
  exists (72 * Demo.hour)%Z,
    {| caCertificate := Demo.certI1; caPrivateKey := "key-I1";
       RevocationSigAlg := 4 |},
    "CRL number=7 revoked=[17;]".
  repeat split; reflexivity.
Defined.

End OnDemoBuildCRL.

(** ** Finding the issuer of a certificate *)

(** X9. [associateRevokedCertWithIsssuer] reports success exactly when some
    issuer of the map issued the certificate (its subject is the
    certificate's issuer and the signature verifies).  On success the entry
    is returned with the id of such an issuer and is otherwise the same; on
    failure it is returned as it was. *)
Theorem associateRevokedCert_finds_an_issuer `{Platform}
    (revInfo : revocationInfo) (cert : x509.Certificate)
    (cm : gmap string x509.Certificate) :
  rangeVisitsAll →
  let r := associateRevokedCertWithIsssuer revInfo cert cm in
  (r.2 = true ↔ ∃ J ic, cm !! J = Some ic ∧ issuedBy cert ic = true)
  ∧ (r.2 = true →
     ∃ J ic, r.1 = with_CertificateIssuer J revInfo
             ∧ cm !! J = Some ic ∧ issuedBy cert ic = true)
  ∧ (r.2 = false → r.1 = revInfo).
Proof.
  intros Hperm r. subst r.
  destruct (associateRevokedCertWithIsssuer revInfo cert cm)
    as [revInfo' found] eqn:Hassoc. simpl.
  destruct found.
  - destruct (associate_found _ _ _ _ Hassoc) as (J & ic & Hri & HJ & Hok).
    split; [|split]; [|by eauto|done].
    split; [by eauto|done].
  - split; [|split]; [|done|].
    + split; [done|]. intros (J & ic & HJ & Hok).
      pose proof (associate_finds revInfo cert cm J ic Hperm HJ Hok) as Hf.
      by rewrite Hassoc in Hf.
    + intros _. by eapply associate_not_found.
Qed.

Section OnDemoAssociate.
#[local] Existing Instance Demo.platform.

Lemma associateRevokedCert_finds_an_issuer_witness :
  (associateRevokedCertWithIsssuer (Demo.entryOf "der-leaf3" "") Demo.leaf3
     {[ "I1" := Demo.certI1; "I3" := Demo.certI3 ]}).2 = true.
Proof.
  destruct (associateRevokedCert_finds_an_issuer
              (Demo.entryOf "der-leaf3" "") Demo.leaf3
              {[ "I1" := Demo.certI1; "I3" := Demo.certI3 ]}
              Demo_rangeVisitsAll) as [[_ Hfound] _].
  apply Hfound. exists "I3", Demo.certI3. by split.
Defined.

End OnDemoAssociate.

(** ** Issuers among the revoked certificates *)

Section Buckets.
Context `{Platform}.

Lemma elem_of_appendAt {A} (k : string) (y : A) (m : gmap string (list A))
    (i : string) (x : A) :
  x ∈ default [] (appendAt k y m !! i)
  ↔ x ∈ default [] (m !! i) ∨ (i = k ∧ x = y).
Proof.
  unfold appendAt. destruct (decide (i = k)) as [->|Hne].
  - rewrite lookup_insert_eq. simpl. rewrite elem_of_app, list_elem_of_singleton.
    split; (intros [?|Hx]; [by left|right]); [done|]. by destruct Hx.
  - rewrite lookup_insert_ne by done. split; [by left|].
    by intros [?|[? _]].
Qed.

Lemma elem_of_serial_buckets (l : list (string * x509.Certificate))
    (m0 : gmap string (list x509.Certificate)) (s : string)
    (c : x509.Certificate) :
  c ∈ default [] (foldl (λ m p, appendAt (serialFromCert p.2) p.2 m) m0 l !! s)
  ↔ c ∈ default [] (m0 !! s)
    ∨ (serialFromCert c = s ∧ ∃ k, (k, c) ∈ l).
Proof.
  revert m0. induction l as [|[k c0] l IH]; intros m0; simpl.
  - split; [by left|]. intros [?|(_ & k & Hk)]; [done|].
    by apply elem_of_nil in Hk.
  - rewrite IH, elem_of_appendAt. split.
    + intros [[?|[-> ->]]|(Hs & k' & Hk')]; [by left|right..].
      * split; [done|]. exists k. by apply elem_of_cons; left.
      * split; [done|]. exists k'. by apply elem_of_cons; right.
    + intros [?|(Hs & k' & Hk')]; [by left; left|].
      apply elem_of_cons in Hk' as [[= -> ->]|Hk'].
      * left; right. done.
      * right. split; [done|]. by exists k'.
Qed.

End Buckets.

(** X10. The test that keeps an issuer's own revocation entry off the CRLs:
    a revoked certificate is skipped exactly when some issuer of the build
    has the same serial number and the same bytes. *)
Theorem revokedCertIsIssuer_iff `{Platform}
    (cm : gmap string x509.Certificate) (cert : x509.Certificate) :
  rangeVisitsAll →
  revokedCertIsIssuer (issuerSerialCertMapOf cm) cert = true
  ↔ isIssuerCert cm cert.
Proof.
  intros Hperm. unfold revokedCertIsIssuer, issuerSerialCertMapOf, isIssuerCert.
  transitivity (∃ ic, ic ∈ default []
      (foldl (λ m p, appendAt (serialFromCert p.2) p.2 m) ∅ (rangeMap cm)
         !! serialFromCert cert) ∧ x509.Raw ic = x509.Raw cert).
  - destruct (foldl _ _ _ !! _) as [candidates|]; simpl.
    + rewrite existsb_exists. split.
      * intros (ic & Hin & Hraw). apply bool_decide_eq_true in Hraw.
        exists ic. by rewrite list_elem_of_In.
      * intros (ic & Hin & Hraw). exists ic. rewrite <- list_elem_of_In.
        split; [done|]. by apply bool_decide_eq_true.
    + split; [done|]. intros (ic & Hin & _). by apply elem_of_nil in Hin.
  - split.
    + intros (ic & Hin & Hraw). apply elem_of_serial_buckets in Hin.
      destruct Hin as [Hin|(Hs & J & HJ)].
      { rewrite lookup_empty in Hin. by apply elem_of_nil in Hin. }
      exists J, ic. split; [by apply elem_of_rangeMap_1|done].
    + intros (J & ic & HJ & Hs & Hraw). exists ic. split; [|done].
      apply elem_of_serial_buckets. right. split; [done|].
      exists J. by apply elem_of_rangeMap_2.
Qed.

Section OnDemoIsIssuer.
#[local] Existing Instance Demo.platform.

Lemma revokedCertIsIssuer_iff_witness :
  revokedCertIsIssuer
    (issuerSerialCertMapOf {[ "I1" := Demo.certI1; "I3" := Demo.certI3 ]})
    Demo.certI3 = true.
Proof.
  apply (revokedCertIsIssuer_iff
           {[ "I1" := Demo.certI1; "I3" := Demo.certI3 ]} Demo.certI3
           Demo_rangeVisitsAll).
  exists "I3", Demo.certI3. by split.
Defined.

End OnDemoIsIssuer.

(** ** Revoked issuers *)

Section Augment.
Context `{Platform}.

Lemma augmentOthers_run cm J cJ rc ids rm w rm' w' :
  forM (augmentOther cm J cJ rc) ids rm w = (inr rm', w') →
  w' = w
  ∧ ∀ i x, x ∈ default [] (rm' !! i)
           ↔ x ∈ default [] (rm !! i)
             ∨ (x = rc ∧ i ∈ ids ∧ i ≠ J
                ∧ ∃ ci, cm !! i = Some ci ∧ CheckSignatureFrom cJ ci = true).
Proof.
  revert rm w. induction ids as [|o ids IH]; intros rm w Hrun.
  - apply ret_inr in Hrun as [<- <-]. split; [done|]. intros i x.
    split; [by left|]. intros [?|(_ & Hin & _)]; [done|].
    by apply elem_of_nil in Hin.
  - apply forM_cons_inr in Hrun as (rm1 & w1 & Hstep & Hrest).
    apply IH in Hrest as [-> Hrest].
    assert (w1 = w ∧ ∀ i x, x ∈ default [] (rm1 !! i)
              ↔ x ∈ default [] (rm !! i)
                ∨ (x = rc ∧ i = o ∧ i ≠ J
                   ∧ ∃ ci, cm !! i = Some ci
                           ∧ CheckSignatureFrom cJ ci = true)) as [-> Hone].
    { unfold augmentOther in Hstep. case_bool_decide as HoJ.
      - apply ret_inr in Hstep as [<- <-]. split; [done|]. intros i x.
        split; [by left|]. intros [?|(_ & -> & Hne & _)]; done.
      - destruct (cm !! o) as [otherCert|] eqn:Ho; [|done].
        destruct (CheckSignatureFrom cJ otherCert) eqn:Hsig.
        + apply ret_inr in Hstep as [<- <-]. split; [done|]. intros i x.
          rewrite elem_of_appendAt. split.
          * intros [?|[-> ->]]; [by left|right]. repeat split; [done|].
            by exists otherCert.
          * intros [?|(-> & -> & _)]; [by left|by right].
        + apply ret_inr in Hstep as [<- <-]. split; [done|]. intros i x.
          split; [by left|]. intros [?|(_ & -> & _ & ci & Hci & Hok)]; [done|].
          rewrite Ho in Hci. simplify_eq. congruence. }
    split; [done|]. intros i x. rewrite Hrest, Hone. split.
    + intros [[?|(-> & -> & Hne & Hci)]|(-> & Hin & Hne & Hci)]; [by left|right..].
      * repeat split; [|done..]. by apply elem_of_cons; left.
      * repeat split; [|done..]. by apply elem_of_cons; right.
    + intros [?|(-> & Hin & Hne & Hci)]; [by left; left|].
      apply elem_of_cons in Hin as [->|Hin].
      * left; right. done.
      * right. done.
Qed.

Lemma augmentIssuers_run (em : gmap string issuerEntry) cm ps rm w rm' w' :
  forM (λ revokedCertsMap (p : string * issuerEntry),
          let '(ourIssuerID, ourIssuer) := p in
          if negb (Revoked ourIssuer) then ret revokedCertsMap
          else
            match cm !! ourIssuerID with
            | None => fail nilDeref
            | Some ourCert =>
                let ourRevCert :=
                  {| pkix.SerialNumber := x509.SerialNumber ourCert;
                     pkix.RevocationTime := issuerRevocationTimeUTC ourIssuer |} in
                forM (augmentOther cm ourIssuerID ourCert ourRevCert)
                     (rangeMap em).*1 revokedCertsMap
            end) ps rm w = (inr rm', w') →
  w' = w
  ∧ ∀ i x, x ∈ default [] (rm' !! i)
           ↔ x ∈ default [] (rm !! i)
             ∨ (∃ J e cJ ci,
                  (J, e) ∈ ps ∧ Revoked e = true ∧ cm !! J = Some cJ
                  ∧ i ∈ (rangeMap em).*1 ∧ i ≠ J ∧ cm !! i = Some ci
                  ∧ CheckSignatureFrom cJ ci = true
                  ∧ x = {| pkix.SerialNumber := x509.SerialNumber cJ;
                           pkix.RevocationTime := issuerRevocationTimeUTC e |}).
Proof.
  revert rm w. induction ps as [|[J e] ps IH]; intros rm w Hrun.
  - apply ret_inr in Hrun as [<- <-]. split; [done|]. intros i x.
    split; [by left|]. intros [?|(? & ? & ? & ? & Hin & _)]; [done|].
    by apply elem_of_nil in Hin.
  - apply forM_cons_inr in Hrun as (rm1 & w1 & Hstep & Hrest).
    apply IH in Hrest as [-> Hrest]. cbv beta iota in Hstep.
    destruct (Revoked e) eqn:Hrev; simpl in Hstep.
    + destruct (cm !! J) as [cJ|] eqn:HJ; [|done].
      apply augmentOthers_run in Hstep as [-> Hone].
      split; [done|]. intros i x. rewrite Hrest, Hone. split.
      * intros [[?|(-> & Hin & Hne & ci & Hci & Hok)]
               |(J' & e' & cJ' & ci & Hin & ?)]; [by left|right..].
        -- exists J, e, cJ, ci. repeat split; try done.
           by apply elem_of_cons; left.
        -- exists J', e', cJ', ci. split; [|done]. by apply elem_of_cons; right.
      * intros [?|(J' & e' & cJ' & ci & Hin & Hr & HJ' & Hi & Hne & Hci & Hok & ->)];
          [by left; left|].
        apply elem_of_cons in Hin as [[= -> ->]|Hin].
        -- left; right. rewrite HJ in HJ'. simplify_eq.
           repeat split; try done. by exists ci.
        -- right. exists J', e', cJ', ci. done.
    + apply ret_inr in Hstep as [<- <-]. split; [done|]. intros i x.
      rewrite Hrest. split.
      * intros [?|(J' & e' & cJ' & ci & Hin & ?)]; [by left|right].
        exists J', e', cJ', ci. split; [|done]. by apply elem_of_cons; right.
      * intros [?|(J' & e' & cJ' & ci & Hin & Hr & ?)]; [by left|].
        apply elem_of_cons in Hin as [[= -> ->]|Hin]; [congruence|].
        right. by exists J', e', cJ', ci.
Qed.

Lemma elem_of_rangeMap_keys {A} (m : gmap string A) (i : string) :
  rangeVisitsAll → i ∈ (rangeMap m).*1 ↔ is_Some (m !! i).
Proof.
  intros Hperm. rewrite list_elem_of_fmap. split.
  - intros ([k v] & -> & Hin). apply elem_of_rangeMap_1 in Hin. by eexists.
  - intros [v Hv]. exists (i, v). split; [done|]. by apply elem_of_rangeMap_2.
Qed.

End Augment.

(** X11. [augmentWithRevokedIssuers] writes nothing, and a certificate is
    in the bucket of issuer [i] afterwards exactly when it was there before
    or it is the entry of a revoked issuer other than [i] whose certificate
    verifies against the certificate of [i]: a revoked issuer is put on the
    CRLs of the issuers that signed it and never on its own. *)
Theorem augmentWithRevokedIssuers_adds `{Platform}
    (em : gmap string issuerEntry) (cm : gmap string x509.Certificate)
    (rm rm' : gmap string (list pkix.RevokedCertificate)) (w w' : World) :
  rangeVisitsAll →
  augmentWithRevokedIssuers em cm rm w = (inr rm', w') →
  w' = w
  ∧ ∀ i rc, rc ∈ default [] (rm' !! i)
            ↔ rc ∈ default [] (rm !! i) ∨ revokedIssuerEntry em cm i rc.
Proof.
  intros Hperm Hrun. unfold augmentWithRevokedIssuers in Hrun.
  apply augmentIssuers_run in Hrun as [-> Hrun]. split; [done|].
  intros i rc. rewrite Hrun. unfold revokedIssuerEntry. split.
  - intros [?|(J & e & cJ & ci & Hin & Hr & HJ & Hi & Hne & Hci & Hok & ->)];
      [by left|right].
    exists J, e, cJ, ci. apply elem_of_rangeMap_1 in Hin.
    apply elem_of_rangeMap_keys in Hi; [|done]. by repeat split.
  - intros [?|(J & e & cJ & ci & Hne & HJe & Hr & HJ & Hi & Hci & Hok & ->)];
      [by left|right].
    exists J, e, cJ, ci.
    split; [by apply elem_of_rangeMap_2|]. split; [done|]. split; [done|].
    split; [by apply elem_of_rangeMap_keys|]. by repeat split.
Qed.

Section OnDemoAugment.
#[local] Existing Instance Demo.platform.

(** [I2] is revoked; its certificate verifies against the certificate of
    [I1], which gets it on its CRL. *)
Lemma augmentWithRevokedIssuers_adds_witness :
  let em : gmap string issuerEntry :=
    {[ "I1" := Demo.entry "K1" "der-I1";
       "I2" := {| KeyID := "K1"; issuerCertificate := "der-I2";
                  Revoked := true; issuerRevocationTimeUTC := Demo.now;
                  usageCRLSigning := true |} ]} in
  let cm : gmap string x509.Certificate :=
    {[ "I1" := Demo.certI1; "I2" := Demo.certI2 ]} in
  let rm' : gmap string (list pkix.RevokedCertificate) :=
    {[ "I1" := [ {| pkix.SerialNumber := 2;
                    pkix.RevocationTime := Demo.now |} ] ]} in
  augmentWithRevokedIssuers em cm ∅ Demo.world0 = (inr rm', Demo.world0)
  ∧ ∀ i rc, rc ∈ default [] (rm' !! i)
            ↔ rc ∈ default [] ((∅ : gmap string (list pkix.RevokedCertificate)) !! i)
              ∨ revokedIssuerEntry em cm i rc.
Proof.
  intros em cm rm'.
  assert (augmentWithRevokedIssuers em cm ∅ Demo.world0
          = (inr rm', Demo.world0)) as Hrun by reflexivity.
  split; [exact Hrun|].
  apply (augmentWithRevokedIssuers_adds em cm ∅ rm' Demo.world0 Demo.world0
           Demo_rangeVisitsAll Hrun).
Defined.

End OnDemoAugment.

(** ** The issuers of a build *)

Section Signers.
Context `{Platform}.

Lemma collectIssuer_run b em cm ks issuer w em' cm' ks' w' :
  collectIssuer b (em, cm, ks) issuer w = (inr (em', cm', ks'), w') →
  w' = w
  ∧ ((signerOf b issuer = None ∧ em' = em ∧ cm' = cm)
     ∨ (∃ e c, signerOf b issuer = Some e ∧ GetCertificate e = inr c
               ∧ em' = <[issuer := e]> em ∧ cm' = <[issuer := c]> cm)).
Proof.
  unfold collectIssuer, signerOf. unfold_monad.
  destruct (fetchCertBundleByIssuerId b issuer) as [e|[thisEntry bundle]];
    simpl; [by destruct (errKind e)|].
  destruct (empty (KeyID thisEntry)); simpl.
  { intros [= <- <- <- <-]. split; [done|]. by left. }
  destruct (usageCRLSigning thisEntry); simpl.
  2:{ intros [= <- <- <- <-]. split; [done|]. by left. }
  destruct (GetCertificate thisEntry) as [e|thisCert] eqn:Hcert; simpl;
    [by destruct (errKind e)|].
  intros [= <- <- <- <-]. split; [done|]. right. by exists thisEntry, thisCert.
Qed.

Lemma collectIssuers_run b issuers em cm ks w em' cm' ks' w' :
  forM (collectIssuer b) issuers (em, cm, ks) w = (inr (em', cm', ks'), w') →
  w' = w
  ∧ ∀ i,
      (em' !! i = if bool_decide (i ∈ issuers ∧ is_Some (signerOf b i))
                  then signerOf b i else em !! i)
      ∧ (bool_decide (i ∈ issuers ∧ is_Some (signerOf b i)) = true →
         ∃ e c, signerOf b i = Some e ∧ GetCertificate e = inr c
                ∧ cm' !! i = Some c)
      ∧ (bool_decide (i ∈ issuers ∧ is_Some (signerOf b i)) = false →
         cm' !! i = cm !! i).
Proof.
  revert em cm ks w. induction issuers as [|issuer issuers IH];
    intros em cm ks w Hrun.
  - apply ret_inr in Hrun as [[= <- <- <-] <-]. split; [done|]. intros i.
    rewrite bool_decide_eq_false_2.
    2:{ intros [Hin _]. by apply elem_of_nil in Hin. }
    done.
  - apply forM_cons_inr in Hrun as ([[em1 cm1] ks1] & w1 & Hstep & Hrest).
    apply collectIssuer_run in Hstep as [-> Hstep].
    apply IH in Hrest as [-> Hrest]. split; [done|]. intros i.
    destruct (Hrest i) as (Hem & Hcm1 & Hcm2).
    destruct (decide (i ∈ issuers ∧ is_Some (signerOf b i))) as [Hlater|Hlater].
    + rewrite bool_decide_eq_true_2 in Hem, Hcm1 by done.
      rewrite bool_decide_eq_true_2.
      2:{ destruct Hlater. split; [by apply elem_of_cons; right|done]. }
      split; [done|]. split; [auto|done].
    + rewrite bool_decide_eq_false_2 in Hem, Hcm2 by done.
      specialize (Hcm2 eq_refl). rewrite Hem, Hcm2.
      destruct Hstep as [(Hnone & -> & ->)|(e & c & Hsome & Hcert & -> & ->)].
      * rewrite bool_decide_eq_false_2.
        2:{ intros [[->|Hin]%elem_of_cons Hs]; [|by apply Hlater].
            rewrite Hnone in Hs. by destruct Hs. }
        done.
      * destruct (decide (i = issuer)) as [->|Hne].
        -- rewrite bool_decide_eq_true_2.
           2:{ split; [by apply elem_of_cons; left|by rewrite Hsome]. }
           rewrite !lookup_insert_eq. split; [done|]. split; [|done].
           intros _. by exists e, c.
        -- rewrite bool_decide_eq_false_2.
           2:{ intros [[->|Hin]%elem_of_cons Hs]; [done|by apply Hlater]. }
           by rewrite !lookup_insert_ne.
Qed.

Lemma augmentOthers_total cm J cJ rc ids rm w :
  (∀ i, i ∈ ids → is_Some (cm !! i)) →
  ∃ rm', forM (augmentOther cm J cJ rc) ids rm w = (inr rm', w).
Proof.
  revert rm. induction ids as [|o ids IH]; intros rm Hids; simpl.
  - by exists rm.
  - unfold bind.
    assert (∃ rm1, augmentOther cm J cJ rc rm o w = (inr rm1, w)) as [rm1 ->].
    { unfold augmentOther. case_bool_decide; [by eexists|].
      destruct (Hids o) as [c ->]; [by apply elem_of_cons; left|].
      destruct (CheckSignatureFrom cJ c); by eexists. }
    apply IH. intros i Hi. apply Hids. by apply elem_of_cons; right.
Qed.

Lemma augmentWithRevokedIssuers_total (em : gmap string issuerEntry) cm rm w :
  (∀ i, is_Some (em !! i) → is_Some (cm !! i)) →
  ∃ rm', augmentWithRevokedIssuers em cm rm w = (inr rm', w).
Proof.
  intros Hkeys. unfold augmentWithRevokedIssuers.
  assert (∀ p, p ∈ rangeMap em → is_Some (cm !! p.1)) as Hps.
  { intros [J e] Hin. apply elem_of_rangeMap_1 in Hin. apply Hkeys. by eexists. }
  assert (∀ i, i ∈ (rangeMap em).*1 → is_Some (cm !! i)) as Hids.
  { intros i ([J e] & -> & Hin)%list_elem_of_fmap. by apply (Hps (J, e)). }
  revert Hps. generalize (rangeMap em) at 1 3 as ps. intros ps. revert rm.
  induction ps as [|[J e] ps IH]; intros rm Hps; simpl.
  - by exists rm.
  - unfold bind.
    assert (∃ rm1,
      (if negb (Revoked e) then ret rm
       else match cm !! J with
            | None => fail nilDeref
            | Some ourCert =>
                forM (augmentOther cm J ourCert
                        {| pkix.SerialNumber := x509.SerialNumber ourCert;
                           pkix.RevocationTime := issuerRevocationTimeUTC e |})
                     (rangeMap em).*1 rm
            end) w = (inr rm1, w)) as [rm1 ->].
    { destruct (Revoked e); simpl; [|by eexists].
      destruct (Hps (J, e)) as [cJ HJ]; [by apply elem_of_cons; left|].
      simpl in HJ. rewrite HJ. by apply augmentOthers_total. }
    apply IH. intros p Hp. apply Hps. by apply elem_of_cons; right.
Qed.

End Signers.

(** X12. The issuers a build works with: of the listed issuers, exactly
    those that have a key and may sign CRLs are collected, each with the
    entry that was fetched and the certificate of that entry; collecting
    them writes nothing. *)
Theorem collected_issuers_are_signers `{Platform} (b : backend)
    (issuers : list string) (w w' : World)
    (em : gmap string issuerEntry) (cm : gmap string x509.Certificate)
    (ks : gmap string (gmap string (list string))) :
  forM (collectIssuer b) issuers (∅, ∅, ∅) w = (inr (em, cm, ks), w') →
  w' = w
  ∧ ∀ i,
      (∀ e, em !! i = Some e ↔ i ∈ issuers ∧ signerOf b i = Some e)
      ∧ (∀ c, cm !! i = Some c
              ↔ ∃ e, em !! i = Some e ∧ GetCertificate e = inr c).
Proof.
  intros Hrun. apply collectIssuers_run in Hrun as [-> Hrun].
  split; [done|]. intros i. destruct (Hrun i) as (Hem & Hcm1 & Hcm2).
  case_bool_decide as Hi.
  - destruct (Hcm1 eq_refl) as (e & c & Hs & Hc & Hcm). split.
    + intros e'. rewrite Hem. split; [by intros ?; split; [apply Hi|]|].
      by intros [_ ?].
    + intros c'. rewrite Hcm, Hem, Hs. split.
      * intros [= <-]. by exists e.
      * intros (e' & [= <-] & Hc'). congruence.
  - rewrite Hem, (Hcm2 eq_refl), !lookup_empty. split.
    + intros e. split; [done|]. intros [Hin Hs]. destruct Hi.
      split; [done|]. by rewrite Hs.
    + intros c. split; [done|]. by intros (e & ? & _).
Qed.

Section OnDemoSigners.
#[local] Existing Instance Demo.platform.

Lemma collected_issuers_are_signers_witness :
  signerOf Demo.mount "I2" = Some (Demo.entry "K1" "der-I2").
Proof.
  destruct (collected_issuers_are_signers Demo.mount ["I1"; "I2"; "I3"]
              Demo.world0 Demo.world0
              {[ "I1" := Demo.entry "K1" "der-I1";
                 "I2" := Demo.entry "K1" "der-I2";
                 "I3" := Demo.entry "K3" "der-I3" ]}
              {[ "I1" := Demo.certI1; "I2" := Demo.certI2;
                 "I3" := Demo.certI3 ]}
              {[ "K1" := {[ "CN=A" := ["I1"; "I2"] ]};
                 "K3" := {[ "CN=B" := ["I3"] ]} ]})
    as [_ Hsigners]; [reflexivity|].
  destruct (Hsigners "I2") as [Hentry _].
  destruct (proj1 (Hentry (Demo.entry "K1" "der-I2"))) as [_ Hsigner];
    [reflexivity|exact Hsigner].
Defined.

End OnDemoSigners.

(** X13. The lookups of [augmentWithRevokedIssuers] in the certificate map
    never miss in a build: on the maps that the loop over the issuers
    collected, the function returns, whatever the revoked certificates, and
    leaves the world as it was. *)
Theorem augment_after_collect_returns `{Platform} (b : backend)
    (issuers : list string) (w w1 : World)
    (em : gmap string issuerEntry) (cm : gmap string x509.Certificate)
    (ks : gmap string (gmap string (list string))) :
  forM (collectIssuer b) issuers (∅, ∅, ∅) w = (inr (em, cm, ks), w1) →
  ∀ rm w2, ∃ rm', augmentWithRevokedIssuers em cm rm w2 = (inr rm', w2).
Proof.
  intros Hrun rm w2. apply augmentWithRevokedIssuers_total.
  apply collectIssuers_run in Hrun as [_ Hrun].
  intros i [e He]. destruct (Hrun i) as (Hem & Hcm1 & _).
  case_bool_decide as Hi.
  - destruct (Hcm1 eq_refl) as (e' & c & _ & _ & ->). by eexists.
  - rewrite Hem, lookup_empty in He. done.
Qed.

Section OnDemoAugmentReturns.
#[local] Existing Instance Demo.platform.

Lemma augment_after_collect_returns_witness :
  ∃ rm', augmentWithRevokedIssuers
           {[ "I1" := Demo.entry "K1" "der-I1";
              "I2" := Demo.entry "K1" "der-I2";
              "I3" := Demo.entry "K3" "der-I3" ]}
           {[ "I1" := Demo.certI1; "I2" := Demo.certI2;
              "I3" := Demo.certI3 ]} ∅ Demo.world0
         = (inr rm', Demo.world0).
Proof.
  apply (augment_after_collect_returns Demo.mount ["I1"; "I2"; "I3"]
           Demo.world0 Demo.world0 _ _
           {[ "K1" := {[ "CN=A" := ["I1"; "I2"] ]};
              "K3" := {[ "CN=B" := ["I3"] ]} ]}).
  reflexivity.
Defined.

End OnDemoAugmentReturns.

(** ** Revocation entries that cannot be read *)

Section Unreadable.
Context `{Platform}.

Lemma revokedEntryStep_unreadable b cm sm acc serial w value :
  storage w !! (revokedPath +:+ serial) = Some value →
  unreadableEntry value →
  ∃ err, revokedEntryStep b cm sm acc serial w = (inl err, w).
Proof.
  intros Hget Hbad. unfold revokedEntryStep, Storage.Get. destruct acc as [un rm].
  unfold_monad. destruct (getFault b _) as [e|]; simpl; [by eexists|].
  rewrite Hget. unfold empty. case_bool_decide as Hempty; [by eexists|].
  destruct Hbad as [->|[[e He]|(revInfo & e & Hdec & Hparse)]]; [done|..].
  - rewrite He. simpl. by eexists.
  - rewrite Hdec. simpl. rewrite Hparse. simpl. by eexists.
Qed.

Lemma entries_unreadable b cm sm serial0 value :
  unreadableEntry value →
  ∀ serials acc w,
    serial0 ∈ serials →
    storage w !! (revokedPath +:+ serial0) = Some value →
    ∃ err w', forM (revokedEntryStep b cm sm) serials acc w = (inl err, w').
Proof.
  intros Hbad. induction serials as [|serial serials IH]; intros acc w Hin Hget.
  - by apply elem_of_nil in Hin.
  - simpl. unfold bind. destruct (decide (serial = serial0)) as [->|Hne].
    + destruct (revokedEntryStep_unreadable b cm sm acc serial0 w value)
        as [err ->]; [done..|]. by eexists _, _.
    + pose proof (revokedEntryStep_other b cm sm acc serial serial0 Hne w)
        as Hst.
      destruct (revokedEntryStep b cm sm acc serial w) as [[err|acc1] w1];
        [by eexists _, _|].
      apply IH.
      * apply elem_of_cons in Hin as [->|Hin]; done.
      * unfold sameAt in Hst. simpl in Hst. by rewrite Hst.
Qed.

End Unreadable.

(** X14. One revocation entry that cannot be read (empty, not decodable, or
    with a certificate that does not parse) makes [getRevokedCertEntries]
    return an error, and with it every build that gets as far as the
    revoked certificates. *)
Theorem unreadable_entry_fails_build `{Platform} (b : backend)
    (forceNew : bool) (w : World) (serial value : string) :
  rangeVisitsAll →
  storage w !! (revokedPath +:+ serial) = Some value →
  unreadableEntry value →
  (∀ cm, ∃ err w', getRevokedCertEntries b cm w = (inl err, w'))
  ∧ ∀ w', buildCRLs b forceNew w = (inr tt, w') → ¬ buildRuns b forceNew w.
Proof.
  intros Hperm Hget Hbad.
  assert (∀ cm w0, storage w0 = storage w →
            ∃ err w', getRevokedCertEntries b cm w0 = (inl err, w')) as Hfails.
  { intros cm w0 Hsame. unfold getRevokedCertEntries, Storage.List.
    unfold bind at 1. unfold wrapErr.
    destruct (listFault b revokedPath) as [e|]; [by eexists _, _|].
    unfold bind at 1, get, ret.
    apply (entries_unreadable b cm _ serial value Hbad).
    - apply listed_serials_elem; [done|]. rewrite Hsame, Hget. by eexists.
    - by rewrite Hsame. }
  split; [intros cm; by apply Hfails|].
  intros w' Hrun Hruns.
  destruct (buildCRLs_trace b forceNew w w' Hruns Hrun)
    as [g config em cm ks c0 un rm rm' c1 w0 w1 w2 w3 w4 w5
        Hcfg _ _ Hcollect Hindex Hentries _ _ _ _].
  destruct (Hfails cm w2) as (err & w6 & Hfail); [|by rewrite Hfail in Hentries].
  pose proof (getConfigWithUpdate_samePersisted b w) as Hs0.
  rewrite Hcfg in Hs0. destruct Hs0 as [Hs0 _]. simpl in Hs0.
  apply (collectIssuers_anywhere _ _ _ _ _ _ w0) in Hcollect as [-> _].
  pose proof (getLocalCRLConfig_unchanged b w0) as Hs2.
  rewrite Hindex in Hs2. unfold unchanged in Hs2. simpl in Hs2. by subst.
Qed.

Section OnDemoUnreadable.
#[local] Existing Instance Demo.platform.

(** The entry of serial [11] is empty. *)
Lemma unreadable_entry_fails_build_witness :
  ∃ err w',
    getRevokedCertEntries Demo.mount ∅
      (set_storage <["revoked/11" := ""]> Demo.world0) = (inl err, w').
Proof.
  destruct (unreadable_entry_fails_build Demo.mount false
              (set_storage <["revoked/11" := ""]> Demo.world0) "11" ""
              Demo_rangeVisitsAll) as [Hfails _].
  - reflexivity.
  - by left.
  - apply Hfails.
Defined.

End OnDemoUnreadable.

(** ** The keys a build writes *)

#[local] Instance sameElsewhere_preorder `{Platform} : PreOrder sameElsewhere.
Proof.
  split; [done|]. intros w1 w2 w3 H12 H23 k Hk.
  rewrite (H23 k Hk). by apply H12.
Qed.

Section Elsewhere.
Context `{Platform}.

Lemma sameElsewhere_builder w f : sameElsewhere w (set_builder f w).
Proof. done. Qed.

Lemma sameElsewhere_put w k v :
  buildKey k → sameElsewhere w (set_storage <[k := v]> w).
Proof.
  intros Hk k' Hk'. simpl. rewrite lookup_insert_ne; [done|]. by intros ->.
Qed.

Lemma sameElsewhere_delete w k :
  buildKey k → sameElsewhere w (set_storage (delete k) w).
Proof.
  intros Hk k' Hk'. simpl. rewrite lookup_delete_ne; [done|]. by intros ->.
Qed.

Lemma buildKey_revoked serial : buildKey (revokedPath +:+ serial).
Proof. left. unfold underRevoked. rewrite stripPrefix_app_eq. by eexists. Qed.

Lemma buildKey_crls id : buildKey ("crls/" +:+ id).
Proof. right; left. rewrite stripPrefix_app_eq. by eexists. Qed.

Lemma buildKey_legacy : buildKey legacyCRLPath.
Proof. by right; right. Qed.

Lemma revokedEntryStep_sameElsewhere b cm sm acc serial :
  stable sameElsewhere (revokedEntryStep b cm sm acc serial).
Proof.
  unfold revokedEntryStep, Storage.Get, Storage.Put.
  destruct acc as [un rm]. repeat stable_step; try done.
  apply sameElsewhere_put, buildKey_revoked.
Qed.

Lemma buildCRLs_sameElsewhere b forceNew :
  stable sameElsewhere (buildCRLs b forceNew).
Proof.
  apply stable_buildCRLs; try exact _; try done.
  - intros. apply sameElsewhere_put, buildKey_crls.
  - intros. apply sameElsewhere_put, buildKey_legacy.
  - intros. apply sameElsewhere_delete, buildKey_crls.
  - intros. apply revokedEntryStep_sameElsewhere.
Qed.

Lemma rebuild_sameElsewhere b forceNew :
  stable sameElsewhere (rebuild b forceNew).
Proof.
  unfold rebuild, _doRebuild, LoadForceRebuild, CompareAndSwapForceRebuild.
  repeat stable_step; try done; apply buildCRLs_sameElsewhere.
Qed.

End Elsewhere.

(** X15. A build, and so a rebuild, writes and deletes only revocation
    entries, CRLs below [crls/] and the legacy CRL: every other key of the
    storage holds afterwards what it held before, whether the build
    succeeds or fails. *)
Theorem build_writes_only_its_keys `{Platform} (b : backend)
    (forceNew : bool) (w : World) :
  sameElsewhere w (buildCRLs b forceNew w).2
  ∧ sameElsewhere w (rebuild b forceNew w).2
  ∧ sameElsewhere w (rebuildIfForced b w).2.
Proof.
  split; [apply buildCRLs_sameElsewhere|]. split; [apply rebuild_sameElsewhere|].
  assert (stable sameElsewhere (rebuildIfForced b)) as Hst; [|apply Hst].
  unfold rebuildIfForced, _doRebuild, LoadForceRebuild,
    CompareAndSwapForceRebuild.
  repeat stable_step; try done; apply buildCRLs_sameElsewhere.
Qed.

(** ** What a revocation may touch *)

Section RevokeFrame.
Context `{Platform} (R : World → World → Prop) `{!PreOrder R} (b : backend).
Hypothesis R_config : ∀ w c, R w (set_builder (with_config c) w).
Hypothesis R_dirty : ∀ w d, R w (set_builder (with_dirty d) w).
Hypothesis R_put_revoked :
  ∀ w serial v, R w (set_storage <[revokedPath +:+ serial := v]> w).
Hypothesis R_rebuild : ∀ forceNew, stable R (rebuild b forceNew).

Lemma stable_of_unchanged {E A} (m : ME E A) :
  stable unchanged m → stable R m.
Proof. intros Hm w. specialize (Hm w). unfold unchanged in Hm. by rewrite Hm. Qed.

Lemma stable_revokeNew serial fromLease cm :
  stable R (revokeNew b serial fromLease cm).
Proof.
  unfold revokeNew.
  stable_step; [apply stable_of_unchanged, fetchOrLeave_unchanged|].
  unfold Storage.Put. repeat stable_step. apply R_put_revoked.
Qed.

Lemma stable_finishRevoke' revInfo : stable R (finishRevoke b revInfo).
Proof.
  unfold finishRevoke.
  stable_step; [stable_by stable_getConfigWithUpdate|].
  stable_step; [|stable_step].
  destruct (negb (AutoRebuild a)); [|stable_step].
  intros w. pose proof (R_rebuild false w) as Hst.
  destruct (rebuild b false w) as [[e|[]] w1]; simpl in *; [|done].
  by destruct (isUserError e).
Qed.

Lemma stable_revokeCert serial fromLease :
  stable R (revokeCert b serial fromLease).
Proof.
  unfold revokeCert. stable_step. destruct (Tainted b); [stable_step|].
  stable_step; [apply stable_of_unchanged, revokeIssuers_unchanged|].
  stable_step; [apply stable_of_unchanged, loadIssuers_unchanged|].
  stable_step; [apply stable_of_unchanged, fetchOrLeave_unchanged|].
  stable_step; [|apply stable_finishRevoke'].
  destruct a1 as [value|]; [repeat stable_step|apply stable_revokeNew].
Qed.

End RevokeFrame.

(** X16. Revoking a certificate writes only revocation entries, CRLs and
    the legacy CRL: the issued certificates under [certs/] and every other
    key of the storage are left as they were, whatever the call returns. *)
Theorem revokeCert_writes_only_build_keys `{Platform} (b : backend)
    (serial : string) (fromLease : bool) (w : World) :
  sameElsewhere w (revokeCert b serial fromLease w).2.
Proof.
  apply stable_revokeCert; try exact _; try done.
  - intros. apply sameElsewhere_put, buildKey_revoked.
  - intros. apply rebuild_sameElsewhere.
Qed.

#[local] Instance keepsRevoked_preorder : PreOrder keepsRevoked.
Proof.
  split; [by intros w k|]. intros w1 w2 w3 H12 H23 k Hk Hs.
  apply (H23 k Hk), (H12 k Hk), Hs.
Qed.

Section NeverRemoved.
Context `{Platform}.

Lemma keepsRevoked_same w w' : storage w' = storage w → keepsRevoked w w'.
Proof. intros Hs k _. by rewrite Hs. Qed.

Lemma keepsRevoked_put w k v : keepsRevoked w (set_storage <[k := v]> w).
Proof.
  intros k' Hk' Hs. simpl. destruct (decide (k = k')) as [->|Hne].
  - rewrite lookup_insert_eq. by eexists.
  - by rewrite lookup_insert_ne.
Qed.

Lemma keepsRevoked_delete w k :
  ¬ underRevoked k → keepsRevoked w (set_storage (delete k) w).
Proof.
  intros Hk k' Hk' Hs. simpl. rewrite lookup_delete_ne; [done|]. by intros ->.
Qed.

Lemma buildCRLs_keepsRevoked b forceNew :
  stable keepsRevoked (buildCRLs b forceNew).
Proof.
  apply stable_buildCRLs; try exact _;
    try (intros; by apply keepsRevoked_same).
  - intros. apply keepsRevoked_put.
  - intros. apply keepsRevoked_put.
  - intros. apply keepsRevoked_delete, crls_not_underRevoked.
  - intros. unfold revokedEntryStep, Storage.Get, Storage.Put.
    destruct acc as [un rm]. repeat stable_step; try done.
    apply keepsRevoked_put.
Qed.

Lemma keepsRevoked_flag w v :
  keepsRevoked w (set_builder (with_forceRebuild v) w).
Proof. by apply keepsRevoked_same. Qed.

Lemma _doRebuild_keepsRevoked b forceNew ignoreForceFlag :
  stable keepsRevoked (_doRebuild b forceNew ignoreForceFlag).
Proof.
  unfold _doRebuild, LoadForceRebuild, CompareAndSwapForceRebuild.
  repeat stable_step; try done; try apply keepsRevoked_flag;
    apply buildCRLs_keepsRevoked.
Qed.

End NeverRemoved.

(** X17. No operation of the CRL builder removes a revocation entry: a
    serial that has an entry under [revoked/] has one after a build, a
    rebuild, a forced rebuild and a revocation, whether they succeed or
    fail. *)
Theorem revocation_entries_are_never_removed `{Platform} (b : backend)
    (forceNew : bool) (serial : string) (fromLease : bool) (w : World) :
  keepsRevoked w (buildCRLs b forceNew w).2
  ∧ keepsRevoked w (rebuild b forceNew w).2
  ∧ keepsRevoked w (rebuildIfForced b w).2
  ∧ keepsRevoked w (revokeCert b serial fromLease w).2.
Proof.
  split; [apply buildCRLs_keepsRevoked|].
  split; [apply _doRebuild_keepsRevoked|]. split.
  - assert (stable keepsRevoked (rebuildIfForced b)) as Hst; [|apply Hst].
    unfold rebuildIfForced, LoadForceRebuild.
    repeat stable_step; apply _doRebuild_keepsRevoked.
  - apply stable_revokeCert; try exact _;
      try (intros; by apply keepsRevoked_same).
    + intros. apply keepsRevoked_put.
    + intros. apply _doRebuild_keepsRevoked.
Qed.

(** X18. The force-rebuild flag is 0 or 1 in a new builder, and every
    operation that touches the builder keeps it so. *)
Theorem force_flag_is_zero_or_one `{Platform} (b : backend)
    (forceNew : bool) (serial : string) (fromLease : bool) (w : World) :
  flagOK (set_builder (λ _, newCRLBuilder) w)
  ∧ (flagOK w →
     flagOK (rebuild b forceNew w).2
     ∧ flagOK (rebuildIfForced b w).2
     ∧ flagOK (requestRebuildIfActiveNode b w).2
     ∧ flagOK (checkForAutoRebuild b w).2
     ∧ flagOK (revokeCert b serial fromLease w).2).
Proof.
  split; [by left|]. intros Hw. repeat split.
  - by apply _doRebuild_keepsFlagOK.
  - by apply rebuildIfForced_keepsFlagOK.
  - by apply requestRebuildIfActiveNode_keepsFlagOK.
  - by apply checkForAutoRebuild_keepsFlagOK.
  - revert Hw. apply stable_revokeCert; try exact _; try done.
    intros f. apply _doRebuild_keepsFlagOK.
Qed.

Section OnDemoFlag.
#[local] Existing Instance Demo.platform.

Lemma force_flag_is_zero_or_one_witness :
  flagOK (revokeCert Demo.mount "11" false (Demo.forced Demo.world0)).2.
Proof.
  destruct (force_flag_is_zero_or_one Demo.mount false "11" false
              (Demo.forced Demo.world0)) as [_ Hkeeps].
  apply Hkeeps. by right.
Defined.

End OnDemoFlag.

(** ** Revocations that are refused without an error *)

Section RevokeLeaves.
Context `{Platform}.

(** When the block that would revoke the certificate leaves early with a
    response and writes nothing, so does [revokeCert]. *)
Lemma revokeCert_leaves b serial fromLease w resp :
  storage w !! (revokedPath +:+ normalizeSerial serial) = None →
  (∀ cm, ∃ r, revokeNew b serial fromLease cm w = (inl r, w)
              ∧ (getFault b ("certs/" +:+ normalizeSerial serial) = None →
                 r = Return resp)) →
  (revokeCert b serial fromLease w).2 = w
  ∧ (∀ issuers issuerIDCertMap,
       Tainted b = false →
       revokeIssuers b w = (inr issuers, w) →
       forM (issuerCertStep b serial) issuers ∅ w = (inr issuerIDCertMap, w) →
       getFault b (revokedPath +:+ normalizeSerial serial) = None →
       getFault b ("certs/" +:+ normalizeSerial serial) = None →
       revokeCert b serial fromLease w = (inr resp, w)).
Proof.
  intros Hnew Hleaves. split.
  - unfold revokeCert, returning.
    destruct (Tainted b); [done|]. unfold bind.
    destruct (run_unchanged (revokeIssuers b) w
                (revokeIssuers_unchanged b)) as [r1 ->].
    destruct r1 as [[?|?]|issuers]; [done..|].
    destruct (run_unchanged (forM (issuerCertStep b serial) issuers ∅) w
                (loadIssuers_unchanged b serial issuers ∅)) as [r2 ->].
    destruct r2 as [[?|?]|cm]; [done..|].
    destruct (getFault b (revokedPath +:+ normalizeSerial serial))
      as [e|] eqn:Hf.
    + unfold fetchOrLeave, fetchCertBySerial, Storage.Get. rewrite Hf.
      unfold fail. by destruct (isUserError e).
    + rewrite fetchOrLeave_found by done. rewrite Hnew.
      destruct (Hleaves cm) as (r & -> & _). by destruct r.
  - intros issuers cm Htaint Hiss Hload Hf1 Hf2.
    unfold revokeCert, returning. rewrite Htaint. unfold bind.
    rewrite Hiss, Hload. rewrite fetchOrLeave_found by done. rewrite Hnew.
    destruct (Hleaves cm) as (r & -> & Hr). by rewrite (Hr Hf2).
Qed.

Lemma revokeNew_not_found b serial fromLease cm w :
  storage w !! ("certs/" +:+ normalizeSerial serial) = None →
  ∃ r, revokeNew b serial fromLease cm w = (inl r, w)
       ∧ (getFault b ("certs/" +:+ normalizeSerial serial) = None →
          r = Return (notFoundResponse serial fromLease)).
Proof.
  intros Hcert. unfold revokeNew, bind, notFoundResponse.
  destruct (getFault b ("certs/" +:+ normalizeSerial serial)) as [e|] eqn:Hf.
  - unfold fetchOrLeave, fetchCertBySerial, Storage.Get. rewrite Hf.
    unfold fail. destruct (isUserError e); eexists; (split; [done|done]).
  - rewrite fetchOrLeave_found by done. rewrite Hcert.
    destruct fromLease; eexists; (split; [done|done]).
Qed.

Lemma revokeNew_ca_from_lease b serial cm w certValue cert :
  storage w !! ("certs/" +:+ normalizeSerial serial) = Some certValue →
  ParseCertificate certValue = inr cert →
  x509.IsCA cert = true →
  ∃ r, revokeNew b serial true cm w = (inl r, w)
       ∧ (getFault b ("certs/" +:+ normalizeSerial serial) = None →
          r = Return (if time.Before (x509.NotAfter cert)
                           (time.Add (Now b) (2 * time.Second)%Z)
                      then Some (expiredWarning serial) else None)).
Proof.
  intros Hcert Hparse Hca. unfold revokeNew, bind.
  destruct (getFault b ("certs/" +:+ normalizeSerial serial)) as [e|] eqn:Hf.
  - unfold fetchOrLeave, fetchCertBySerial, Storage.Get. rewrite Hf.
    unfold fail. destruct (isUserError e); eexists; (split; [done|done]).
  - rewrite fetchOrLeave_found by done. rewrite Hcert, Hparse, Hca.
    destruct (time.Before _ _); eexists; (split; [done|done]).
Qed.

End RevokeLeaves.

(** X19. Revoking a serial that has neither a revocation entry nor a
    certificate writes nothing; when the call gets as far as the lookup, a
    revocation on behalf of a lease succeeds with no response and any other
    is answered with the error response "certificate with serial ... not
    found". *)
Theorem revoke_unknown_serial `{Platform} (b : backend) (serial : string)
    (fromLease : bool) (w : World) :
  storage w !! (revokedPath +:+ normalizeSerial serial) = None →
  storage w !! ("certs/" +:+ normalizeSerial serial) = None →
  (revokeCert b serial fromLease w).2 = w
  ∧ (∀ issuers issuerIDCertMap,
       Tainted b = false →
       revokeIssuers b w = (inr issuers, w) →
       forM (issuerCertStep b serial) issuers ∅ w = (inr issuerIDCertMap, w) →
       getFault b (revokedPath +:+ normalizeSerial serial) = None →
       getFault b ("certs/" +:+ normalizeSerial serial) = None →
       revokeCert b serial fromLease w
       = (inr (notFoundResponse serial fromLease), w)).
Proof.
  intros Hnew Hcert. apply revokeCert_leaves; [done|].
  intros cm. by apply revokeNew_not_found.
Qed.

Section OnDemoUnknown.
#[local] Existing Instance Demo.platform.

Lemma revoke_unknown_serial_witness :
  revokeCert Demo.mount "99" false Demo.world0
  = (inr (Some (logical.ErrorResponse
                  "certificate with serial 99 not found")), Demo.world0).
Proof.
  destruct (revoke_unknown_serial Demo.mount "99" false Demo.world0)
    as [_ Hanswer].
  - reflexivity.
  - reflexivity.
  - apply (Hanswer ["I1"; "I2"; "I3"]
             {[ "I1" := Demo.certI1; "I2" := Demo.certI2;
                "I3" := Demo.certI3 ]}); reflexivity.
Defined.

End OnDemoUnknown.

(** X20. A lease never revokes a CA certificate: for a stored certificate
    with [IsCA] set and no revocation entry, [revokeCert] called on behalf
    of a lease writes nothing and, when it gets as far as the certificate,
    succeeds with no response (with the expiry warning when the
    certificate expires within two seconds). *)
Theorem lease_does_not_revoke_ca `{Platform} (b : backend) (serial : string)
    (w : World) (certValue : string) (cert : x509.Certificate) :
  storage w !! (revokedPath +:+ normalizeSerial serial) = None →
  storage w !! ("certs/" +:+ normalizeSerial serial) = Some certValue →
  ParseCertificate certValue = inr cert →
  x509.IsCA cert = true →
  (revokeCert b serial true w).2 = w
  ∧ (∀ issuers issuerIDCertMap,
       Tainted b = false →
       revokeIssuers b w = (inr issuers, w) →
       forM (issuerCertStep b serial) issuers ∅ w = (inr issuerIDCertMap, w) →
       getFault b (revokedPath +:+ normalizeSerial serial) = None →
       getFault b ("certs/" +:+ normalizeSerial serial) = None →
       revokeCert b serial true w
       = (inr (if time.Before (x509.NotAfter cert)
                    (time.Add (Now b) (2 * time.Second)%Z)
               then Some (expiredWarning serial) else None), w)).
Proof.
  intros Hnew Hcert Hparse Hca. apply revokeCert_leaves; [done|].
  intros cm. by eapply revokeNew_ca_from_lease.
Qed.

Section OnDemoLeaseCA.
#[local] Existing Instance Demo.platform.

(** The certificate of [I3] is stored as an issued certificate; its serial
    is not the serial of an issuer of the mount. *)
Lemma lease_does_not_revoke_ca_witness :
  revokeCert Demo.soloMount "1a:2b" true
    (set_storage <["certs/1a:2b" := "der-I3"]> Demo.world0)
  = (inr None, set_storage <["certs/1a:2b" := "der-I3"]> Demo.world0).
Proof.
  destruct (lease_does_not_revoke_ca Demo.soloMount "1a:2b"
              (set_storage <["certs/1a:2b" := "der-I3"]> Demo.world0)
              "der-I3" Demo.certI3) as [_ Hanswer].
  - reflexivity.
  - reflexivity.
  - reflexivity.
  - reflexivity.
  - apply (Hanswer ["I1"] {[ "I1" := Demo.certI1 ]}); reflexivity.
Defined.

End OnDemoLeaseCA.

(** ** The members of a class *)

Section Members.
Context `{Platform}.

Lemma memberStep_run config un rm c rc rep id iss i w rc' rep' id' iss' w' :
  memberStep config un rm c (rc, rep, id, iss) i w
  = (inr (rc', rep', id', iss'), w') →
  w' = w
  ∧ rc' = rc ++ memberRevoked config un rm i
  ∧ rep' = (if bool_decide (i = DefaultIssuerId config) then i else rep)
  ∧ match IssuerIDCRLMap c !! i with
    | Some x => if empty x then id' = id else (id = "" ∨ id = x) ∧ id' = x
    | None => id' = id
    end.
Proof.
  unfold memberStep, memberRevoked. intros Hrun.
  assert (rc ++ (if bool_decide (i = DefaultIssuerId config) then un else [])
             ++ default [] (rm !! i)
          = (let '(revokedCerts, _) :=
               if bool_decide (i = DefaultIssuerId config)
               then (rc ++ un, i) else (rc, rep) in
             match rm !! i with
             | Some thisRevoked => revokedCerts ++ thisRevoked
             | None => revokedCerts
             end)) as Hrc.
  { case_bool_decide; destruct (rm !! i); simpl;
      by rewrite ?app_nil_r, ?app_assoc. }
  rewrite Hrc. clear Hrc.
  destruct (bool_decide (i = DefaultIssuerId config));
    destruct (IssuerIDCRLMap c !! i) as [x|]; simpl in *;
    try (apply ret_inr in Hrun as [[= <- <- <- <-] <-]; done);
    (destruct (empty x) eqn:Hx; simpl in *;
     [apply ret_inr in Hrun as [[= <- <- <- <-] <-]; done|]);
    (unfold empty in Hrun; case_bool_decide as Hid; simpl in Hrun;
     [apply ret_inr in Hrun as [[= <- <- <- <-] <-]; repeat split; by left|]);
    (case_bool_decide as Hsame; simpl in Hrun;
     [apply ret_inr in Hrun as [[= <- <- <- <-] <-]; repeat split; by right
     |done]).
Qed.

Lemma members_run config un rm c l :
  ∀ rc rep id iss w rc' rep' id' iss' w',
    forM (memberStep config un rm c) l (rc, rep, id, iss) w
    = (inr (rc', rep', id', iss'), w') →
    w' = w
    ∧ rc' = rc ++ concat (memberRevoked config un rm <$> l)
    ∧ rep' = (if bool_decide (DefaultIssuerId config ∈ l)
              then DefaultIssuerId config else rep)
    ∧ (∀ i x, i ∈ l → IssuerIDCRLMap c !! i = Some x → x ≠ "" → id' = x)
    ∧ (id ≠ "" → id' = id)
    ∧ (id' ≠ "" →
       id' = id ∨ ∃ i, i ∈ l ∧ IssuerIDCRLMap c !! i = Some id').
Proof.
  induction l as [|i l IH]; intros rc rep id iss w rc' rep' id' iss' w' Hrun.
  - apply ret_inr in Hrun as [[= <- <- <- <-] <-]. simpl.
    rewrite app_nil_r. repeat split; try done.
    + intros i x Hin. by apply elem_of_nil in Hin.
    + by left.
  - apply forM_cons_inr in Hrun as ([[[rc1 rep1] id1] iss1] & w1 & Hstep & Hrest).
    apply memberStep_run in Hstep as (-> & -> & -> & Hid1).
    apply IH in Hrest as (-> & -> & -> & Hall & Hkeep & Hfrom).
    split; [done|]. split; [by rewrite fmap_cons, <- app_assoc|].
    split.
    { destruct (decide (DefaultIssuerId config ∈ l)) as [Hin|Hout].
      - rewrite !bool_decide_eq_true_2; [done| |done].
        by apply elem_of_cons; right.
      - rewrite (bool_decide_eq_false_2 (DefaultIssuerId config ∈ l)) by done.
        destruct (decide (i = DefaultIssuerId config)) as [Hi|Hi].
        + rewrite (bool_decide_eq_true_2 _ Hi), Hi.
          rewrite bool_decide_eq_true_2; [done|]. by apply elem_of_cons; left.
        + rewrite (bool_decide_eq_false_2 _ Hi).
          rewrite bool_decide_eq_false_2; [done|].
          intros [?|?]%elem_of_cons; done. }
    assert (∀ x, IssuerIDCRLMap c !! i = Some x → x ≠ "" →
                 (id = "" ∨ id = x) ∧ id1 = x) as Hhere.
    { intros x Hx Hne. rewrite Hx in Hid1. unfold empty in Hid1.
      by rewrite bool_decide_eq_false_2 in Hid1. }
    assert (id ≠ "" → id1 = id) as Hkeep1.
    { intros Hne. destruct (IssuerIDCRLMap c !! i) as [x|] eqn:Hx; [|done].
      unfold empty in Hid1. case_bool_decide as Hex; [done|].
      destruct Hid1 as [[?|?] ?]; congruence. }
    assert (id1 = id ∨ (id1 ≠ "" ∧ IssuerIDCRLMap c !! i = Some id1)) as Hfrom1.
    { destruct (IssuerIDCRLMap c !! i) as [x|] eqn:Hx; [|by left].
      unfold empty in Hid1. case_bool_decide as Hex; [by left|].
      destruct Hid1 as [_ ->]. by right. }
    split; [|split].
    + intros i' x [->|Hin]%elem_of_cons Hx Hne; [|by eapply Hall].
      destruct (Hhere x Hx Hne) as [_ <-]. apply Hkeep. congruence.
    + intros Hne. rewrite Hkeep; [by apply Hkeep1|].
      rewrite Hkeep1; done.
    + intros Hne. destruct (Hfrom Hne) as [->|(i' & Hin & Hi')].
      * destruct Hfrom1 as [->|[_ Hi]]; [by left|].
        right. exists i. split; [by apply elem_of_cons; left|done].
      * right. exists i'. split; [by apply elem_of_cons; right|done].
Qed.

End Members.

(** X21. The loop over the members of a class: the revoked certificates of
    the class are those of its members in order, with the certificates
    without issuer put in front of the default issuer's own; the
    representative is the default issuer when it is a member and the first
    member otherwise; and the CRL id is the one the index records for the
    members (every member that has an id has this one), or empty when no
    member has an id. *)
Theorem class_members_are_pooled `{Platform} (config : issuerConfigEntry)
    (un : list pkix.RevokedCertificate)
    (rm : gmap string (list pkix.RevokedCertificate))
    (c : localCRLConfigEntry) (first : string) (l : list string)
    (w w' : World) (revokedCerts : list pkix.RevokedCertificate)
    (representative crlIdentifier crlIdIssuer : string) :
  forM (memberStep config un rm c) l ([], first, "", "") w
  = (inr (revokedCerts, representative, crlIdentifier, crlIdIssuer), w') →
  w' = w
  ∧ revokedCerts = concat (memberRevoked config un rm <$> l)
  ∧ representative = (if bool_decide (DefaultIssuerId config ∈ l)
                      then DefaultIssuerId config else first)
  ∧ (∀ i x, i ∈ l → IssuerIDCRLMap c !! i = Some x → x ≠ "" →
            crlIdentifier = x)
  ∧ (crlIdentifier ≠ "" →
     ∃ i, i ∈ l ∧ IssuerIDCRLMap c !! i = Some crlIdentifier).
Proof.
  intros Hrun.
  apply members_run in Hrun as (-> & -> & -> & Hall & _ & Hfrom).
  repeat split; try done.
  intros Hne. by destruct (Hfrom Hne) as [->|?].
Qed.

Section OnDemoMembers.
#[local] Existing Instance Demo.platform.

(** The class of [I2] and [I1]: the default issuer [I1] comes second and
    brings the certificate without issuer. *)
Lemma class_members_are_pooled_witness :
  let rc17 := {| pkix.SerialNumber := 17; pkix.RevocationTime := Demo.now |} in
  let rc18 := {| pkix.SerialNumber := 18; pkix.RevocationTime := Demo.now |} in
  let rc19 := {| pkix.SerialNumber := 19; pkix.RevocationTime := Demo.now |} in
  forM (memberStep {| DefaultIssuerId := "I1" |} [rc19]
          {[ "I1" := [rc17]; "I2" := [rc18] ]} Demo.indexI1)
       ["I2"; "I1"] ([], "I2", "", "") Demo.world0
  = (inr ([rc18; rc19; rc17], "I1", "crl-0", "I1"), Demo.world0)
  ∧ [rc18; rc19; rc17]
    = concat (memberRevoked {| DefaultIssuerId := "I1" |} [rc19]
                {[ "I1" := [rc17]; "I2" := [rc18] ]} <$> ["I2"; "I1"]).
Proof.
  intros rc17 rc18 rc19.
  assert (forM (memberStep {| DefaultIssuerId := "I1" |} [rc19]
                  {[ "I1" := [rc17]; "I2" := [rc18] ]} Demo.indexI1)
               ["I2"; "I1"] ([], "I2", "", "") Demo.world0
          = (inr ([rc18; rc19; rc17], "I1", "crl-0", "I1"), Demo.world0))
    as Hrun by reflexivity.
  split; [exact Hrun|].
  by destruct (class_members_are_pooled _ _ _ _ _ _ _ _ _ _ _ _ Hrun)
    as (_ & Hpool & _).
Defined.

End OnDemoMembers.

(** ** The index after a build *)

Section IndexAfterBuild.
Context `{Platform}.

Lemma deleteOrphans_loop b (f : error → error) (refs : list string) ids :
  ∀ w w',
    forM (λ (_ : unit) crlId,
            if bool_decide (crlId ∈ refs) then ret tt
            else wrapErr f (Storage.Delete b ("crls/" +:+ crlId)))
         ids tt w = (inr tt, w') →
    localCRL w' = localCRL w
    ∧ (∀ k, storage w !! k = None → storage w' !! k = None)
    ∧ (∀ id, id ∈ ids → id ∉ refs → storage w' !! ("crls/" +:+ id) = None).
Proof.
  induction ids as [|id0 ids IH]; intros w w' Hrun.
  - apply ret_inr in Hrun as [_ <-]. split; [done|]. split; [done|].
    intros id Hin. by apply elem_of_nil in Hin.
  - apply forM_cons_inr in Hrun as ([] & w1 & Hstep & Hrest).
    apply IH in Hrest as (Hidx & Hnone & Hdel).
    assert (localCRL w1 = localCRL w
            ∧ (∀ k, storage w !! k = None → storage w1 !! k = None)
            ∧ (id0 ∉ refs → storage w1 !! ("crls/" +:+ id0) = None))
      as (Hidx1 & Hnone1 & Hdel1).
    { case_bool_decide as Href.
      - apply ret_inr in Hstep as [_ <-]. done.
      - apply wrapErr_inr in Hstep. unfold Storage.Delete in Hstep.
        destruct (deleteFault b _); [done|]. unfold modify in Hstep.
        injection Hstep as <-. simpl. split; [done|]. split.
        + intros k Hk. destruct (decide (k = "crls/" +:+ id0)) as [->|Hne].
          * by rewrite lookup_delete_eq.
          * by rewrite lookup_delete_ne.
        + intros _. by rewrite lookup_delete_eq. }
    split; [congruence|]. split; [by auto|].
    intros id [->|Hin]%elem_of_cons Hout; [|by apply Hdel].
    by apply Hnone, Hdel1.
Qed.

Lemma buildClass_keeps_numbers b g forceNew config un rm c l w c1 w1 :
  buildClass b g forceNew config un rm c l w = (inr c1, w1) →
  ∀ id, is_Some (CRLNumberMap c !! id) → is_Some (CRLNumberMap c1 !! id).
Proof.
  destruct l as [|first rest]; intros Hrun id Hid.
  - by apply ret_inr in Hrun as [<- _].
  - apply buildClass_number in Hrun
      as (_ & _ & id1 & n & _ & _ & _ & _ & _ & Hnew & Hother).
    destruct (decide (id = id1)) as [->|Hne]; [by rewrite Hnew|].
    by rewrite Hother.
Qed.

Lemma buildClasses_keep_numbers b g forceNew config un rm ks c w c1 w1 :
  buildClasses b g forceNew config un rm ks c w = (inr c1, w1) →
  ∀ id, is_Some (CRLNumberMap c !! id) → is_Some (CRLNumberMap c1 !! id).
Proof.
  intros Hrun id Hid. unfold buildClasses in Hrun.
  eapply (forM_preserve _ (λ c', is_Some (CRLNumberMap c' !! id)));
    [|exact Hrun|exact Hid].
  intros c2 p w2 c3 w3 _ Hinner Hc2. simpl in Hinner.
  eapply (forM_preserve _ (λ c', is_Some (CRLNumberMap c' !! id)));
    [|exact Hinner|exact Hc2].
  intros c4 q w4 c5 w5 _ Hclass Hc4. simpl in Hclass.
  by eapply buildClass_keeps_numbers.
Qed.

End IndexAfterBuild.

(** X22. The index that a successful build persists (outside the legacy
    mode): it maps listed issuers only; every CRL id that had a number
    before the build still has one, also when no issuer refers to it any
    more; and the CRL of an id that has a number and that no issuer is
    mapped to is not in the storage. *)
Theorem successful_build_index `{Platform} (b : backend) (forceNew : bool)
    (w w' : World) (issuers : list string) :
  rangeVisitsAll →
  buildRuns b forceNew w →
  useLegacyBundleCaStorage b = false →
  listIssuers b = inr issuers →
  buildCRLs b forceNew w = (inr tt, w') →
  ∃ c, localCRL w' = Some c
       ∧ (∀ i id, IssuerIDCRLMap c !! i = Some id → i ∈ issuers)
       ∧ (∀ id, is_Some (CRLNumberMap (indexOf w) !! id) →
                is_Some (CRLNumberMap c !! id))
       ∧ (∀ id, is_Some (CRLNumberMap c !! id) →
                (∀ i, IssuerIDCRLMap c !! i ≠ Some id) →
                storage w' !! ("crls/" +:+ id) = None).
Proof.
  intros Hperm Hruns Hlegacy Hlist Hrun.
  destruct (buildCRLs_trace b forceNew w w' Hruns Hrun)
    as [g config em cm ks c0 un rm rm' c1 w0 w1 w2 w3 w4 w5
        Hcfg _ _ Hcollect Hindex _ _ Hclasses Hdel Hpersist].
  assert (buildIssuers b = issuers) as Hissuers.
  { unfold buildIssuers. by rewrite Hlegacy, Hlist. }
  rewrite Hlegacy, Hissuers in *.
  unfold setLocalCRLConfig in Hpersist.
  destruct (localCRLSetFault b); [done|].
  unfold modify in Hpersist. injection Hpersist as <-.
  exists (pruneIssuers issuers c1). split; [done|]. split; [|split].
  - intros i id Hi. unfold pruneIssuers in Hi. simpl in Hi.
    by apply map_lookup_filter_Some in Hi as [_ ?].
  - intros id Hid. unfold pruneIssuers, with_IssuerIDCRLMap. simpl.
    apply (buildClasses_keep_numbers _ _ _ _ _ _ _ _ _ _ _ Hclasses).
    assert (c0 = indexOf w) as ->; [|done].
    pose proof (getConfigWithUpdate_samePersisted b w) as Hs0.
    rewrite Hcfg in Hs0. destruct Hs0 as [_ Hs0]. simpl in Hs0.
    apply (collectIssuers_anywhere _ _ _ _ _ _ w0) in Hcollect as [-> _].
    unfold getLocalCRLConfig in Hindex.
    destruct (localCRLGetFault b); [done|].
    apply bind_inr in Hindex as (wa & wb & [<- <-]%ret_inr & Hindex).
    apply ret_inr in Hindex as [[= <-] _]. unfold indexOf. by rewrite Hs0.
  - intros id Hid Hfree. unfold deleteOrphans in Hdel.
    apply deleteOrphans_loop in Hdel as (_ & _ & Hdel). simpl.
    apply Hdel.
    + by apply elem_of_rangeMap_keys.
    + intros ([i id'] & -> & Hin)%list_elem_of_fmap.
      apply elem_of_map_to_list in Hin. by apply (Hfree i).
Qed.

Section OnDemoIndex.
#[local] Existing Instance Demo.platform.

(** The index records the CRL [crl-9] of an issuer [I9] that is gone. *)
Lemma successful_build_index_witness :
  let gone :=
    set_storage <["crls/crl-9" := "CRL number=3 revoked=[]"]>
      (set_localCRL
         (Some {| IssuerIDCRLMap := {[ "I9" := "crl-9" ]};
                  CRLNumberMap := {[ "crl-9" := 4%Z ]};
                  CRLExpirationMap := {[ "crl-9" := Demo.now ]} |})
         Demo.world0) in
  let w' := (buildCRLs Demo.soloMount false gone).2 in
  ∃ c, localCRL w' = Some c
       ∧ IssuerIDCRLMap c !! "I9" = None
       ∧ is_Some (CRLNumberMap c !! "crl-9")
       ∧ storage w' !! "crls/crl-9" = None.
Proof.
  intros gone w'.
  assert (localCRL w'
          = Some {| IssuerIDCRLMap := {[ "I1" := "crl-0" ]};
                    CRLNumberMap := {[ "crl-9" := 4%Z; "crl-0" := 2%Z ]};
                    CRLExpirationMap :=
                      {[ "crl-9" := Demo.now;
                         "crl-0" := time.Add Demo.now (72 * Demo.hour)%Z ]} |})
    as Hindex by (vm_compute; reflexivity).
  destruct (successful_build_index Demo.soloMount false gone w' ["I1"]
              Demo_rangeVisitsAll)
    as (c & Hc & Hlisted & Hkept & Hdeleted).
  - exists Demo.autoConfig, (getConfigWithUpdate Demo.soloMount gone).2.
    split; reflexivity.
  - reflexivity.
  - reflexivity.
  - vm_compute. reflexivity.
  - rewrite Hindex in Hc. injection Hc as <-.
    eexists. split; [exact Hindex|]. split; [reflexivity|].
    split; [by eexists|].
    apply (Hdeleted "crl-9"); [by eexists|].
    intros i Hi. apply Hlisted in Hi as Hin.
    apply list_elem_of_singleton in Hin. subst i. discriminate Hi.
Defined.

End OnDemoIndex.
